(** * Four.meme token monitor: block-timestamp cache, connection lifecycle,
      event normalisation and Kafka dispatch

    A shallow embedding of the TypeScript sources
    [src/utils/helpers.ts], [src/rpc/index.ts], the Kafka-publishing Four.meme
    monitor and [kafka/producer], followed by the properties the design
    document states about them.

    JavaScript numbers that hold block numbers, millisecond timestamps,
    attempt counters and delays are integers in every use the sources make of
    them and are modelled as [Z]; [bigint] values are [Z] as well.  The only
    genuinely fractional numbers (price, supply, market capitalisation) are
    kept behind the [JsNumber] interface. *)

From Stdlib Require Import ZArith String Ascii List Lia DecimalString.
From stdpp Require Import gmap strings list fin_maps.

Set Warnings "-clear-no-such-hyp".

Local Open Scope string_scope.
Local Open Scope Z_scope.

(* ===================================================================== *)
(** ** [src/utils/helpers.ts] *)
(* ===================================================================== *)

Module Helpers.

(** [Math.min(baseDelay * Math.pow(2, attempt - 1), maxDelay)].
    For an integer [attempt >= 1] the power is an exact integer. *)
Definition calculateBackoffDelay (attempt baseDelay maxDelay : Z) : Z :=
  Z.min (baseDelay * 2 ^ (attempt - 1)) maxDelay.

(** The default arguments [baseDelay = 1000], [maxDelay = 30000]. *)
Definition defaultBaseDelay : Z := 1000.
Definition defaultMaxDelay : Z := 30000.

Definition calculateBackoffDelay1 (attempt : Z) : Z :=
  calculateBackoffDelay attempt defaultBaseDelay defaultMaxDelay.

(** [BigInt.prototype.toString()] for a non-negative value. *)
Definition digits (n : Z) : string :=
  NilZero.string_of_uint (N.to_uint (Z.to_N n)).

(** [Number.prototype.toString()] of an integer. *)
Definition integerToString (n : Z) : string :=
  (if n <? 0 then "-" else "") ++ digits (Z.abs n).

Fixpoint zeros (n : nat) : string :=
  match n with
  | O => ""
  | S k => String "0" (zeros k)
  end.

(** Left-pad with zeros until the length exceeds [decimals]
    ([while (str.length <= decimals) str = Zeros + str]). *)
Definition padWhole (decimals : nat) (s : string) : string :=
  zeros (S decimals - String.length s) ++ s.

(** [while (str[0] === "0" && str[1] !== ".") str = str.substring(1)],
    run on the whole part alone: leading zeros go while more than one
    character is left. *)
Fixpoint trimWhole (s : string) : string :=
  match s with
  | String "0" (String c r as t) => trimWhole t
  | _ => s
  end.

(** [while (str[str.length - 1] === "0" && str[str.length - 2] !== ".")
    str = str.substring(0, str.length - 1)], run on the fraction alone. *)
Definition trimFraction (s : string) : string :=
  String.rev (trimWhole (String.rev s)).

(** ethers v6 [formatUnits(value, decimals)] on a [bigint]
    ([FixedNumber.fromValue(value, decimals).toString()]): the decimal
    digits of [|value|], a point inserted [decimals] digits from the right,
    redundant zeros trimmed on both sides but one digit kept on each. *)
Definition formatUnits (value : Z) (decimals : nat) : string :=
  let negative := if value <? 0 then "-" else "" in
  let str := digits (Z.abs value) in
  match decimals with
  | O => negative ++ str
  | _ =>
      let str := padWhole decimals str in
      let index := (String.length str - decimals)%nat in
      negative ++ trimWhole (String.substring 0 index str) ++ "." ++
        trimFraction (String.substring index decimals str)
  end.

(** [Date.prototype.toISOString]: the proleptic Gregorian calendar date of
    a millisecond time value; a [RangeError] outside +-8.64e15 ms. *)
Definition maxTimeValue : Z := 8640000000000000.

Definition validTimeValue (ms : Z) : bool :=
  (- maxTimeValue <=? ms) && (ms <=? maxTimeValue).

Definition pad (width : nat) (n : Z) : string :=
  let d := digits n in zeros (width - String.length d) ++ d.

(** Year, month and day of a day count since 1970-01-01. *)
Definition civilFromDays (days : Z) : Z * Z * Z :=
  let z := days + 719468 in
  let era := z / 146097 in
  let doe := z - era * 146097 in
  let yoe := (doe - doe / 1460 + doe / 36524 - doe / 146096) / 365 in
  let doy := doe - (365 * yoe + yoe / 4 - yoe / 100) in
  let mp := (5 * doy + 2) / 153 in
  let d := doy - (153 * mp + 2) / 5 + 1 in
  let m := if mp <? 10 then mp + 3 else mp - 9 in
  let y := yoe + era * 400 + (if m <=? 2 then 1 else 0) in
  (y, m, d).

Definition isoYear (y : Z) : string :=
  if (0 <=? y) && (y <=? 9999) then pad 4 y
  else (if y <? 0 then "-" else "+") ++ pad 6 (Z.abs y).

Definition toISOString (ms : Z) : option string :=
  if validTimeValue ms then
    let '(y, m, d) := civilFromDays (ms / 86400000) in
    let t := ms mod 86400000 in
    Some (isoYear y ++ "-" ++ pad 2 m ++ "-" ++ pad 2 d ++ "T" ++
          pad 2 (t / 3600000) ++ ":" ++ pad 2 (t / 60000 mod 60) ++ ":" ++
          pad 2 (t / 1000 mod 60) ++ "." ++ pad 3 (t mod 1000) ++ "Z")
  else None.

End Helpers.

Import Helpers.
Local Open Scope list_scope.

Arguments toISOString : simpl never.
Arguments formatUnits : simpl never.

(* ===================================================================== *)
(** ** JavaScript values at the untyped boundaries *)
(* ===================================================================== *)

Module Js.

(** What a field of a decoded log, or a field of a record built from one,
    can hold: ABI decoding yields strings (addresses, names) and bigints
    (uintN); an absent field reads as [undefined]. *)
Inductive Value :=
| VUndefined
| VString (s : string)
| VBigInt (n : Z).

Definition truthy (v : Value) : bool :=
  match v with
  | VUndefined => false
  | VString s => negb (String.eqb s "")
  | VBigInt n => negb (n =? 0)
  end.

(** [a || b] *)
Definition or (a b : Value) : Value := if truthy a then a else b.

(** [JSON.stringify] raises a TypeError on a bigint. *)
Definition serializable (v : Value) : bool :=
  match v with VBigInt _ => false | _ => true end.

(** The ethers [Result] of a decoded log: fields by name and by position. *)
Record Result := { named : gmap string Value; positional : list Value }.

Definition prop (args : Result) (name : string) : Value :=
  default VUndefined (named args !! name).

Definition index (args : Result) (i : nat) : Value :=
  default VUndefined (positional args !! i).

(** The listener payload: [event.args], [event.log.blockNumber],
    [event.log.transactionHash]. *)
Record Event := {
  args : Result;
  blockNumber : Z;
  transactionHash : Value
}.

End Js.

Import Js.

(** Arithmetic on the fractional numbers of the trade handlers ([parseFloat],
    [*], [> 0]) and the reading of a numeric string as a bigint are library
    behaviour left to an interface, so that what is proved holds for IEEE
    doubles as for any other reading of them. *)
Class JsNumber := {
  number : Type;
  parseFloat : string -> number;
  multiply : number -> number -> number;
  zero : number;
  positive : number -> bool;
  stringToBigInt : string -> option Z
}.

(* ===================================================================== *)
(** ** The process: environment, state and the monad of effects *)
(* ===================================================================== *)

(** Answer of the chain node to [provider.getBlock]: a block with its
    timestamp in seconds, [null], or a rejected promise. *)
Inductive BlockResponse :=
| BlockFound (timestamp : Z)
| BlockAbsent
| BlockError (message : string).

(** Requests made to the chain node, in the order they were issued. *)
Inductive RpcRequest :=
| GetBlock (blockNumber : Z)
| CallTotalSupply (token : Value)
| CallFounder (token : Value)
| CallPair (token : Value).

(** Everything the outside world decides.  Each oracle is indexed by how
    many answers of its kind were given before. *)
Record Env := {
  clock : nat -> Z;
  getBlock : nat -> Z -> BlockResponse;
  totalSupply : nat -> Value -> option Z;
  founder : nat -> Value -> option Value;
  pair : nat -> Value -> option Value;
  producerConnect : nat -> bool;
  producerSend : nat -> bool;
  random : nat -> string
}.
Existing Class Env.

(** [RPCProvider]: the fields of the connection manager.  A WebSocket
    session and an interval timer are named by the order of their creation. *)
Record RPCProvider := {
  provider : option nat;
  healthCheckInterval : option nat;
  reconnectAttempts : Z;
  isConnected : bool;
  maxReconnectAttempts : Z;
  reconnectDelay : Z;
  healthCheckIntervalMs : Z;
  connectionTimeout : Z
}.

(** [new RPCProvider(wsUrl, maxReconnectAttempts, reconnectDelay)] *)
Definition newRPCProvider (maxReconnectAttempts reconnectDelay : Z)
    : RPCProvider :=
  {| provider := None; healthCheckInterval := None; reconnectAttempts := 0;
     isConnected := false; maxReconnectAttempts := maxReconnectAttempts;
     reconnectDelay := reconnectDelay; healthCheckIntervalMs := 30000;
     connectionTimeout := 10000 |}.

(** [new RPCProvider(wsUrl)]: at most 10 reconnects, 5000 ms apart. *)
Definition defaultRPCProvider : RPCProvider := newRPCProvider 10 5000.

(** [BlockTimeManager]: [blockTimestamps] and [maxCacheSize]. *)
Record BlockTimeManager := {
  blockTimestamps : gmap Z Z;
  maxCacheSize : nat
}.

Definition newBlockTimeManager : BlockTimeManager :=
  {| blockTimestamps := ∅; maxCacheSize := 100 |}.

Record CreatedToken := { ct_token_mint : Value; created_at : Z }.

(* ===================================================================== *)
(** ** [src/rpc/index.ts]: the connection lifecycle of [RPCProvider] *)
(* ===================================================================== *)

Module Connection.

(** An asynchronous call of the manager, suspended at an [await]. *)
Inductive Task :=
| AwaitingBlock (session : nat)
    (** [connect()] waiting for the first block of its session, or the
        confirmation timeout *)
| Probing
    (** a health check waiting for [getBlockNumber()] *)
| AwaitingDestroy
    (** [reconnect()] waiting for [provider.destroy()] *)
| Sleeping
    (** [reconnect()] waiting for [sleep(reconnectDelay)] *)
| Disconnecting.
    (** [disconnect()] waiting for [provider.destroy()] *)

(** What the event loop runs next. *)
Inductive Event :=
| Block (session : nat)         (** the first block arrived *)
| Timeout (session : nat)       (** the confirmation timeout elapsed *)
| ProviderError (session : nat) (** the session emitted ['error'] *)
| Tick (timer : nat)            (** the health-check interval fired *)
| ProbeOk                       (** a health check got its answer *)
| ProbeFailed                   (** a health check failed *)
| Destroyed                     (** [destroy()] of a reconnect settled *)
| Woke (opened : bool)
    (** [sleep()] elapsed; whether the new WebSocket could be created *)
| Disconnect                    (** [disconnect()] is called *)
| Disconnected.                 (** [destroy()] of a disconnect settled *)

#[global] Instance Task_eq_dec : EqDecision Task.
Proof. solve_decision. Defined.

(** The manager, its suspended calls and the resources it has created. *)
Record Runtime := {
  manager : RPCProvider;
  tasks : list Task;
  sessions : nat;         (** sessions opened so far *)
  timers : nat;           (** intervals set so far *)
  listening : list nat;   (** sessions whose listeners are still installed *)
  ticking : list nat;     (** intervals not cleared *)
  naps : list Z;          (** delays slept by [reconnect()] *)
  exited : list Z         (** codes passed to [process.exit] *)
}.

Definition withManager (f : RPCProvider -> RPCProvider) (r : Runtime) : Runtime :=
  {| manager := f (manager r); tasks := tasks r; sessions := sessions r;
     timers := timers r; listening := listening r; ticking := ticking r;
     naps := naps r; exited := exited r |}.

Definition withTasks (f : list Task -> list Task) (r : Runtime) : Runtime :=
  {| manager := manager r; tasks := f (tasks r); sessions := sessions r;
     timers := timers r; listening := listening r; ticking := ticking r;
     naps := naps r; exited := exited r |}.

Definition setProvider (o : option nat) (m : RPCProvider) : RPCProvider :=
  {| provider := o; healthCheckInterval := healthCheckInterval m;
     reconnectAttempts := reconnectAttempts m; isConnected := isConnected m;
     maxReconnectAttempts := maxReconnectAttempts m;
     reconnectDelay := reconnectDelay m;
     healthCheckIntervalMs := healthCheckIntervalMs m;
     connectionTimeout := connectionTimeout m |}.

Definition setInterval (o : option nat) (m : RPCProvider) : RPCProvider :=
  {| provider := provider m; healthCheckInterval := o;
     reconnectAttempts := reconnectAttempts m; isConnected := isConnected m;
     maxReconnectAttempts := maxReconnectAttempts m;
     reconnectDelay := reconnectDelay m;
     healthCheckIntervalMs := healthCheckIntervalMs m;
     connectionTimeout := connectionTimeout m |}.

Definition setAttempts (n : Z) (m : RPCProvider) : RPCProvider :=
  {| provider := provider m; healthCheckInterval := healthCheckInterval m;
     reconnectAttempts := n; isConnected := isConnected m;
     maxReconnectAttempts := maxReconnectAttempts m;
     reconnectDelay := reconnectDelay m;
     healthCheckIntervalMs := healthCheckIntervalMs m;
     connectionTimeout := connectionTimeout m |}.

Definition setConnected (b : bool) (m : RPCProvider) : RPCProvider :=
  {| provider := provider m; healthCheckInterval := healthCheckInterval m;
     reconnectAttempts := reconnectAttempts m; isConnected := b;
     maxReconnectAttempts := maxReconnectAttempts m;
     reconnectDelay := reconnectDelay m;
     healthCheckIntervalMs := healthCheckIntervalMs m;
     connectionTimeout := connectionTimeout m |}.

(** [clearInterval(this.healthCheckInterval)] *)
Definition clearCurrentInterval (r : Runtime) : Runtime :=
  match healthCheckInterval (manager r) with
  | Some t =>
      {| manager := manager r; tasks := tasks r; sessions := sessions r;
         timers := timers r; listening := listening r;
         ticking := filter (fun t' => t' <> t) (ticking r);
         naps := naps r; exited := exited r |}
  | None => r
  end.

(** [process.exit(code)]: nothing runs afterwards. *)
Definition exit (code : Z) (r : Runtime) : Runtime :=
  {| manager := manager r; tasks := tasks r; sessions := sessions r;
     timers := timers r; listening := listening r; ticking := ticking r;
     naps := naps r; exited := exited r ++ [code] |}.

(** The [try] block of [connect()] up to its [await]: a new session with its
    error listener, a new health-check interval, then the wait for the first
    block. *)
Definition openSession (r : Runtime) : Runtime :=
  let session := sessions r in
  let timer := timers r in
  {| manager := setInterval (Some timer) (setProvider (Some session) (manager r));
     tasks := tasks r ++ [AwaitingBlock session];
     sessions := S session; timers := S timer;
     listening := session :: listening r; ticking := timer :: ticking r;
     naps := naps r; exited := exited r |}.

(** [await sleep(this.reconnectDelay)] of [reconnect()] *)
Definition nap (r : Runtime) : Runtime :=
  {| manager := manager r; tasks := tasks r ++ [Sleeping];
     sessions := sessions r; timers := timers r; listening := listening r;
     ticking := ticking r; naps := naps r ++ [reconnectDelay (manager r)];
     exited := exited r |}.

(** [this.provider.destroy()] is called: the session loses its listeners;
    the call settles later. *)
Definition destroy (session : nat) (r : Runtime) : Runtime :=
  {| manager := manager r; tasks := tasks r ++ [AwaitingDestroy];
     sessions := sessions r; timers := timers r;
     listening := filter (fun n => n <> session) (listening r);
     ticking := ticking r; naps := naps r; exited := exited r |}.

(** [reconnect()] up to its first [await]. *)
Definition reconnect (r : Runtime) : Runtime :=
  let m := manager r in
  if maxReconnectAttempts m <=? reconnectAttempts m then exit 1 r
  else
    let r := withManager (fun m =>
               setConnected false (setAttempts (reconnectAttempts m + 1) m)) r in
    let r := withManager (setInterval None) (clearCurrentInterval r) in
    match provider (manager r) with
    | Some session => destroy session r
    | None => nap r
    end.

(** [connect()] up to its [await]; when the WebSocket cannot even be
    created the [catch] block reconnects at once. *)
Definition connect (opened : bool) (r : Runtime) : Runtime :=
  if opened then openSession r else reconnect r.

(** [disconnect()] up to its [await]. *)
Definition disconnect (r : Runtime) : Runtime :=
  let r := withManager (setConnected false) r in
  let r := withManager (setInterval None) (clearCurrentInterval r) in
  match provider (manager r) with
  | Some session =>
      {| manager := manager r; tasks := tasks r ++ [Disconnecting];
         sessions := sessions r; timers := timers r;
         listening := filter (fun n => n <> session) (listening r);
         ticking := ticking r; naps := naps r; exited := exited r |}
  | None => r
  end.

(** Take one suspended call off the list, if there is one. *)
Fixpoint resume (t : Task) (ts : list Task) : option (list Task) :=
  match ts with
  | [] => None
  | t' :: ts =>
      if decide (t' = t) then Some ts
      else option_map (cons t') (resume t ts)
  end.

Definition resuming (t : Task) (r : Runtime) (k : Runtime -> Runtime) : Runtime :=
  match resume t (tasks r) with
  | Some ts => k (withTasks (fun _ => ts) r)
  | None => r
  end.

(** One turn of the event loop.  An event that nothing waits for changes
    nothing, and nothing happens once the process has exited. *)
Definition step (r : Runtime) (e : Event) : Runtime :=
  match exited r with
  | _ :: _ => r
  | [] =>
      match e with
      | Block session =>
          if decide (session ∈ listening r) then
            resuming (AwaitingBlock session) r
              (withManager (fun m => setConnected true (setAttempts 0 m)))
          else r
      | Timeout session => resuming (AwaitingBlock session) r reconnect
      | ProviderError session =>
          if decide (session ∈ listening r)
          then reconnect (clearCurrentInterval r)
          else r
      | Tick timer =>
          if decide (timer ∈ ticking r)
          then withTasks (fun ts => ts ++ [Probing]) r
          else r
      | ProbeOk => resuming Probing r (fun r => r)
      | ProbeFailed =>
          resuming Probing r (fun r =>
            reconnect (withManager (setInterval None) (clearCurrentInterval r)))
      | Destroyed =>
          resuming AwaitingDestroy r (fun r =>
            nap (withManager (setProvider None) r))
      | Woke opened => resuming Sleeping r (connect opened)
      | Disconnect => disconnect r
      | Disconnected =>
          resuming Disconnecting r (withManager (setProvider None))
      end
  end.

Definition run (es : list Event) (r : Runtime) : Runtime := foldl step r es.

(** [initializeRPC]: a new manager, then [connect()]. *)
Definition boot (m : RPCProvider) (opened : bool) : Runtime :=
  connect opened
    {| manager := m; tasks := []; sessions := 0; timers := 0;
       listening := []; ticking := []; naps := []; exited := [] |}.

(** One failed connection attempt: the confirmation times out, the stale
    session is destroyed, the manager sleeps and connects again. *)
Definition failedRound (session : nat) : list Event :=
  [Timeout session; Destroyed; Woke true].

Fixpoint failedRounds (first count : nat) : list Event :=
  match count with
  | O => []
  | S count => failedRound first ++ failedRounds (S first) count
  end.

(** A reconnect is in flight. *)
Definition reconnecting (r : Runtime) : Prop :=
  isConnected (manager r) = false
  /\ (AwaitingDestroy ∈ tasks r \/ Sleeping ∈ tasks r).

(** The manager after [k] failed rounds: waiting for the first block of
    session [k], with [k] reconnects counted. *)
Definition retrying (max delay : Z) (k : nat) : Runtime :=
  {| manager :=
       {| provider := Some k; healthCheckInterval := Some k;
          reconnectAttempts := Z.of_nat k; isConnected := false;
          maxReconnectAttempts := max; reconnectDelay := delay;
          healthCheckIntervalMs := 30000; connectionTimeout := 10000 |};
     tasks := [AwaitingBlock k]; sessions := S k; timers := S k;
     listening := [k]; ticking := [k]; naps := replicate k delay;
     exited := [] |}.

(** The reconnect counter is within the ceiling [max] of the manager. *)
Definition withinCeiling (max : Z) (r : Runtime) : Prop :=
  maxReconnectAttempts (manager r) = max
  /\ 0 <= reconnectAttempts (manager r) <= max.

End Connection.

(* ===================================================================== *)
(** ** A reading of the numbers for concrete runs: exact decimals *)
(* ===================================================================== *)

(** A decimal [mantissa * 10^-scale], or [NaN]. *)
Inductive Decimal :=
| NaN
| Dec (mantissa : Z) (scale : nat).

Definition digitValue (c : ascii) : option Z :=
  let n := Z.of_nat (nat_of_ascii c) in
  if (48 <=? n) && (n <=? 57) then Some (n - 48) else None.

(** Digits read from the left: the number so far and how many were read. *)
Fixpoint readDigits (s : string) (acc : Z) (n : nat) : Z * nat * string :=
  match s with
  | String c rest =>
      match digitValue c with
      | Some d => readDigits rest (10 * acc + d) (S n)
      | None => (acc, n, s)
      end
  | EmptyString => (acc, n, s)
  end.

(** The plain decimal literals [formatUnits] prints: an optional sign, an
    integer part and an optional fraction. *)
Definition parseDecimal (s : string) : Decimal :=
  let '(sign, body) :=
    match s with
    | String "-" rest => (-1, rest)
    | _ => (1, s)
    end in
  let '(whole, n, rest) := readDigits body 0 0 in
  match n, rest with
  | O, _ => NaN
  | _, String "." fraction =>
      let '(all, k, _) := readDigits fraction whole 0 in
      Dec (sign * all) k
  | _, _ => Dec (sign * whole) 0
  end.

Definition decimalToBigInt (s : string) : option Z :=
  match parseDecimal s with
  | Dec m O => Some m
  | _ => None
  end.

Definition DecimalNumber : JsNumber := {|
  number := Decimal;
  parseFloat := parseDecimal;
  multiply := fun a b =>
    match a, b with
    | Dec m j, Dec n k => Dec (m * n) (j + k)
    | _, _ => NaN
    end;
  zero := Dec 0 0;
  positive := fun a => match a with Dec m _ => 0 <? m | NaN => false end;
  stringToBigInt := decimalToBigInt
|}.

(** How a call ends: with a value or with a thrown exception. *)
Inductive Outcome (A : Type) :=
| Returns (a : A)
| Throws (msg : string).
Arguments Returns {A} a.
Arguments Throws {A} msg.

(** The monad of effects: state passing with exceptions.  A thrown
    exception keeps the state changes made before it. *)
Definition M (S A : Type) : Type := S -> Outcome A * S.

Definition ret {S A} (a : A) : M S A := fun s => (Returns a, s).

Definition throw {S A} (msg : string) : M S A := fun s => (Throws msg, s).

Definition bind {S A B} (m : M S A) (k : A -> M S B) : M S B :=
  fun s =>
    match m s with
    | (Returns a, s') => k a s'
    | (Throws msg, s') => (Throws msg, s')
    end.

Definition tryCatch {S A} (m : M S A) (handler : string -> M S A) : M S A :=
  fun s =>
    match m s with
    | (Returns a, s') => (Returns a, s')
    | (Throws msg, s') => handler msg s'
    end.

Definition update {S} (f : S -> S) : M S unit := fun s => (Returns tt, f s).

Definition gets {S A} (f : S -> A) : M S A := fun s => (Returns (f s), s).

Notation "'let!' x ':=' m 'in' k" := (bind m (fun x => k))
  (at level 10, x name, m at level 100, k at level 200, only parsing).
Notation "'do!' m 'in' k" := (bind m (fun _ => k))
  (at level 10, m at level 100, k at level 200, only parsing).

(** Split a goal into its conjuncts, without unfolding definitions. *)
Ltac conjs := repeat match goal with |- _ /\ _ => split end.

Section Records.

(** The type of the fractional numbers. *)
Context {F : Type}.

(** *** Canonical records ([src/types/events.ts]) *)

Record TokenCreateEvent := {
  tc_chain_id : Z;
  tc_token_mint : Value;
  token_name : Value;
  token_symbol : Value;
  creator_wallet : Value;
  metadata_uri : string;
  initial_supply : string;
  tc_block_time : Z;
  tc_slot : Z;
  tc_signature : Value;
  tc_kafka_timestamp : string
}.

(** [TokenPurchaseEvent] and [TokenSaleEvent] have the same fields. *)
Record TokenTradeEvent := {
  tt_chain_id : Z;
  direction : string;
  buyer_wallet : Value;
  tt_token_mint : Value;
  token_amount : string;
  token_decimals : Z;
  sol_amount : string;
  market_cap : F;
  tt_block_time : Z;
  tt_slot : Z;
  tt_signature : Value;
  tt_kafka_timestamp : string
}.

Record CompleteFourMemeMigrationEvent := {
  mg_chain_id : Z;
  mg_token_mint : Value;
  migrator_wallet : Value;
  liquidity_pool : Value;
  migration_fee : string;
  mg_block_time : Z;
  mg_slot : Z;
  mg_signature : Value;
  mg_kafka_timestamp : string
}.

Inductive FourMemeEvent :=
| TokenCreate (e : TokenCreateEvent)
| TokenTrade (e : TokenTradeEvent)
| TokenMigration (e : CompleteFourMemeMigrationEvent).

Definition event_token_mint (e : FourMemeEvent) : Value :=
  match e with
  | TokenCreate e => tc_token_mint e
  | TokenTrade e => tt_token_mint e
  | TokenMigration e => mg_token_mint e
  end.

Definition event_signature (e : FourMemeEvent) : Value :=
  match e with
  | TokenCreate e => tc_signature e
  | TokenTrade e => tt_signature e
  | TokenMigration e => mg_signature e
  end.


(** The fields [JSON.stringify] has to render that may hold any value. *)
Definition event_values (e : FourMemeEvent) : list Value :=
  match e with
  | TokenCreate e =>
      [tc_token_mint e; token_name e; token_symbol e; creator_wallet e;
       tc_signature e]
  | TokenTrade e => [buyer_wallet e; tt_token_mint e; tt_signature e]
  | TokenMigration e =>
      [mg_token_mint e; migrator_wallet e; liquidity_pool e; mg_signature e]
  end.

Definition stringifiable (e : FourMemeEvent) : bool :=
  forallb serializable (event_values e).

(** *** Console and bus *)

Inductive ConsoleLine :=
| BlockCached (blockNumber : Z) (iso : string)
| BlockFetchError (blockNumber : Z) (attempt maxRetries : nat) (msg : string)
| BlockRetrying (delay : Z)
| BlockFetchFailed (blockNumber : Z) (maxRetries : nat)
| TotalSupplyWarning (token : Value)
| MarketCapWarning (msg : string)
| ContractDataWarning (token : Value)
| EventLine (timestamp eventType : string) (data : FourMemeEvent)
| ProducerConnected
| ProducerConnectFailed
| ProducerUnavailable
| KafkaSent (topic : string)
| KafkaSendFailed (topic : string).

(** Payload of a bus message: the value handed to [JSON.stringify]. *)
Inductive Payload :=
| OfEvent (e : FourMemeEvent)
| OfObject (o : gmap string Value).

Record Message := { topic : string; key : Value; value : Payload }.

(** *** The state of the process *)

(** What the process has done to the world so far. *)
Record World := {
  clockReads : nat;
  rpcLog : list RpcRequest;
  sleeps : list Z;
  console : list ConsoleLine;
  connectAttempts : nat;
  sendAttempts : nat;
  randomDraws : nat;
  bus : list Message
}.

Definition emptyWorld : World :=
  {| clockReads := 0; rpcLog := []; sleeps := []; console := [];
     connectAttempts := 0; sendAttempts := 0; randomDraws := 0; bus := [] |}.

(** Module-level variables of the running process. *)
Record State := {
  world : World;
  rpcProvider : option RPCProvider;
  blockTimeManager : BlockTimeManager;
  createdTokens : list CreatedToken;
  kafkaProducer : option nat;
  producerInstance : option nat
}.

Definition withWorld (f : World -> World) (s : State) : State :=
  {| world := f (world s); rpcProvider := rpcProvider s;
     blockTimeManager := blockTimeManager s;
     createdTokens := createdTokens s; kafkaProducer := kafkaProducer s;
     producerInstance := producerInstance s |}.

Definition withBlockTimestamps (f : gmap Z Z -> gmap Z Z) (s : State) : State :=
  {| world := world s; rpcProvider := rpcProvider s;
     blockTimeManager :=
       {| blockTimestamps := f (blockTimestamps (blockTimeManager s));
          maxCacheSize := maxCacheSize (blockTimeManager s) |};
     createdTokens := createdTokens s; kafkaProducer := kafkaProducer s;
     producerInstance := producerInstance s |}.

Definition withCreatedTokens (f : list CreatedToken -> list CreatedToken)
    (s : State) : State :=
  {| world := world s; rpcProvider := rpcProvider s;
     blockTimeManager := blockTimeManager s;
     createdTokens := f (createdTokens s); kafkaProducer := kafkaProducer s;
     producerInstance := producerInstance s |}.


Definition setProducerInstance (p : option nat) (s : State) : State :=
  {| world := world s; rpcProvider := rpcProvider s;
     blockTimeManager := blockTimeManager s;
     createdTokens := createdTokens s; kafkaProducer := kafkaProducer s;
     producerInstance := p |}.

End Records.

Section Process.
Context {arithmetic : JsNumber} {env : Env}.

(** The records and the state, at the number type of the process. *)
Local Abbreviation TokenTradeEvent := (TokenTradeEvent (F := number)).
Local Abbreviation FourMemeEvent := (FourMemeEvent (F := number)).
Local Abbreviation ConsoleLine := (ConsoleLine (F := number)).
Local Abbreviation Payload := (Payload (F := number)).
Local Abbreviation Message := (Message (F := number)).
Local Abbreviation World := (World (F := number)).
Local Abbreviation State := (State (F := number)).

(** *** Primitive effects *)

Definition tick (w : World) : World :=
  {| clockReads := S (clockReads w); rpcLog := rpcLog w; sleeps := sleeps w;
     console := console w; connectAttempts := connectAttempts w;
     sendAttempts := sendAttempts w; randomDraws := randomDraws w;
     bus := bus w |}.

Definition request (r : RpcRequest) (w : World) : World :=
  {| clockReads := clockReads w; rpcLog := rpcLog w ++ [r];
     sleeps := sleeps w; console := console w;
     connectAttempts := connectAttempts w; sendAttempts := sendAttempts w;
     randomDraws := randomDraws w; bus := bus w |}.

Definition slept (ms : Z) (w : World) : World :=
  {| clockReads := clockReads w; rpcLog := rpcLog w;
     sleeps := sleeps w ++ [ms]; console := console w;
     connectAttempts := connectAttempts w; sendAttempts := sendAttempts w;
     randomDraws := randomDraws w; bus := bus w |}.

Definition printed (l : ConsoleLine) (w : World) : World :=
  {| clockReads := clockReads w; rpcLog := rpcLog w; sleeps := sleeps w;
     console := console w ++ [l]; connectAttempts := connectAttempts w;
     sendAttempts := sendAttempts w; randomDraws := randomDraws w;
     bus := bus w |}.

Definition connectTried (w : World) : World :=
  {| clockReads := clockReads w; rpcLog := rpcLog w; sleeps := sleeps w;
     console := console w; connectAttempts := S (connectAttempts w);
     sendAttempts := sendAttempts w; randomDraws := randomDraws w;
     bus := bus w |}.

Definition sendTried (w : World) : World :=
  {| clockReads := clockReads w; rpcLog := rpcLog w; sleeps := sleeps w;
     console := console w; connectAttempts := connectAttempts w;
     sendAttempts := S (sendAttempts w); randomDraws := randomDraws w;
     bus := bus w |}.

Definition drawn (w : World) : World :=
  {| clockReads := clockReads w; rpcLog := rpcLog w; sleeps := sleeps w;
     console := console w; connectAttempts := connectAttempts w;
     sendAttempts := sendAttempts w; randomDraws := S (randomDraws w);
     bus := bus w |}.

Definition published (m : Message) (w : World) : World :=
  {| clockReads := clockReads w; rpcLog := rpcLog w; sleeps := sleeps w;
     console := console w; connectAttempts := connectAttempts w;
     sendAttempts := sendAttempts w; randomDraws := randomDraws w;
     bus := bus w ++ [m] |}.

(** [Date.now()] *)
Definition dateNow : M State Z :=
  let! now := gets (fun s => clock env (clockReads (world s))) in
  do! update (withWorld tick) in
  ret now.

(** [console.log], [console.warn], [console.error] *)
Definition consoleLog (l : ConsoleLine) : M State unit :=
  update (withWorld (printed l)).

(** [await sleep(ms)] *)
Definition sleep (ms : Z) : M State unit := update (withWorld (slept ms)).

(** [await provider.getBlock(blockNumber)]: the block's timestamp, [null],
    or an exception. *)
Definition providerGetBlock (blockNumber : Z) : M State (option Z) :=
  let! n := gets (fun s => length (rpcLog (world s))) in
  do! update (withWorld (request (GetBlock blockNumber))) in
  match getBlock env n blockNumber with
  | BlockFound ts => ret (Some ts)
  | BlockAbsent => ret None
  | BlockError msg => throw msg
  end.

(** [new Date(ms).toISOString()] *)
Definition isoString (ms : Z) : M State string :=
  match toISOString ms with
  | Some iso => ret iso
  | None => throw "Invalid time value"
  end.

(* ===================================================================== *)
(** ** [src/rpc/index.ts]: [BlockTimeManager] *)
(* ===================================================================== *)

(** [Math.min(...this.blockTimestamps.keys())] *)
Definition oldestBlock (m : gmap Z Z) : option Z :=
  match (map_to_list m).*1 with
  | [] => None
  | k :: ks => Some (foldr Z.min k ks)
  end.

(** [this.blockTimestamps.set(blockNumber, timestamp)] followed by the
    clean-up of the oldest block when the size exceeds [maxCacheSize]. *)
Definition cachePut (maxCacheSize : nat) (blockNumber timestamp : Z)
    (m : gmap Z Z) : gmap Z Z :=
  let m := <[blockNumber := timestamp]> m in
  if (maxCacheSize <? size m)%nat then
    match oldestBlock m with
    | Some oldest => delete oldest m
    | None => m
    end
  else m.

(** How one turn of the retry loop ends. *)
Inductive Turn :=
| Continue
| Return (r : option Z).

(** The body of [for (let attempt = 1; attempt <= maxRetries; attempt++)].
    [block.timestamp * 1000] is a product of doubles; it is the integer
    product as long as that is at most 2^53 in absolute value, which
    includes every valid time value. *)
Definition fetchAttempt (blockNumber : Z) (maxRetries attempt : nat)
    : M State Turn :=
  tryCatch
    (let! block := providerGetBlock blockNumber in
     match block with
     | None =>
         if (attempt <? maxRetries)%nat then
           do! sleep (calculateBackoffDelay1 (Z.of_nat attempt)) in
           ret Continue
         else ret (Return None)
     | Some ts =>
         let timestamp := ts * 1000 in
         let! cap := gets (fun s => maxCacheSize (blockTimeManager s)) in
         do! update (withBlockTimestamps (cachePut cap blockNumber timestamp)) in
         let! iso := isoString timestamp in
         do! consoleLog (BlockCached blockNumber iso) in
         ret (Return (Some timestamp))
     end)
    (fun msg =>
       do! consoleLog (BlockFetchError blockNumber attempt maxRetries msg) in
       if (attempt <? maxRetries)%nat then
         let delay := calculateBackoffDelay1 (Z.of_nat attempt) in
         do! consoleLog (BlockRetrying delay) in
         do! sleep delay in
         ret Continue
       else
         do! consoleLog (BlockFetchFailed blockNumber maxRetries) in
         ret (Return None)).

(** The loop, by the number of turns left ([maxRetries - attempt + 1]);
    after the last turn the function falls through to [return null]. *)
Fixpoint fetchLoop (turns : nat) (blockNumber : Z) (maxRetries attempt : nat)
    : M State (option Z) :=
  match turns with
  | O => ret None
  | S turns =>
      let! t := fetchAttempt blockNumber maxRetries attempt in
      match t with
      | Return r => ret r
      | Continue => fetchLoop turns blockNumber maxRetries (S attempt)
      end
  end.

Definition getBlockTimestamp (blockNumber : Z) (maxRetries : nat)
    : M State (option Z) :=
  let! cache := gets (fun s => blockTimestamps (blockTimeManager s)) in
  match cache !! blockNumber with
  | Some timestamp => ret (Some timestamp)
  | None => fetchLoop maxRetries blockNumber maxRetries 1
  end.

Definition defaultMaxRetries : nat := 3.

(** [clearCache()] and [getCacheSize()] *)
Definition clearCache : M State unit :=
  update (withBlockTimestamps (fun _ => ∅)).

Definition getCacheSize : M State nat :=
  gets (fun s => size (blockTimestamps (blockTimeManager s))).

(* ===================================================================== *)
(** ** [src/rpc/index.ts]: provider access and contract reads *)
(* ===================================================================== *)

(** [getRPCProvider()] *)
Definition getRPCProvider : M State RPCProvider :=
  fun s =>
    match rpcProvider s with
    | Some p => (Returns p, s)
    | None =>
        (Throws "RPC provider not initialized. Call initializeRPC() first.", s)
    end.

(** [RPCProvider.getProvider()] *)
Definition getProvider (p : RPCProvider) : M State nat :=
  match provider p with
  | Some session =>
      if isConnected p then ret session else throw "Provider not connected"
  | None => throw "Provider not connected"
  end.

(** [getTokenTotalSupply(provider, tokenAddress)]: the read-only call
    [totalSupply()]; any failure is caught, logged and turned into [null]. *)
Definition getTokenTotalSupply (tokenAddress : Value) : M State (option Z) :=
  let! n := gets (fun s => length (rpcLog (world s))) in
  do! update (withWorld (request (CallTotalSupply tokenAddress))) in
  match totalSupply env n tokenAddress with
  | Some supply => ret (Some supply)
  | None =>
      do! consoleLog (TotalSupplyWarning tokenAddress) in
      ret None
  end.

(* ===================================================================== *)
(** ** [src/utils/helpers.ts], the effectful part *)
(* ===================================================================== *)

(** ethers [getBigInt] on a [BigNumberish]. *)
Definition getBigInt (v : Value) : option Z :=
  match v with
  | VBigInt n => Some n
  | VString s => stringToBigInt s
  | VUndefined => None
  end.

(** The 512-bit signed range of the fixed point format of [formatUnits]. *)
Definition inRange (n : Z) : bool := (- 2 ^ 511 <=? n) && (n <? 2 ^ 511).

(** [formatToken(value, decimals = 18)] is [ethers.formatUnits]; the value
    has to be a [BigNumberish] within the range of the format. *)
Definition formatToken (value : Value) : M State string :=
  match getBigInt value with
  | Some n =>
      if inRange n then ret (formatUnits n 18) else throw "overflow"
  | None => throw "invalid BigNumberish"
  end.

(** [formatBNB(value)] is [ethers.formatEther]. *)
Definition formatBNB (value : Value) : M State string := formatToken value.

(** [generateKafkaTimestamp()]: [new Date().toISOString()] *)
Definition generateKafkaTimestamp : M State string :=
  let! now := dateNow in
  isoString now.

(** [calculateMarketCap(price, supply)] *)
Definition calculateMarketCap (price supply : number) : number :=
  multiply price supply.

(** [createLogMessage(eventType, data)]: time stamp, event type and the
    pretty-printed JSON of the record. *)
Definition createLogMessage (eventType : string) (data : FourMemeEvent)
    : M State ConsoleLine :=
  let! timestamp := generateKafkaTimestamp in
  if stringifiable data then ret (EventLine timestamp eventType data)
  else throw "Do not know how to serialize a BigInt".

(* ===================================================================== *)
(** ** The Four.meme monitor that publishes to Kafka *)
(* ===================================================================== *)

Definition TOKEN_RAW_CREATED : string := "token.raw.created".

Definition TOKEN_RAW_TRADE : string := "token.raw.trade".

Definition TOKEN_RAW_MIGRATED : string := "token.raw.migrated".


(** [Math.random().toString()] *)
Definition randomString : M State string :=
  let! n := gets (fun s => randomDraws (world s)) in
  do! update (withWorld drawn) in
  ret (random env n).

(** [await kafkaProducer.send({ topic, messages: [{ key, value }] })] *)
Definition producerSendMessage (m : Message) : M State unit :=
  let! n := gets (fun s => sendAttempts (world s)) in
  do! update (withWorld sendTried) in
  if producerSend env n then update (withWorld (published m))
  else throw "send failed".

(** [event.token_mint || event.signature || Math.random().toString()] *)
Definition messageKey (event : FourMemeEvent) : M State Value :=
  if truthy (event_token_mint event) then ret (event_token_mint event)
  else if truthy (event_signature event) then ret (event_signature event)
  else let! r := randomString in ret (VString r).

(** [sendToKafka(topic, event)] *)
Definition sendToKafka (topic : string) (event : FourMemeEvent) : M State unit :=
  let! producer := gets kafkaProducer in
  match producer with
  | None => consoleLog ProducerUnavailable
  | Some _ =>
      tryCatch
        (let! key := messageKey event in
         do! (if stringifiable event then ret tt
              else throw "Do not know how to serialize a BigInt") in
         do! producerSendMessage
               {| topic := topic; key := key; value := OfEvent event |} in
         consoleLog (KafkaSent topic))
        (fun _ => consoleLog (KafkaSendFailed topic))
  end.

(** [blockTimestamp ? Math.floor(blockTimestamp / 1000)
                    : Math.floor(Date.now() / 1000)]
    The quotient of doubles, rounded down, is the integer quotient for every
    valid time value (and so for every [Date.now()]). *)
Definition blockTimeOf (blockTimestamp : option Z) : M State Z :=
  match blockTimestamp with
  | Some t =>
      if t =? 0 then let! now := dateNow in ret (now / 1000)
      else ret (t / 1000)
  | None => let! now := dateNow in ret (now / 1000)
  end.

(** The common prologue of the handlers: the live provider, then the block
    time of the log. *)
Definition resolveBlockTime (event : Event) : M State Z :=
  let! rpc := getRPCProvider in
  let! session := getProvider rpc in
  let! blockTimestamp := getBlockTimestamp (blockNumber event) defaultMaxRetries in
  blockTimeOf blockTimestamp.

Definition handleTokenCreate (contractVersion : string) (event : Event)
    : M State TokenCreateEvent :=
  let args := args event in
  let! blockTime := resolveBlockTime event in
  let! supply := formatToken (or (prop args "totalSupply") (index args 5)) in
  let! kafkaTimestamp := generateKafkaTimestamp in
  let tokenData :=
    {| tc_chain_id := 0;
       tc_token_mint := or (prop args "token") (index args 1);
       token_name := or (prop args "name") (index args 3);
       token_symbol := or (prop args "symbol") (index args 4);
       creator_wallet := or (prop args "creator") (index args 0);
       metadata_uri := "N/A";
       initial_supply := supply;
       tc_block_time := blockTime;
       tc_slot := blockNumber event;
       tc_signature := transactionHash event;
       tc_kafka_timestamp := kafkaTimestamp |} in
  let! now := dateNow in
  do! update (withCreatedTokens (fun l =>
        l ++ [{| ct_token_mint := tc_token_mint tokenData;
                 created_at := now |}])) in
  let! line := createLogMessage "TokenCreate" (TokenCreate tokenData) in
  do! consoleLog line in
  do! sendToKafka TOKEN_RAW_CREATED (TokenCreate tokenData) in
  ret tokenData.

Definition isV2 (contractVersion : string) : bool :=
  String.eqb contractVersion "V2".

(** [const totalSupply = 1000000000] of [handleTokenPurchase]. *)
Definition defaultTotalSupply : Z := 1000000000.

(** The market capitalisation of a purchase: no call to the token contract,
    the constant [defaultTotalSupply] instead. *)
Definition purchaseMarketCap (contractVersion : string) (args : Result)
    : M State number :=
  if isV2 contractVersion then
    let! priceText := formatToken (or (prop args "price") (index args 2)) in
    let price := parseFloat priceText in
    if positive price then
      tryCatch
        (if defaultTotalSupply =? 0 then ret zero
         else
           let! supplyText := formatToken (VBigInt defaultTotalSupply) in
           ret (calculateMarketCap price (parseFloat supplyText)))
        (fun msg => do! consoleLog (MarketCapWarning msg) in ret zero)
    else ret zero
  else ret zero.

(** The market capitalisation of a sale: [totalSupply()] is read from the
    token contract. *)
Definition saleMarketCap (contractVersion : string) (args : Result)
    : M State number :=
  if isV2 contractVersion then
    let! priceText := formatToken (or (prop args "price") (index args 2)) in
    let price := parseFloat priceText in
    if positive price then
      tryCatch
        (let! totalSupply :=
           getTokenTotalSupply (or (prop args "token") (index args 0)) in
         match totalSupply with
         | Some supply =>
             if supply =? 0 then ret zero
             else
               let! supplyText := formatToken (VBigInt supply) in
               ret (calculateMarketCap price (parseFloat supplyText))
         | None => ret zero
         end)
        (fun msg => do! consoleLog (MarketCapWarning msg) in ret zero)
    else ret zero
  else ret zero.

(** What the two trade handlers share after the market capitalisation. *)
Definition tradeRecord (dir eventType contractVersion : string) (event : Event)
    (blockTime : Z) (marketCapValue : number) : M State TokenTradeEvent :=
  let args := args event in
  let! tokenAmount :=
    (if isV2 contractVersion
     then formatToken (or (prop args "amount") (index args 3))
     else formatToken (or (prop args "tokenAmount") (index args 2))) in
  let! solAmount :=
    (if isV2 contractVersion
     then formatBNB (or (prop args "cost") (index args 4))
     else formatBNB (or (prop args "etherAmount") (index args 3))) in
  let! kafkaTimestamp := generateKafkaTimestamp in
  let tradeData :=
    {| tt_chain_id := 0;
       direction := dir;
       buyer_wallet := or (prop args "account") (index args 1);
       tt_token_mint := or (prop args "token") (index args 0);
       token_amount := tokenAmount;
       token_decimals := 18;
       sol_amount := solAmount;
       market_cap := marketCapValue;
       tt_block_time := blockTime;
       tt_slot := blockNumber event;
       tt_signature := transactionHash event;
       tt_kafka_timestamp := kafkaTimestamp |} in
  let! line := createLogMessage eventType (TokenTrade tradeData) in
  do! consoleLog line in
  do! sendToKafka TOKEN_RAW_TRADE (TokenTrade tradeData) in
  ret tradeData.

Definition handleTokenPurchase (contractVersion : string) (event : Event)
    : M State TokenTradeEvent :=
  let! blockTime := resolveBlockTime event in
  let! marketCapValue := purchaseMarketCap contractVersion (args event) in
  tradeRecord "buy" "TokenPurchase" contractVersion event blockTime
    marketCapValue.

Definition handleTokenSale (contractVersion : string) (event : Event)
    : M State TokenTradeEvent :=
  let! blockTime := resolveBlockTime event in
  let! marketCapValue := saleMarketCap contractVersion (args event) in
  tradeRecord "sell" "TokenSale" contractVersion event blockTime
    marketCapValue.

(** The two read-only calls [founder()] and [pair()] of
    [handleLiquidityAdded], issued together ([Promise.all]); a failure of
    either is caught and logged and leaves both fields at ["N/A"]. *)
Definition readFounderAndPair (tokenAddress : Value) : M State (Value * Value) :=
  let! n := gets (fun s => length (rpcLog (world s))) in
  do! update (withWorld (request (CallFounder tokenAddress))) in
  do! update (withWorld (request (CallPair tokenAddress))) in
  match founder env n tokenAddress, pair env (S n) tokenAddress with
  | Some founderAddress, Some pairAddress => ret (founderAddress, pairAddress)
  | _, _ =>
      do! consoleLog (ContractDataWarning tokenAddress) in
      ret (VString "N/A", VString "N/A")
  end.

Definition handleLiquidityAdded (contractVersion : string) (event : Event)
    : M State CompleteFourMemeMigrationEvent :=
  let args := args event in
  let! blockTime := resolveBlockTime event in
  let tokenAddress := or (prop args "base") (index args 0) in
  let! contractData := readFounderAndPair tokenAddress in
  let! fee := formatBNB (or (prop args "funds") (index args 3)) in
  let! kafkaTimestamp := generateKafkaTimestamp in
  let liquidityData :=
    {| mg_chain_id := 0;
       mg_token_mint := tokenAddress;
       migrator_wallet := fst contractData;
       liquidity_pool := snd contractData;
       migration_fee := fee;
       mg_block_time := blockTime;
       mg_slot := blockNumber event;
       mg_signature := transactionHash event;
       mg_kafka_timestamp := kafkaTimestamp |} in
  let! line :=
    createLogMessage "CompleteFourMemeMigration" (TokenMigration liquidityData) in
  do! consoleLog line in
  do! sendToKafka TOKEN_RAW_MIGRATED (TokenMigration liquidityData) in
  ret liquidityData.

(** The listeners installed by [setupEventListeners]: which handler a log
    goes to. *)
Inductive EventKind :=
| KTokenCreate
| KTokenPurchase
| KTokenSale
| KLiquidityAdded.

Definition handle (kind : EventKind) (contractVersion : string) (event : Event)
    : M State FourMemeEvent :=
  match kind with
  | KTokenCreate =>
      let! e := handleTokenCreate contractVersion event in ret (TokenCreate e)
  | KTokenPurchase =>
      let! e := handleTokenPurchase contractVersion event in ret (TokenTrade e)
  | KTokenSale =>
      let! e := handleTokenSale contractVersion event in ret (TokenTrade e)
  | KLiquidityAdded =>
      let! e := handleLiquidityAdded contractVersion event in
      ret (TokenMigration e)
  end.

(* ===================================================================== *)
(** ** [kafka/producer]: [sendRawTokenEvent] *)
(* ===================================================================== *)

(** [getProducer()]: the instance is stored before it is connected. *)
Definition getProducer : M State nat :=
  let! instance := gets producerInstance in
  match instance with
  | Some producer => ret producer
  | None =>
      let! n := gets (fun s => connectAttempts (world s)) in
      do! update (setProducerInstance (Some n)) in
      do! update (withWorld connectTried) in
      if producerConnect env n then
        do! consoleLog ProducerConnected in ret n
      else throw "connect failed"
  end.

(** [eventData.signature || `${topic}-${Date.now()}`] *)
Definition rawMessageKey (topic : string) (eventData : gmap string Value)
    : M State Value :=
  let signature := default VUndefined (eventData !! "signature") in
  if truthy signature then ret signature
  else
    let! now := dateNow in
    ret (VString (topic ++ "-" ++ integerToString now)%string).

Definition sendRawTokenEvent (topic : string) (eventData : gmap string Value)
    : M State unit :=
  tryCatch
    (let! producer := getProducer in
     let! key := rawMessageKey topic eventData in
     do! (if forallb serializable (map_to_list eventData).*2 then ret tt
          else throw "Do not know how to serialize a BigInt") in
     do! producerSendMessage
           {| topic := topic; key := key; value := OfObject eventData |} in
     consoleLog (KafkaSent topic))
    (fun _ => consoleLog (KafkaSendFailed topic)).

(* ===================================================================== *)
(** ** [src/rpc/index.ts] and the monitor: the remaining entry points *)
(* ===================================================================== *)

(** [RPCProvider.isHealthy()] *)
Definition isHealthy (p : RPCProvider) : bool :=
  isConnected p && negb (bool_decide (provider p = None)).

Definition setRpcProvider (p : option RPCProvider) (s : State) : State :=
  {| world := world s; rpcProvider := p;
     blockTimeManager := blockTimeManager s;
     createdTokens := createdTokens s; kafkaProducer := kafkaProducer s;
     producerInstance := producerInstance s |}.

(** The fields of the manager once [RPCProvider.disconnect()] has run to
    its end: not connected, no health-check interval, no session. *)
Definition disconnected (p : RPCProvider) : RPCProvider :=
  Connection.setProvider None
    (Connection.setInterval None (Connection.setConnected false p)).

(** [shutdownRPC()]: the manager, if there is one, is disconnected; then
    the cache is cleared. *)
Definition shutdownRPC : M State unit :=
  let! rpc := gets rpcProvider in
  do! match rpc with
      | Some p => update (setRpcProvider (Some (disconnected p)))
      | None => ret tt
      end in
  clearCache.

(** [clearCreatedTokens()] and [getCreatedTokensCount()] *)
Definition clearCreatedTokens : M State unit :=
  update (withCreatedTokens (fun _ => [])).

Definition getCreatedTokensCount : M State nat :=
  gets (fun s => length (createdTokens s)).

(* ===================================================================== *)
(** ** Observations and predicates used by the properties *)
(* ===================================================================== *)

Definition cache (s : State) : gmap Z Z := blockTimestamps (blockTimeManager s).

Definition capacity (s : State) : nat := maxCacheSize (blockTimeManager s).

Definition requests (s : State) : list RpcRequest := rpcLog (world s).

Definition waits (s : State) : list Z := sleeps (world s).

(** The capacity invariant of the block-timestamp cache. *)
Definition cacheBounded (s : State) : Prop := (size (cache s) <= capacity s)%nat.

(** Everything a cache query leaves alone. *)
Definition sameElsewhere (s s' : State) : Prop :=
  rpcProvider s' = rpcProvider s
  /\ createdTokens s' = createdTokens s
  /\ kafkaProducer s' = kafkaProducer s
  /\ producerInstance s' = producerInstance s
  /\ capacity s' = capacity s
  /\ clockReads (world s') = clockReads (world s)
  /\ connectAttempts (world s') = connectAttempts (world s)
  /\ sendAttempts (world s') = sendAttempts (world s)
  /\ randomDraws (world s') = randomDraws (world s)
  /\ bus (world s') = bus (world s).

Definition failedResponse (r : BlockResponse) : bool :=
  match r with
  | BlockFound _ => false
  | BlockAbsent | BlockError _ => true
  end.

(** The delay slept after failed attempt [attempt] of [maxRetries]. *)
Definition backoffAfter (maxRetries attempt : nat) : list Z :=
  if (attempt <? maxRetries)%nat
  then [calculateBackoffDelay1 (Z.of_nat attempt)] else [].

(** The delays slept after failed attempts [a], [a+1], ..., [a+n-1]. *)
Definition backoffs (a n : nat) : list Z :=
  map (fun i => calculateBackoffDelay1 (Z.of_nat i)) (seq a n).

(** Operations of the cache, and a sequence of them. *)
Inductive CacheOp :=
| Query (blockNumber : Z) (maxRetries : nat)
| Clear.

Definition runOp (s : State) (op : CacheOp) : State :=
  match op with
  | Query b r => snd (getBlockTimestamp b r s)
  | Clear => snd (clearCache s)
  end.

Definition runOps (ops : list CacheOp) (s : State) : State :=
  foldl runOp s ops.

(** Queries for a list of blocks, one after the other. *)
Definition queryAll (bs : list Z) (maxRetries : nat) (s : State) : State :=
  foldl (fun s b => snd (getBlockTimestamp b maxRetries s)) s bs.

(** [b1 < b2 < ... < bK] *)
Fixpoint increasing (bs : list Z) : bool :=
  match bs with
  | [] => true
  | b :: rest =>
      match rest with
      | [] => true
      | b' :: _ => (b <? b') && increasing rest
      end
  end.

(** The node answers every request with a block that has a timestamp the
    log line can print. *)
Definition alwaysFound : Prop :=
  forall n b, exists ts,
    getBlock env n b = BlockFound ts /\ validTimeValue (ts * 1000) = true.

(** A computation keeps a state predicate, whether it returns or throws. *)
Definition preserves (P : State -> Prop) {A} (m : M State A) : Prop :=
  forall s, P s -> P (snd (m s)).

(** Relative to [s0]: no producer, nothing published, no send and no
    producer connection attempted since. *)
Definition muted (s0 s : State) : Prop :=
  kafkaProducer s = None
  /\ bus (world s) = bus (world s0)
  /\ sendAttempts (world s) = sendAttempts (world s0)
  /\ connectAttempts (world s) = connectAttempts (world s0).

(** Two states that differ at most in [kafkaProducer]. *)
Definition apart (s1 s2 : State) : Prop :=
  world s1 = world s2
  /\ rpcProvider s1 = rpcProvider s2
  /\ blockTimeManager s1 = blockTimeManager s2
  /\ createdTokens s1 = createdTokens s2
  /\ producerInstance s1 = producerInstance s2.

(** A computation that neither reads nor writes [kafkaProducer]. *)
Definition blind {A} (m : M State A) : Prop :=
  forall s1 s2, apart s1 s2 ->
    fst (m s1) = fst (m s2) /\ apart (snd (m s1)) (snd (m s2)).

(** A computation whose outcome does not depend on [kafkaProducer]. *)
Definition blindOutcome {A} (m : M State A) : Prop :=
  forall s1 s2, apart s1 s2 -> fst (m s1) = fst (m s2).

(** The key [sendToKafka] gives a message published from state [s]. *)
Definition keyOf (event : FourMemeEvent) (s : State) : Value :=
  if truthy (event_token_mint event) then event_token_mint event
  else if truthy (event_signature event) then event_signature event
  else VString (random env (randomDraws (world s))).

(** Whether a call of [sendToKafka] from state [s] gets its message out:
    there is a producer, the record can be serialised, the broker accepts. *)
Definition delivers (event : FourMemeEvent) (s : State) : bool :=
  match kafkaProducer s with
  | Some _ => stringifiable event && producerSend env (sendAttempts (world s))
  | None => false
  end.

(** The provider is live. *)
Definition connected (s : State) : Prop :=
  exists p session,
    rpcProvider s = Some p /\ provider p = Some session
    /\ isConnected p = true.

(** The price of a V2 trade as the handlers read it. *)
Definition priceArg (args : Result) : Value :=
  or (prop args "price") (index args 2).

Definition tokenArg (args : Result) : Value :=
  or (prop args "token") (index args 0).

(** Requests other than block fetches: the auxiliary contract reads. *)
Definition auxiliary (r : RpcRequest) : bool :=
  match r with GetBlock _ => false | _ => true end.

Definition supplyArg (args : Result) : Value :=
  or (prop args "totalSupply") (index args 5).

(** The key [sendRawTokenEvent] gives a message published from state [s]. *)
Definition rawKeyOf (topic : string) (eventData : gmap string Value)
    (s : State) : Value :=
  let signature := default VUndefined (eventData !! "signature") in
  if truthy signature then signature
  else VString (topic ++ "-"
                  ++ integerToString (clock env (clockReads (world s))))%string.






(** The topic the handler of each kind of log publishes to. *)
Definition topicOf (kind : EventKind) : string :=
  match kind with
  | KTokenCreate => TOKEN_RAW_CREATED
  | KTokenPurchase | KTokenSale => TOKEN_RAW_TRADE
  | KLiquidityAdded => TOKEN_RAW_MIGRATED
  end.

(** An observation of the state that reading the clock, asking the node,
    sleeping, printing and caching leave alone. *)
Definition aside {T} (f : State -> T) : Prop :=
  (forall s, f (withWorld tick s) = f s)
  /\ (forall q s, f (withWorld (request q) s) = f s)
  /\ (forall ms s, f (withWorld (slept ms) s) = f s)
  /\ (forall l s, f (withWorld (printed l) s) = f s)
  /\ (forall g s, f (withBlockTimestamps g s) = f s).

(** The observation [f] reads as it did in [s0]. *)
Definition kept {T} (f : State -> T) (s0 s : State) : Prop := f s = f s0.

(** What a handler that started in [s0] has put on the bus when it ends
    with outcome [o] in state [s]: the record it returns, once, on [topic],
    or nothing; nothing at all, not even an attempt, when it throws. *)
Definition publishedOnce (topic : string) (s0 : State)
    (o : Outcome FourMemeEvent) (s : State) : Prop :=
  match o with
  | Returns r =>
      bus (world s) = bus (world s0)
      \/ exists k,
           bus (world s)
           = bus (world s0)
             ++ [{| topic := topic; key := k; value := OfEvent r |}]
  | Throws _ =>
      bus (world s) = bus (world s0)
      /\ sendAttempts (world s) = sendAttempts (world s0)
  end.

(** [Q] holds of the outcome and the final state of [m], whether it returns
    or throws, when it starts in a state with [P]. *)
Definition ensures {A} (P : State -> Prop) (m : M State A)
    (Q : Outcome A -> State -> Prop) : Prop :=
  forall s, P s -> Q (fst (m s)) (snd (m s)).

(** What the bus and the send counter show. *)
Definition traffic (s : State) : list Message * nat :=
  (bus (world s), sendAttempts (world s)).

(** [publishedOnce] for a handler that returns the record unwrapped. *)
Definition publishedAs {A} (wrap : A -> FourMemeEvent) (topic : string)
    (s0 : State) (o : Outcome A) (s : State) : Prop :=
  publishedOnce topic s0
    match o with Returns a => Returns (wrap a) | Throws msg => Throws msg end
    s.

(** Raw events sent one after the other. *)
Definition sendAllRaw (events : list (string * gmap string Value))
    (s : State) : State :=
  foldl (fun s '(topic, eventData) =>
           snd (sendRawTokenEvent topic eventData s)) s events.

End Process.

(* ===================================================================== *)
(** ** JavaScript arrays of strings *)
(* ===================================================================== *)

Module Arrays.

(** [Array.prototype.includes] and [Array.prototype.indexOf] on strings:
    strict equality, hence case-sensitive. *)
Definition includes (x : string) (l : list string) : bool :=
  existsb (String.eqb x) l.

Fixpoint indexOf (x : string) (l : list string) : option nat :=
  match l with
  | [] => None
  | y :: l => if String.eqb y x then Some 0%nat else S <$> indexOf x l
  end.

End Arrays.

(* ===================================================================== *)
(** ** [src/monitor/pancakeswap.ts]: the list of monitored pairs *)
(* ===================================================================== *)

Module Pairs.

Import Arrays.

(** The module-level array and what the two functions print. *)
Inductive Line :=
| PairAdded (pairAddress : string)
| PairRemoved (pairAddress : string).

Record Monitored := {
  pairs : list string;
  lines : list Line
}.

Definition PANCAKE_SWAP_PAIRS : list string :=
  ["0x473d8f4e7f63389cd7cb44837bad01b754de772a";
   "0x9Fbd9892821efE8022881427EA6f03384080F351";
   "0xfaaa87be61eb923c60de3dd19cbca7654b52eb94"].

Definition initially : Monitored :=
  {| pairs := PANCAKE_SWAP_PAIRS; lines := [] |}.

Definition setPairs (l : list string) (m : Monitored) : Monitored :=
  {| pairs := l; lines := lines m |}.

Definition consoleLog (l : Line) : M Monitored unit :=
  update (fun m => {| pairs := pairs m; lines := lines m ++ [l] |}).

(** [getMonitoredPairs()]: a copy of the array. *)
Definition getMonitoredPairs : M Monitored (list string) := gets pairs.

(** [addMonitoredPair(pairAddress)]: [push] unless already included. *)
Definition addMonitoredPair (pairAddress : string) : M Monitored unit :=
  let! current := gets pairs in
  if includes pairAddress current then ret tt
  else
    do! update (setPairs (current ++ [pairAddress])) in
    consoleLog (PairAdded pairAddress).

(** [removeMonitoredPair(pairAddress)]: [splice(index, 1)] at the first
    index of the pair, if there is one. *)
Definition removeMonitoredPair (pairAddress : string) : M Monitored unit :=
  let! current := gets pairs in
  match indexOf pairAddress current with
  | Some index =>
      do! update (setPairs (delete index current)) in
      consoleLog (PairRemoved pairAddress)
  | None => ret tt
  end.

(** The state after a call. *)
Definition after (m : M Monitored unit) (s : Monitored) : Monitored :=
  snd (m s).

End Pairs.

(* ===================================================================== *)
(** ** [src/kafka/client.ts]: [connectToKafka] *)
(* ===================================================================== *)

Module KafkaAdmin.

Import Arrays.

(** An entry of [admin.createTopics({ topics })]. *)
Record TopicConfig := {
  topic : string;
  numPartitions : nat;
  replicationFactor : nat
}.

(** The calls made on the admin client, in order. *)
Inductive Call :=
| AdminConnect
| ListTopics
| CreateTopics (topics : list TopicConfig)
| AdminDisconnect.

Inductive Line :=
| ConnectedToAdmin
| CreatingTopics (topics : list string)
| CreatedTopics (count : nat)
| TopicReady (topic : string)
| ConnectError (error : string).

Record Admin := {
  calls : list Call;
  lines : list Line
}.

(** How the broker answers: each call resolves or rejects; [disconnect] is
    indexed by the number of earlier calls of it. *)
Record Broker := {
  connect : Outcome unit;
  listTopics : Outcome (list string);
  createTopics : Outcome unit;
  disconnect : nat -> Outcome unit
}.

Definition REQUIRED_TOPICS : list string :=
  [TOKEN_RAW_CREATED; TOKEN_RAW_TRADE; TOKEN_RAW_MIGRATED].

Section Client.
Variable broker : Broker.

Definition called (c : Call) (s : Admin) : Admin :=
  {| calls := calls s ++ [c]; lines := lines s |}.

Definition consoleLog (l : Line) : M Admin unit :=
  update (fun s => {| calls := calls s; lines := lines s ++ [l] |}).

(** [await admin.connect()] and the other calls of the client. *)
Definition adminConnect : M Admin unit :=
  fun s => (connect broker, called AdminConnect s).

Definition adminListTopics : M Admin (list string) :=
  fun s => (listTopics broker, called ListTopics s).

Definition adminCreateTopics (topics : list TopicConfig) : M Admin unit :=
  fun s => (createTopics broker, called (CreateTopics topics) s).

Definition isDisconnect (c : Call) : bool :=
  match c with AdminDisconnect => true | _ => false end.

Definition adminDisconnect : M Admin unit :=
  fun s =>
    (disconnect broker (length (List.filter isDisconnect (calls s))),
     called AdminDisconnect s).

(** [for (const x of xs) { ... }] *)
Fixpoint forEach {A} (xs : list A) (body : A -> M Admin unit) : M Admin unit :=
  match xs with
  | [] => ret tt
  | x :: xs => do! body x in forEach xs body
  end.

(** The block that creates the topics that do not exist. *)
Definition createMissingTopics (topicsToCreate : list string)
    : M Admin unit :=
  if (0 <? length topicsToCreate)%nat then
    do! consoleLog (CreatingTopics topicsToCreate) in
    do! adminCreateTopics
          (map (fun topic =>
                  {| topic := topic; numPartitions := 1;
                     replicationFactor := 1 |}) topicsToCreate) in
    consoleLog (CreatedTopics (length topicsToCreate))
  else ret tt.

(** The loop that logs the status of all required topics. *)
Definition logRequiredTopics (existingTopics topicsToCreate : list string)
    : M Admin unit :=
  forEach REQUIRED_TOPICS (fun topic =>
    if includes topic existingTopics || includes topic topicsToCreate
    then consoleLog (TopicReady topic)
    else ret tt).

Definition connectToKafka : M Admin unit :=
  tryCatch
    (do! adminConnect in
     do! consoleLog ConnectedToAdmin in
     let! existingTopics := adminListTopics in
     let topicsToCreate :=
       List.filter (fun topic => negb (includes topic existingTopics))
         REQUIRED_TOPICS in
     do! createMissingTopics topicsToCreate in
     do! logRequiredTopics existingTopics topicsToCreate in
     adminDisconnect)
    (fun error =>
       do! consoleLog (ConnectError error) in
       do! tryCatch adminDisconnect (fun _ => ret tt) in
       throw error).

End Client.

(** The required topics the broker does not list. *)
Definition missing (existing : list string) : list string :=
  List.filter (fun topic => negb (includes topic existing)) REQUIRED_TOPICS.

(** The call that creates [topics], when there are any. *)
Definition creation (topics : list string) : list Call :=
  match topics with
  | [] => []
  | _ :: _ =>
      [CreateTopics
         (map (fun topic =>
                 {| topic := topic; numPartitions := 1;
                    replicationFactor := 1 |}) topics)]
  end.

(** The number of [disconnect] calls made so far. *)
Definition disconnects (s : Admin) : nat :=
  length (List.filter isDisconnect (calls s)).

(** A fresh client. *)
Definition idle : Admin := {| calls := []; lines := [] |}.

End KafkaAdmin.

(* ===================================================================== *)
(** ** [src/rpc/index.ts]: [getTransactionDetails] *)
(* ===================================================================== *)

Module Transactions.

(** The fields of an ethers [TransactionReceipt], [TransactionResponse] and
    [Block] that the function reads.  [null] is [None]. *)
Record Receipt := {
  r_blockNumber : Z;
  r_gasUsed : Z;
  r_status : option Z;
  r_logs : nat
}.

Record Transaction := {
  tx_hash : string;
  tx_blockNumber : option Z;
  tx_blockHash : option string;
  tx_from : string;
  tx_to : option string;
  tx_value : Z;
  tx_gasLimit : option Z;
  tx_gasPrice : option Z
}.

Record Block := { b_timestamp : Z }.

(** [TransactionDetails] of [src/types/events.ts]. *)
Record TransactionDetails := {
  hash : string;
  blockNumber : Z;
  blockHash : string;
  from : string;
  to : string;
  value : string;
  gasLimit : string;
  gasPrice : string;
  gasUsed : string;
  transactionFee : string;
  status : string;
  timestamp : string;
  logs : nat
}.

(** How the node answers a request: with a value, with [null], or by
    rejecting. *)
Inductive Reply (A : Type) :=
| Found (a : A)
| Absent
| Rejected (error : string).
Arguments Found {A} a.
Arguments Absent {A}.
Arguments Rejected {A} error.

Record Node := {
  getTransactionReceipt : string -> Reply Receipt;
  getTransaction : string -> Reply Transaction;
  getBlock : Z -> Reply Block
}.

Inductive Request :=
| ReceiptOf (txHash : string)
| TransactionOf (txHash : string)
| BlockAt (blockNumber : Z).

(** The requests made and the error lines printed. *)
Record Trace := {
  requests : list Request;
  errors : list (string * string)
}.

Section Provider.
Variable node : Node.

Definition requested (r : Request) (s : Trace) : Trace :=
  {| requests := requests s ++ [r]; errors := errors s |}.

Definition consoleError (txHash message : string) : M Trace unit :=
  update (fun s =>
            {| requests := requests s;
               errors := errors s ++ [(txHash, message)] |}).

Definition reply {A} (r : Reply A) : M Trace (option A) :=
  match r with
  | Found a => ret (Some a)
  | Absent => ret None
  | Rejected error => throw error
  end.

(** [await provider.getTransactionReceipt(txHash)] *)
Definition providerGetTransactionReceipt (txHash : string)
    : M Trace (option Receipt) :=
  do! update (requested (ReceiptOf txHash)) in
  reply (getTransactionReceipt node txHash).

(** [await Promise.all([provider.getTransaction(txHash),
    provider.getBlock(blockNumber)])]: both requests are made; the result
    is rejected when one of them is (with the error of the transaction
    request when both are). *)
Definition transactionAndBlock (txHash : string) (blockNumber : Z)
    : M Trace (option Transaction * option Block) :=
  do! update (requested (TransactionOf txHash)) in
  do! update (requested (BlockAt blockNumber)) in
  let! tx := reply (getTransaction node txHash) in
  let! block := reply (getBlock node blockNumber) in
  ret (tx, block).

(** [formatBNB(value)] on a bigint. *)
Definition formatBNB (value : Z) : M Trace string :=
  if inRange value then ret (formatUnits value 18) else throw "overflow".

(** [new Date(ms).toISOString()] *)
Definition isoString (ms : Z) : M Trace string :=
  match toISOString ms with
  | Some iso => ret iso
  | None => throw "Invalid time value"
  end.

(** A bigint that is neither [null] nor [0n]. *)
Definition truthyBigInt (v : option Z) : option Z :=
  match v with
  | Some n => if n =? 0 then None else Some n
  | None => None
  end.

Definition getTransactionDetails (txHash : string)
    : M Trace (option TransactionDetails) :=
  tryCatch
    (let! receipt := providerGetTransactionReceipt txHash in
     match receipt with
     | None => ret None
     | Some receipt =>
         let! both :=
           transactionAndBlock txHash (r_blockNumber receipt) in
         match both with
         | (Some tx, Some block) =>
             let! value := formatBNB (tx_value tx) in
             let gasLimit :=
               match tx_gasLimit tx with
               | Some limit => integerToString limit
               | None => "0"
               end in
             let! gasPrice :=
               match truthyBigInt (tx_gasPrice tx) with
               | Some price => formatBNB price
               | None => ret "0"
               end in
             let! transactionFee :=
               match truthyBigInt (tx_gasPrice tx),
                     truthyBigInt (Some (r_gasUsed receipt)) with
               | Some price, Some used => formatBNB (price * used)
               | _, _ => ret "0"
               end in
             let! timestamp := isoString (b_timestamp block * 1000) in
             ret (Some
               {| hash := tx_hash tx;
                  blockNumber := default 0 (tx_blockNumber tx);
                  blockHash := default "" (tx_blockHash tx);
                  from := tx_from tx;
                  to := default "" (tx_to tx);
                  value := value;
                  gasLimit := gasLimit;
                  gasPrice := gasPrice;
                  gasUsed := integerToString (r_gasUsed receipt);
                  transactionFee := transactionFee;
                  status :=
                    if bool_decide (r_status receipt = Some 1)
                    then "Success" else "Failed";
                  timestamp := timestamp;
                  logs := r_logs receipt |})
         | _ => ret None
         end
     end)
    (fun message =>
       do! consoleError txHash message in
       ret None).

End Provider.

(** Nothing asked, nothing printed. *)
Definition quiet : Trace := {| requests := []; errors := [] |}.

End Transactions.

(* ===================================================================== *)
(** ** [src/monitor/pancakeswap.ts]: [handlePancakeSwapTrade] *)
(* ===================================================================== *)

Module PancakeSwap.

(** An [ethers.Log] of a pair contract, with what
    [iface.parseLog(log)] makes of it ([null] when the log is not an event
    of the ABI). *)
Record SwapLog := {
  address : Value;
  logBlockNumber : Z;
  logTransactionHash : Value;
  parsed : option Result
}.

Section Trades.
Context {arithmetic : JsNumber} {env : Env}.

(** Answer of the pair contract to [getReserves()], by the number of
    earlier reads: the two reserves, or a failed call. *)
Variable getReserves : nat -> Value -> option (Z * Z).

(** [PancakeSwapTradeData]; [buyer_wallet] and [seller_wallet] are
    optional. *)
Record PancakeSwapTradeData := {
  chain_id : Z;
  direction : string;
  buyer_wallet : option Value;
  seller_wallet : option Value;
  token_mint : Value;
  token_amount : string;
  token_decimals : Z;
  sol_amount : string;
  market_cap : number;
  block_time : Z;
  slot : Z;
  signature : Value;
  kafka_timestamp : string
}.

Inductive SwapLine :=
| ReservesWarning (pairAddress : Value)
| LiquidityWarning (message : string)
| TradeLine (timestamp eventType : string) (data : PancakeSwapTradeData).

(** The process, with the reads of pair reserves made and the lines the
    PancakeSwap monitor has printed. *)
Record Swaps := {
  process : State (F := number);
  reserveReads : list Value;
  swapLines : list SwapLine
}.

Definition setProcess (p : State (F := number)) (s : Swaps) : Swaps :=
  {| process := p; reserveReads := reserveReads s; swapLines := swapLines s |}.

(** A computation of the process, run inside the monitor. *)
Definition lift {A} (m : M (State (F := number)) A) : M Swaps A :=
  fun s => let (o, p) := m (process s) in (o, setProcess p s).

Definition consoleLog (l : SwapLine) : M Swaps unit :=
  update (fun s =>
            {| process := process s; reserveReads := reserveReads s;
               swapLines := swapLines s ++ [l] |}).

(** [getPairReserves(provider, pairAddress)]: the read-only call
    [getReserves()]; a failure is caught, logged and turned into [null]. *)
Definition getPairReserves (pairAddress : Value) : M Swaps (option (Z * Z)) :=
  let! n := gets (fun s => length (reserveReads s)) in
  do! update (fun s =>
                {| process := process s;
                   reserveReads := reserveReads s ++ [pairAddress];
                   swapLines := swapLines s |}) in
  match getReserves n pairAddress with
  | Some reserves => ret (Some reserves)
  | None =>
      do! consoleLog (ReservesWarning pairAddress) in
      ret None
  end.

(** [x > 0n] *)
Definition positiveBigInt (x : Value) : bool :=
  match getBigInt x with
  | Some n => 0 <? n
  | None => false
  end.

(** The fields of the record that [JSON.stringify] has to render and that
    may hold any value. *)
Definition stringifiable (d : PancakeSwapTradeData) : bool :=
  forallb serializable
    (from_option (fun w => [w]) [] (buyer_wallet d)
       ++ from_option (fun w => [w]) [] (seller_wallet d)
       ++ [token_mint d; signature d]).

(** [createLogMessage(eventType, tradeData)] *)
Definition createLogMessage (eventType : string) (data : PancakeSwapTradeData)
    : M Swaps SwapLine :=
  let! timestamp := lift generateKafkaTimestamp in
  if stringifiable data then ret (TradeLine timestamp eventType data)
  else throw "Do not know how to serialize a BigInt".

(** The liquidity of the pair is computed for every swap and then not
    used: [parseFloat(formatBNB(reserves.reserve1)).toFixed(4) + ' BNB']
    is assigned to a local variable that nothing reads.  What remains of
    it is the read of the reserves and the exceptions it can raise. *)
Definition readLiquidity (pairAddress : Value) : M Swaps unit :=
  tryCatch
    (let! reserves := getPairReserves pairAddress in
     match reserves with
     | Some (reserve0, reserve1) =>
         let! text := lift (formatBNB (VBigInt reserve1)) in
         ret tt
     | None => ret tt
     end)
    (fun message => consoleLog (LiquidityWarning message)).

(** The direction of the swap and the amount of the token. *)
Definition classify (args : Result) : M Swaps (string * string) :=
  let amount0In := or (prop args "amount0In") (index args 1) in
  let amount1In := or (prop args "amount1In") (index args 2) in
  let amount0Out := or (prop args "amount0Out") (index args 3) in
  let amount1Out := or (prop args "amount1Out") (index args 4) in
  if positiveBigInt amount0In && positiveBigInt amount1Out then
    let! memeTokenAmount := lift (formatToken amount0In) in
    ret ("sell", memeTokenAmount)
  else if positiveBigInt amount1In && positiveBigInt amount0Out then
    let! memeTokenAmount := lift (formatToken amount0Out) in
    ret ("buy", memeTokenAmount)
  else ret ("unknown", "0").

Definition handlePancakeSwapTrade (log : SwapLog)
    : M Swaps PancakeSwapTradeData :=
  let! rpc := lift getRPCProvider in
  let! provider := lift (getProvider rpc) in
  let! parsedLog :=
    match parsed log with
    | Some parsedLog => ret parsedLog
    | None => throw "Failed to parse PancakeSwap swap log"
    end in
  let! blockTimestamp :=
    lift (getBlockTimestamp (logBlockNumber log) defaultMaxRetries) in
  let! blockTime := lift (blockTimeOf blockTimestamp) in
  do! readLiquidity (address log) in
  let args := parsedLog in
  let! classified := classify args in
  let direction := fst classified in
  let wallet := or (prop args "sender") (index args 0) in
  let! kafkaTimestamp := lift generateKafkaTimestamp in
  let tradeData :=
    {| chain_id := 0;
       direction := direction;
       buyer_wallet :=
         if String.eqb direction "buy" then Some wallet else None;
       seller_wallet :=
         if String.eqb direction "buy" then None
         else if String.eqb direction "sell" then Some wallet else None;
       token_mint := address log;
       token_amount := snd classified;
       token_decimals := 18;
       sol_amount := "N/A";
       market_cap := zero;
       block_time := blockTime;
       slot := logBlockNumber log;
       signature := logTransactionHash log;
       kafka_timestamp := kafkaTimestamp |} in
  let eventType :=
    if String.eqb direction "buy" then "TokenPurchase"
    else if String.eqb direction "sell" then "TokenSale"
    else "UnknownTrade" in
  let! line := createLogMessage ("PancakeSwap" ++ eventType) tradeData in
  do! consoleLog line in
  ret tradeData.

(** The amounts of a parsed Swap log as the handler reads them. *)
Definition amount0In (args : Result) : Value :=
  or (prop args "amount0In") (index args 1).

Definition amount1In (args : Result) : Value :=
  or (prop args "amount1In") (index args 2).

Definition amount0Out (args : Result) : Value :=
  or (prop args "amount0Out") (index args 3).

Definition amount1Out (args : Result) : Value :=
  or (prop args "amount1Out") (index args 4).

Definition sender (args : Result) : Value :=
  or (prop args "sender") (index args 0).

(** A swap that sells token 0, and one that buys it. *)
Definition sells (args : Result) : bool :=
  positiveBigInt (amount0In args) && positiveBigInt (amount1Out args).

Definition buys (args : Result) : bool :=
  positiveBigInt (amount1In args) && positiveBigInt (amount0Out args).

(** A state predicate kept by a computation of the monitor, whether it
    returns or throws. *)
Definition keeps (P : Swaps -> Prop) {A} (m : M Swaps A) : Prop :=
  forall s, P s -> P (snd (m s)).

(** The bus and the producer are as they were in [s0]. *)
Definition silent (s0 s : Swaps) : Prop :=
  traffic (process s) = traffic (process s0)
  /\ kafkaProducer (process s) = kafkaProducer (process s0)
  /\ connectAttempts (world (process s))
     = connectAttempts (world (process s0)).

End Trades.

End PancakeSwap.

(* ===================================================================== *)
(** ** The inputs of the concrete runs *)
(* ===================================================================== *)

Module Fixtures.

(** The runs compute with exact decimals. *)
#[local] Existing Instance DecimalNumber.

(** A node that has every block (timestamp 1700000000 s) and answers every
    contract read; a broker that accepts everything; a clock that advances one
    second per reading, up to the largest time value. *)
Definition steadyEnv : Env :=
  {| clock := fun n => Z.min (1700000123000 + 1000 * Z.of_nat n) maxTimeValue;
     getBlock := fun _ _ => BlockFound 1700000000;
     totalSupply := fun _ _ => Some (10 ^ 27);
     founder := fun _ _ => Some (VString "0xF00");
     pair := fun _ _ => Some (VString "0xBA5");
     producerConnect := fun _ => true;
     producerSend := fun _ => true;
     random := fun _ => "0.5" |}.

(** The same node, except that its first answer is an absent block. *)
Definition slowEnv : Env :=
  {| clock := clock steadyEnv;
     getBlock := fun n _ =>
       match n with O => BlockAbsent | _ => BlockFound 1700000000 end;
     totalSupply := totalSupply steadyEnv; founder := founder steadyEnv;
     pair := pair steadyEnv; producerConnect := producerConnect steadyEnv;
     producerSend := producerSend steadyEnv; random := random steadyEnv |}.

Definition liveProvider : RPCProvider :=
  {| provider := Some 0%nat; healthCheckInterval := Some 0%nat;
     reconnectAttempts := 0; isConnected := true;
     maxReconnectAttempts := 10; reconnectDelay := 5000;
     healthCheckIntervalMs := 30000; connectionTimeout := 10000 |}.

(** The process after start-up: connected, empty cache, producer connected. *)
Definition started : State (F := number) :=
  {| world := emptyWorld; rpcProvider := Some liveProvider;
     blockTimeManager := newBlockTimeManager; createdTokens := [];
     kafkaProducer := Some 0%nat; producerInstance := None |}.

(** The same with block 77 cached at 1700000000000 ms. *)
Definition warmed : State (F := number) :=
  withBlockTimestamps (fun _ => {[ 77 := 1700000000000 ]}) started.

(** A TokenCreate log given by position only. *)
Definition pepeCreated : Event :=
  {| args :=
       {| named := ∅;
          positional :=
            [VString "0xAAA"; VString "0xBBB"; VBigInt 1; VString "Pepe";
             VString "PEPE"; VBigInt 1000000000000000000000000] |};
     blockNumber := 77;
     transactionHash := VString "0x5167" |}.

(** A V2 trade log: token, account, price, amount, cost. *)
Definition pepeTraded : Event :=
  {| args :=
       {| named := ∅;
          positional :=
            [VString "0xBBB"; VString "0xACC"; VBigInt 5000;
             VBigInt (10 ^ 20); VBigInt (10 ^ 17)] |};
     blockNumber := 77;
     transactionHash := VString "0x5168" |}.

Definition blocks101 : list Z := map Z.of_nat (seq 1 101).



(** Connected, with a health check in flight. *)
Definition probing : Connection.Runtime :=
  Connection.run [Connection.Block 0; Connection.Tick 0]
    (Connection.boot defaultRPCProvider true).

(** The record of [pepeCreated] as a handler would publish it. *)
Definition pepeRecord : FourMemeEvent (F := number) :=
  TokenCreate
    {| tc_chain_id := 0; tc_token_mint := VString "0xBBB";
       token_name := VString "Pepe"; token_symbol := VString "PEPE";
       creator_wallet := VString "0xAAA"; metadata_uri := "N/A";
       initial_supply := "1000000.0"; tc_block_time := 1700000000;
       tc_slot := 77; tc_signature := VString "0x5167";
       tc_kafka_timestamp := "2023-11-14T22:15:23.000Z" |}.


(** The cache after blocks 1 to 101 have been fetched: full, holding 2 to
    101. *)
Definition filled : State (F := number) :=
  queryAll (env := steadyEnv) blocks101 3 started.

(** A node whose blocks are stamped one second after the last date that
    [Date] can print. *)
Definition farEnv : Env :=
  {| clock := clock steadyEnv;
     getBlock := fun _ _ => BlockFound 8640000000001;
     totalSupply := totalSupply steadyEnv; founder := founder steadyEnv;
     pair := pair steadyEnv; producerConnect := producerConnect steadyEnv;
     producerSend := producerSend steadyEnv; random := random steadyEnv |}.

(** A node whose token contracts do not answer [pair()]. *)
Definition pairlessEnv : Env :=
  {| clock := clock steadyEnv; getBlock := getBlock steadyEnv;
     totalSupply := totalSupply steadyEnv; founder := founder steadyEnv;
     pair := fun _ _ => None; producerConnect := producerConnect steadyEnv;
     producerSend := producerSend steadyEnv; random := random steadyEnv |}.

(** A LiquidityAdded log: base, offers, quote, funds. *)
Definition pepeMigrated : Event :=
  {| args :=
       {| named := ∅;
          positional :=
            [VString "0xBBB"; VBigInt (10 ^ 26); VString "0x0";
             VBigInt (18 * 10 ^ 18)] |};
     blockNumber := 77;
     transactionHash := VString "0x5169" |}.

(** After a confirmation timeout: the stale session destroyed, the manager
    asleep before its next attempt. *)
Definition napping : Connection.Runtime :=
  Connection.run [Connection.Timeout 0; Connection.Destroyed]
    (Connection.boot defaultRPCProvider true).

(** A broker that accepts every call and has the trade topic only. *)
Definition partialBroker : KafkaAdmin.Broker :=
  {| KafkaAdmin.connect := Returns tt;
     KafkaAdmin.listTopics := Returns ["token.raw.trade"];
     KafkaAdmin.createTopics := Returns tt;
     KafkaAdmin.disconnect := fun _ => Returns tt |}.

(** A node with one mined transfer of 1.5 BNB in block 77. *)
Definition minedNode : Transactions.Node :=
  {| Transactions.getTransactionReceipt := fun _ =>
       Transactions.Found
         {| Transactions.r_blockNumber := 77;
            Transactions.r_gasUsed := 21000;
            Transactions.r_status := Some 1;
            Transactions.r_logs := 2 |};
     Transactions.getTransaction := fun h =>
       Transactions.Found
         {| Transactions.tx_hash := h;
            Transactions.tx_blockNumber := Some 77;
            Transactions.tx_blockHash := Some "0xB10C";
            Transactions.tx_from := "0xACC";
            Transactions.tx_to := None;
            Transactions.tx_value := 15 * 10 ^ 17;
            Transactions.tx_gasLimit := Some 21000;
            Transactions.tx_gasPrice := Some (5 * 10 ^ 9) |};
     Transactions.getBlock := fun _ =>
       Transactions.Found {| Transactions.b_timestamp := 1700000000 |} |}.

(** A Swap log of the first monitored pair that sells token 0: sender,
    amount0In, amount1In, amount0Out, amount1Out. *)
Definition pepeSwapped : PancakeSwap.SwapLog :=
  {| PancakeSwap.address :=
       VString "0x473d8f4e7f63389cd7cb44837bad01b754de772a";
     PancakeSwap.logBlockNumber := 77;
     PancakeSwap.logTransactionHash := VString "0x516A";
     PancakeSwap.parsed :=
       Some {| named := ∅;
               positional :=
                 [VString "0x10ED"; VBigInt (10 ^ 18); VBigInt 0; VBigInt 0;
                  VBigInt (10 ^ 15)] |} |}.

(** A pair contract that always reports the same reserves. *)
Definition deepReserves : nat -> Value -> option (Z * Z) :=
  fun _ _ => Some (10 ^ 24, 10 ^ 21).

(** The PancakeSwap monitor of the warmed process, before its first swap. *)
Definition watching : PancakeSwap.Swaps :=
  {| PancakeSwap.process := warmed; PancakeSwap.reserveReads := [];
     PancakeSwap.swapLines := [] |}.

End Fixtures.

Section ProcessProperties.
Context {arithmetic : JsNumber} {env : Env}.

(** The records and the state, at the number type of the process. *)
Local Abbreviation TokenTradeEvent := (TokenTradeEvent (F := number)).
Local Abbreviation FourMemeEvent := (FourMemeEvent (F := number)).
Local Abbreviation ConsoleLine := (ConsoleLine (F := number)).
Local Abbreviation Payload := (Payload (F := number)).
Local Abbreviation Message := (Message (F := number)).
Local Abbreviation World := (World (F := number)).
Local Abbreviation State := (State (F := number)).

(* ===================================================================== *)
(** ** Properties of the helpers *)
(* ===================================================================== *)

Lemma toISOString_valid ms :
  validTimeValue ms = true -> exists iso, toISOString ms = Some iso.
Proof.
  intros Hv. unfold toISOString. rewrite Hv.
  destruct (civilFromDays (ms / 86400000)) as [[y m] d]. eauto.
Qed.

Lemma toISOString_invalid ms :
  validTimeValue ms = false -> toISOString ms = None.
Proof. intros Hv. unfold toISOString. now rewrite Hv. Qed.

(** The backoff delay never exceeds the cap and never decreases. *)
Lemma calculateBackoffDelay_le_max attempt base max :
  calculateBackoffDelay attempt base max <= max.
Proof. unfold calculateBackoffDelay. lia. Qed.

Lemma calculateBackoffDelay_mono attempt attempt' base max :
  1 <= attempt -> attempt <= attempt' -> 0 <= base ->
  calculateBackoffDelay attempt base max
  <= calculateBackoffDelay attempt' base max.
Proof.
  intros Ha Hle Hb. unfold calculateBackoffDelay.
  assert (2 ^ (attempt - 1) <= 2 ^ (attempt' - 1))
    by (apply Z.pow_le_mono_r; lia).
  apply Z.min_le_compat_r. nia.
Qed.

(** C6. For every positive integer [attempt] (and a non-negative base delay)
    [calculateBackoffDelay attempt base max] is [min (base * 2^(attempt-1)) max];
    with the default arguments the base is 1000; it is a total function; it
    never exceeds the cap; it is non-decreasing in [attempt]; and once it has
    reached the cap it stays there for every later attempt. *)
Theorem C6_backoff_delay (attempt base max : Z) :
  1 <= attempt -> 0 <= base ->
  calculateBackoffDelay attempt base max
    = Z.min (base * 2 ^ Z.of_nat (Z.to_nat attempt - 1)) max
  /\ calculateBackoffDelay1 attempt
    = Z.min (1000 * 2 ^ Z.of_nat (Z.to_nat attempt - 1)) 30000
  /\ calculateBackoffDelay attempt base max <= max
  /\ (forall attempt', attempt <= attempt' ->
        calculateBackoffDelay attempt base max
        <= calculateBackoffDelay attempt' base max)
  /\ (calculateBackoffDelay attempt base max = max ->
      forall attempt', attempt <= attempt' ->
        calculateBackoffDelay attempt' base max = max)
  /\ (base * 2 ^ (attempt - 1) < max ->
      forall attempt', 1 <= attempt' -> attempt' <= attempt ->
        calculateBackoffDelay attempt' base max = base * 2 ^ (attempt' - 1)).
Proof.
  intros Ha Hb.
  assert (Hexp : Z.of_nat (Z.to_nat attempt - 1) = attempt - 1) by lia.
  repeat split.
  - unfold calculateBackoffDelay. now rewrite Hexp.
  - unfold calculateBackoffDelay1, calculateBackoffDelay, defaultBaseDelay,
      defaultMaxDelay. now rewrite Hexp.
  - apply calculateBackoffDelay_le_max.
  - intros a' Hle. now apply calculateBackoffDelay_mono.
  - intros Hcap a' Hle.
    pose proof (calculateBackoffDelay_mono attempt a' base max Ha Hle Hb).
    pose proof (calculateBackoffDelay_le_max a' base max). lia.
  - intros Hlt a' Ha' Hle. unfold calculateBackoffDelay.
    assert (2 ^ (a' - 1) <= 2 ^ (attempt - 1))
      by (apply Z.pow_le_mono_r; lia).
    apply Z.min_l. nia.
Qed.

Lemma C6_backoff_delay_witness :
  calculateBackoffDelay 3 1000 30000 = 4000
  /\ calculateBackoffDelay 3 1000 30000 <= calculateBackoffDelay 7 1000 30000
  /\ calculateBackoffDelay 7 1000 30000 = 30000.
Proof.
  destruct (C6_backoff_delay 3 1000 30000 ltac:(lia) ltac:(lia))
    as (Heq & _ & _ & Hmono & _ & _).
  split; [rewrite Heq; reflexivity|].
  split; [apply Hmono; lia | reflexivity].
Defined.

(* ===================================================================== *)
(** ** Properties of the block-timestamp cache *)
(* ===================================================================== *)

(** *** The oldest block is the least key *)

Lemma foldr_min_elem (k : Z) (ks : list Z) : foldr Z.min k ks ∈ k :: ks.
Proof.
  induction ks as [|x ks IH]; simpl.
  - apply elem_of_cons; auto.
  - destruct (Z.min_spec x (foldr Z.min k ks)) as [[_ ->]|[_ ->]].
    + apply elem_of_cons; right. apply elem_of_cons; auto.
    + apply elem_of_cons in IH as [->|IH].
      * apply elem_of_cons; auto.
      * apply elem_of_cons; right. apply elem_of_cons; auto.
Qed.

Lemma foldr_min_le (k : Z) (ks : list Z) (x : Z) :
  x ∈ k :: ks -> foldr Z.min k ks <= x.
Proof.
  induction ks as [|y ks IH]; simpl; intros Hx.
  - apply elem_of_cons in Hx as [->|Hx]; [lia|]. inversion Hx.
  - apply elem_of_cons in Hx as [->|Hx].
    + assert (foldr Z.min k ks <= k) by (apply IH, elem_of_cons; auto). lia.
    + apply elem_of_cons in Hx as [->|Hx]; [lia|].
      assert (foldr Z.min k ks <= x) by (apply IH, elem_of_cons; auto). lia.
Qed.

Lemma elem_of_keys (m : gmap Z Z) (k : Z) :
  k ∈ (map_to_list m).*1 <-> is_Some (m !! k).
Proof.
  rewrite list_elem_of_fmap. split.
  - intros [[k' v] [-> Hin]]. apply elem_of_map_to_list in Hin. eauto.
  - intros [v Hv]. exists (k, v). split; [done|].
    by apply elem_of_map_to_list.
Qed.

Lemma oldestBlock_Some (m : gmap Z Z) (k : Z) :
  oldestBlock m = Some k ->
  is_Some (m !! k) /\ forall j, is_Some (m !! j) -> k <= j.
Proof.
  unfold oldestBlock. destruct ((map_to_list m).*1) as [|k0 ks] eqn:E; [done|].
  intros [= <-]. split.
  - apply elem_of_keys. rewrite E. apply foldr_min_elem.
  - intros j Hj. apply foldr_min_le. rewrite <- E. by apply elem_of_keys.
Qed.

Lemma oldestBlock_None (m : gmap Z Z) : oldestBlock m = None -> m = ∅.
Proof.
  unfold oldestBlock. destruct ((map_to_list m).*1) as [|k0 ks] eqn:E; [|done].
  intros _. apply map_to_list_empty_iff.
  destruct (map_to_list m); [done | discriminate].
Qed.

Lemma oldestBlock_is_Some (m : gmap Z Z) :
  (0 < size m)%nat -> is_Some (oldestBlock m).
Proof.
  intros Hsz. destruct (oldestBlock m) eqn:E; [eauto|].
  apply oldestBlock_None in E. subst. rewrite map_size_empty in Hsz. lia.
Qed.

(** *** One insertion *)

Lemma cachePut_under (cap : nat) (b t : Z) (m : gmap Z Z) :
  (size (<[b:=t]> m) <= cap)%nat -> cachePut cap b t m = <[b:=t]> m.
Proof.
  intros Hle. unfold cachePut.
  destruct (Nat.ltb_spec cap (size (<[b:=t]> m))); [lia | done].
Qed.

Lemma cachePut_over (cap : nat) (b t : Z) (m : gmap Z Z) :
  (cap < size (<[b:=t]> m))%nat ->
  exists oldest,
    oldestBlock (<[b:=t]> m) = Some oldest
    /\ is_Some (<[b:=t]> m !! oldest)
    /\ (forall j, is_Some (<[b:=t]> m !! j) -> oldest <= j)
    /\ cachePut cap b t m = delete oldest (<[b:=t]> m)
    /\ size (cachePut cap b t m) = pred (size (<[b:=t]> m)).
Proof.
  intros Hlt. unfold cachePut.
  destruct (Nat.ltb_spec cap (size (<[b:=t]> m))); [|lia].
  destruct (oldestBlock_is_Some (<[b:=t]> m)) as [k Hk]; [lia|].
  rewrite Hk. destruct (oldestBlock_Some _ _ Hk) as [Hin Hmin].
  exists k. repeat split; auto. by apply map_size_delete_Some.
Qed.

Lemma cachePut_bounded (cap : nat) (b t : Z) (m : gmap Z Z) :
  (size m <= cap)%nat -> (size (cachePut cap b t m) <= cap)%nat.
Proof.
  intros Hm.
  assert (size (<[b:=t]> m) <= S (size m))%nat
    by (rewrite map_size_insert; destruct (m !! b); simpl; lia).
  destruct (Nat.le_gt_cases (size (<[b:=t]> m)) cap) as [Hle|Hgt].
  - by rewrite cachePut_under.
  - destruct (cachePut_over cap b t m Hgt) as (k & _ & _ & _ & _ & ->). lia.
Qed.

(** *** One turn of the retry loop *)

Lemma sameElsewhere_refl s : sameElsewhere s s.
Proof. by repeat split. Qed.

Lemma sameElsewhere_trans s1 s2 s3 :
  sameElsewhere s1 s2 -> sameElsewhere s2 s3 -> sameElsewhere s1 s3.
Proof. unfold sameElsewhere. intros ? ?. intuition congruence. Qed.

Ltac run_monad :=
  repeat progress
    (cbv beta iota zeta delta
       [tryCatch bind providerGetBlock isoString consoleLog sleep
        gets update ret throw];
     simpl).

Lemma fetchAttempt_failed (b : Z) (r a : nat) (s : State) :
  failedResponse (getBlock env (length (requests s)) b) = true ->
  exists s',
    fetchAttempt b r a s
      = (Returns (if (a <? r)%nat then Continue else Return None), s')
    /\ requests s' = requests s ++ [GetBlock b]
    /\ waits s' = waits s ++ backoffAfter r a
    /\ cache s' = cache s
    /\ sameElsewhere s s'.
Proof.
  unfold requests, waits, cache, backoffAfter, fetchAttempt. intros Hf.
  run_monad.
  destruct (getBlock env (length (rpcLog (world s))) b) as [ts| |msg];
    [discriminate| |]; simpl; destruct (a <? r)%nat; simpl;
    eexists; (split; [reflexivity|]); simpl;
    rewrite ?app_nil_r; repeat split.
Qed.

Lemma fetchAttempt_found (b : Z) (r a : nat) (s : State) (ts : Z) :
  getBlock env (length (requests s)) b = BlockFound ts ->
  validTimeValue (ts * 1000) = true ->
  exists s',
    fetchAttempt b r a s = (Returns (Return (Some (ts * 1000))), s')
    /\ requests s' = requests s ++ [GetBlock b]
    /\ waits s' = waits s
    /\ cache s' = cachePut (capacity s) b (ts * 1000) (cache s)
    /\ sameElsewhere s s'.
Proof.
  unfold requests, waits, cache, capacity, fetchAttempt. intros Hf Hv.
  destruct (toISOString_valid _ Hv) as [iso Hiso].
  run_monad. rewrite Hf. simpl. rewrite Hiso. simpl.
  eexists. split; [reflexivity|]. simpl. repeat split.
Qed.

(** Whatever the node answers, a turn issues one request and either leaves
    the cache alone or puts the requested block into it. *)
Lemma fetchAttempt_any (b : Z) (r a : nat) (s : State) :
  let s' := snd (fetchAttempt b r a s) in
  (exists o, fst (fetchAttempt b r a s) = Returns o)
  /\ requests s' = requests s ++ [GetBlock b]
  /\ (cache s' = cache s
      \/ exists t, cache s' = cachePut (capacity s) b t (cache s))
  /\ sameElsewhere s s'.
Proof.
  unfold requests, cache, capacity, fetchAttempt. run_monad.
  destruct (getBlock env (length (rpcLog (world s))) b) as [ts| |msg]; simpl.
  - destruct (toISOString (ts * 1000)) as [iso|]; simpl.
    + repeat split; eauto.
    + destruct (a <? r)%nat; simpl; repeat split; eauto.
  - destruct (a <? r)%nat; simpl; repeat split; eauto.
  - destruct (a <? r)%nat; simpl; repeat split; eauto.
Qed.

(** *** The retry loop *)

Lemma fetchLoop_step (turns : nat) (b : Z) (r a : nat) (s : State) :
  fetchLoop (S turns) b r a s =
    match fetchAttempt b r a s with
    | (Returns Continue, s') => fetchLoop turns b r (S a) s'
    | (Returns (Return v), s') => (Returns v, s')
    | (Throws msg, s') => (Throws msg, s')
    end.
Proof.
  simpl. unfold bind. destruct (fetchAttempt b r a s) as [[[|v]|msg] s'];
    reflexivity.
Qed.

(** Every turn that is left fails: [null] after [turns] requests, a wait
    after each but the last, the cache as it was. *)
Lemma fetchLoop_all_failed (b : Z) (r : nat) :
  forall (turns a : nat) (s : State),
    (a + turns = S r)%nat ->
    (forall i, (i < turns)%nat ->
       failedResponse (getBlock env (length (requests s) + i) b) = true) ->
    exists s',
      fetchLoop turns b r a s = (Returns None, s')
      /\ requests s' = requests s ++ replicate turns (GetBlock b)
      /\ waits s' = waits s ++ backoffs a (pred turns)
      /\ cache s' = cache s
      /\ sameElsewhere s s'.
Proof.
  induction turns as [|turns IH]; intros a s Hturns Hfail.
  - exists s. simpl. rewrite !app_nil_r.
    conjs; try done; apply sameElsewhere_refl.
  - destruct (fetchAttempt_failed b r a s) as (s1 & E1 & Hr1 & Hw1 & Hc1 & Hs1).
    { specialize (Hfail 0%nat). rewrite Nat.add_0_r in Hfail.
      apply Hfail. lia. }
    rewrite fetchLoop_step, E1. unfold backoffAfter in Hw1.
    destruct (Nat.ltb_spec a r) as [Hlt|Hge].
    + destruct (IH (S a) s1) as (s2 & E2 & Hr2 & Hw2 & Hc2 & Hs2); [lia| |].
      { intros i Hi. rewrite Hr1, length_app. simpl.
        replace (length (requests s) + 1 + i)%nat
          with (length (requests s) + S i)%nat by lia.
        apply Hfail. lia. }
      exists s2. split; [exact E2|].
      rewrite Hr2, Hr1, Hw2, Hw1, Hc2, Hc1, <- !app_assoc.
      destruct turns as [|turns]; [lia|]. simpl.
      conjs; try done; eapply sameElsewhere_trans; eauto.
    + assert (turns = 0)%nat as -> by lia.
      exists s1. split; [reflexivity|].
      rewrite Hr1, Hw1, Hc1. simpl. conjs; auto.
Qed.

(** [j] turns fail and the next one finds the block: its timestamp in
    milliseconds is returned after [j + 1] requests and [j] waits, and the
    block has been put into the cache. *)
Lemma fetchLoop_found_after (b : Z) (r : nat) (ts : Z) :
  forall (j turns a : nat) (s : State),
    (a + turns = S r)%nat -> (j < turns)%nat ->
    (forall i, (i < j)%nat ->
       failedResponse (getBlock env (length (requests s) + i) b) = true) ->
    getBlock env (length (requests s) + j) b = BlockFound ts ->
    validTimeValue (ts * 1000) = true ->
    exists s',
      fetchLoop turns b r a s = (Returns (Some (ts * 1000)), s')
      /\ requests s' = requests s ++ replicate (S j) (GetBlock b)
      /\ waits s' = waits s ++ backoffs a j
      /\ cache s' = cachePut (capacity s) b (ts * 1000) (cache s)
      /\ sameElsewhere s s'.
Proof.
  induction j as [|j IH]; intros turns a s Hturns Hj Hfail Hfound Hvalid;
    (destruct turns as [|turns]; [lia|]); rewrite fetchLoop_step.
  - rewrite Nat.add_0_r in Hfound.
    destruct (fetchAttempt_found b r a s ts Hfound Hvalid)
      as (s1 & E1 & Hr1 & Hw1 & Hc1 & Hs1).
    rewrite E1. exists s1. split; [reflexivity|].
    rewrite Hr1, Hw1, Hc1. simpl. rewrite app_nil_r. conjs; auto.
  - destruct (fetchAttempt_failed b r a s) as (s1 & E1 & Hr1 & Hw1 & Hc1 & Hs1).
    { specialize (Hfail 0%nat). rewrite Nat.add_0_r in Hfail.
      apply Hfail. lia. }
    rewrite E1. unfold backoffAfter in Hw1.
    destruct (Nat.ltb_spec a r) as [Hlt|Hge]; [|lia].
    destruct (IH turns (S a) s1) as (s2 & E2 & Hr2 & Hw2 & Hc2 & Hs2);
      [lia | lia | | | exact Hvalid |].
    { intros i Hi. rewrite Hr1, length_app. simpl.
      replace (length (requests s) + 1 + i)%nat
        with (length (requests s) + S i)%nat by lia.
      apply Hfail. lia. }
    { rewrite Hr1, length_app. simpl.
      replace (length (requests s) + 1 + j)%nat
        with (length (requests s) + S j)%nat by lia.
      exact Hfound. }
    exists s2. split; [exact E2|].
    assert (Hcap : capacity s1 = capacity s) by apply Hs1.
    rewrite Hr2, Hr1, Hw2, Hw1, Hc2, Hc1, Hcap, <- !app_assoc.
    simpl. conjs; try done; eapply sameElsewhere_trans; eauto.
Qed.

(** Whatever the node answers, the loop returns (it never throws), issues no
    more requests than it has turns, and keeps the capacity bound. *)
Lemma fetchLoop_any (b : Z) (r : nat) :
  forall (turns a : nat) (s : State),
    let s' := snd (fetchLoop turns b r a s) in
    (exists o, fst (fetchLoop turns b r a s) = Returns o)
    /\ (exists n, (n <= turns)%nat
          /\ requests s' = requests s ++ replicate n (GetBlock b))
    /\ (cacheBounded s -> cacheBounded s')
    /\ sameElsewhere s s'.
Proof.
  induction turns as [|turns IH]; intros a s; simpl.
  - unfold ret; simpl. conjs; eauto using sameElsewhere_refl.
    exists 0%nat. simpl. rewrite app_nil_r. split; [lia|done].
  - fold (fetchLoop turns). change (bind _ _ s) with (fetchLoop (S turns) b r a s).
    rewrite fetchLoop_step.
    destruct (fetchAttempt_any b r a s) as ([o Ho] & Hr & Hc & Hs).
    destruct (fetchAttempt b r a s) as [o1 s1]; simpl in *. subst o1.
    assert (Hb1 : cacheBounded s -> cacheBounded s1).
    { unfold cacheBounded. intros Hb.
      assert (Hcap : capacity s1 = capacity s) by apply Hs.
      destruct Hc as [->|[t ->]]; rewrite Hcap; [done|].
      by apply cachePut_bounded. }
    destruct o as [|v]; simpl.
    + destruct (IH (S a) s1) as (Ho2 & (n & Hn & Hr2) & Hb2 & Hs2).
      conjs; auto.
      * exists (S n). split; [lia|]. rewrite Hr2, Hr, <- app_assoc. done.
      * eapply sameElsewhere_trans; eauto.
    + conjs; eauto.
      exists 1%nat. split; [lia|done].
Qed.

(** *** [getBlockTimestamp] *)

Lemma getBlockTimestamp_hit (b : Z) (r : nat) (s : State) (ts : Z) :
  cache s !! b = Some ts -> getBlockTimestamp b r s = (Returns (Some ts), s).
Proof.
  unfold cache, getBlockTimestamp, bind, gets. simpl. now intros ->.
Qed.

Lemma getBlockTimestamp_miss (b : Z) (r : nat) (s : State) :
  cache s !! b = None -> getBlockTimestamp b r s = fetchLoop r b r 1 s.
Proof.
  unfold cache, getBlockTimestamp, bind, gets. simpl. now intros ->.
Qed.

Lemma getBlockTimestamp_any (b : Z) (r : nat) (s : State) :
  let s' := snd (getBlockTimestamp b r s) in
  (exists o, fst (getBlockTimestamp b r s) = Returns o)
  /\ (exists n, (n <= r)%nat
        /\ requests s' = requests s ++ replicate n (GetBlock b))
  /\ (cacheBounded s -> cacheBounded s')
  /\ sameElsewhere s s'.
Proof.
  destruct (cache s !! b) as [ts|] eqn:E.
  - rewrite (getBlockTimestamp_hit _ _ _ _ E). simpl.
    conjs; eauto using sameElsewhere_refl.
    exists 0%nat. simpl. rewrite app_nil_r. split; [lia|done].
  - rewrite (getBlockTimestamp_miss _ _ _ E). apply fetchLoop_any.
Qed.

Lemma runOps_bounded (ops : list CacheOp) :
  forall s, cacheBounded s -> cacheBounded (runOps ops s).
Proof.
  induction ops as [|op ops IH]; intros s Hs; [exact Hs|].
  apply IH. destruct op as [b r|]; simpl.
  - by apply getBlockTimestamp_any.
  - unfold cacheBounded, cache, capacity. simpl. rewrite map_size_empty. lia.
Qed.

(** *** Increasing block numbers: the cache holds the last [capacity] *)

Lemma increasing_cons (b : Z) (bs : list Z) :
  increasing (b :: bs) = true ->
  increasing bs = true /\ forall x, x ∈ bs -> b < x.
Proof.
  revert b. induction bs as [|b' bs IH]; intros b Hinc.
  - split; [done|]. intros x Hx. inversion Hx.
  - simpl in Hinc. apply andb_prop in Hinc as [Hlt Hrest].
    apply Z.ltb_lt in Hlt. split; [exact Hrest|].
    destruct (IH b' Hrest) as [_ Hall].
    intros x Hx. apply elem_of_cons in Hx as [->|Hx]; [done|].
    specialize (Hall x Hx). lia.
Qed.

Lemma increasing_snoc (bs : list Z) (b : Z) :
  increasing (bs ++ [b]) = true ->
  increasing bs = true /\ forall x, x ∈ bs -> x < b.
Proof.
  induction bs as [|a bs IH]; intros Hinc.
  - split; [done|]. intros x Hx. inversion Hx.
  - change ((a :: bs) ++ [b]) with (a :: (bs ++ [b])) in Hinc.
    destruct (increasing_cons _ _ Hinc) as [Hrest Hall].
    destruct (IH Hrest) as [Hbs Hlt]. split.
    + destruct bs as [|a' bs]; [done|].
      simpl in Hinc |- *. apply andb_prop in Hinc as [-> _]. exact Hbs.
    + intros x Hx. apply elem_of_cons in Hx as [->|Hx]; [|auto].
      apply Hall. apply elem_of_app. right. apply elem_of_cons; auto.
Qed.

Lemma increasing_drop (n : nat) (bs : list Z) :
  increasing bs = true -> increasing (drop n bs) = true.
Proof.
  revert bs. induction n as [|n IH]; intros bs Hinc; [by rewrite drop_0|].
  destruct bs as [|b bs]; [done|]. simpl.
  apply IH. by apply increasing_cons in Hinc as [? _].
Qed.

Lemma increasing_NoDup (bs : list Z) : increasing bs = true -> NoDup bs.
Proof.
  induction bs as [|b bs IH]; intros Hinc; [constructor|].
  destruct (increasing_cons _ _ Hinc) as [Hrest Hall].
  constructor; [|auto]. intros Hin. specialize (Hall b Hin). lia.
Qed.

Lemma cachePut_next (C : nat) (bs : list Z) (b t : Z) (m : gmap Z Z) :
  increasing (bs ++ [b]) = true ->
  dom m = list_to_set (drop (length bs - C) bs) ->
  dom (cachePut C b t m)
    = list_to_set (drop (length (bs ++ [b]) - C) (bs ++ [b])).
Proof.
  intros Hinc Hdom.
  destruct (increasing_snoc _ _ Hinc) as [Hbs Hlt].
  assert (Hlen : length (drop (length bs - C) bs)
                 = (length bs - (length bs - C))%nat) by apply length_drop.
  assert (Hl : increasing (drop (length bs - C) bs) = true)
    by (by apply increasing_drop).
  assert (Hsub : forall x, x ∈ drop (length bs - C) bs -> x ∈ bs).
  { intros x Hx. rewrite <- (take_drop (length bs - C) bs).
    apply elem_of_app. by right. }
  remember (drop (length bs - C) bs) as l eqn:El.
  assert (Hb : m !! b = None).
  { apply not_elem_of_dom. rewrite Hdom, elem_of_list_to_set.
    intros Hin. specialize (Hlt b (Hsub b Hin)). lia. }
  assert (Hsize : size m = length l).
  { rewrite <- size_dom, Hdom.
    apply size_list_to_set, increasing_NoDup, Hl. }
  assert (Hins : size (<[b:=t]> m) = S (length l))
    by (rewrite map_size_insert_None; auto).
  rewrite length_app. simpl.
  destruct (Nat.lt_ge_cases (length bs) C) as [Hsmall|Hbig].
  - (* room left: nothing is evicted *)
    rewrite cachePut_under by lia.
    replace (length bs + 1 - C)%nat with 0%nat by lia.
    replace (length bs - C)%nat with 0%nat in El by lia.
    rewrite drop_0 in El. rewrite drop_0. subst l.
    rewrite dom_insert_L, Hdom, list_to_set_app_L, list_to_set_singleton_L.
    set_solver.
  - (* full: the oldest block goes *)
    destruct (cachePut_over C b t m) as (k & _ & Hk & Hmin & -> & _); [lia|].
    rewrite dom_delete_L, dom_insert_L, Hdom.
    destruct C as [|C].
    + (* a cache of capacity zero *)
      rewrite Nat.sub_0_r, drop_all in El. subst l.
      rewrite drop_ge by (rewrite length_app; simpl; lia).
      apply elem_of_dom in Hk. rewrite dom_insert_L, Hdom in Hk.
      set_solver.
    + destruct l as [|x l']; [simpl in Hlen; lia|].
      destruct (increasing_cons _ _ Hl) as [Hl' Hx].
      assert (Hxb : x < b) by (apply Hlt, Hsub, elem_of_cons; auto).
      assert (k = x) as ->.
      { assert (k <= x).
        { apply Hmin. apply elem_of_dom.
          rewrite dom_insert_L, Hdom, list_to_set_cons. set_solver. }
        apply elem_of_dom in Hk.
        rewrite dom_insert_L, Hdom, list_to_set_cons in Hk.
        apply elem_of_union in Hk as [Hk|Hk]; [set_solver by lia|].
        apply elem_of_union in Hk as [Hk|Hk]; [set_solver|].
        apply elem_of_list_to_set in Hk. specialize (Hx k Hk). lia. }
      replace (length bs + 1 - S C)%nat with (S (length bs - S C)) by lia.
      rewrite drop_app_le by lia.
      replace (S (length bs - S C)) with ((length bs - S C) + 1)%nat by lia.
      rewrite <- drop_drop, <- El. rewrite skipn_cons, drop_0.
      rewrite list_to_set_cons, list_to_set_app_L, list_to_set_singleton_L.
      assert (x ∉ l') by (intros Hin; specialize (Hx x Hin); lia).
      assert (x ∉ (list_to_set l' : gset Z))
        by (by rewrite elem_of_list_to_set).
      assert (x <> b) by lia.
      set_solver.
Qed.

Lemma queryAll_snoc (bs : list Z) (b : Z) (r : nat) (s : State) :
  queryAll (bs ++ [b]) r s = snd (getBlockTimestamp b r (queryAll bs r s)).
Proof. unfold queryAll. by rewrite foldl_app. Qed.

Lemma queryAll_increasing (r : nat) :
  (1 <= r)%nat -> alwaysFound ->
  forall (bs : list Z) (s : State),
    increasing bs = true -> cache s = ∅ ->
    dom (cache (queryAll bs r s))
      = list_to_set (drop (length bs - capacity s) bs)
    /\ capacity (queryAll bs r s) = capacity s.
Proof.
  intros Hr Hfound bs. induction bs as [|b bs IH] using rev_ind;
    intros s Hinc Hempty.
  - simpl. rewrite Hempty, dom_empty_L. done.
  - destruct (increasing_snoc _ _ Hinc) as [Hbs Hlt].
    destruct (IH s Hbs Hempty) as [Hdom Hcap].
    rewrite queryAll_snoc. set (s1 := queryAll bs r s) in *.
    assert (Hb : cache s1 !! b = None).
    { apply not_elem_of_dom. rewrite Hdom, elem_of_list_to_set.
      intros Hin.
      assert (b ∈ bs).
      { rewrite <- (take_drop (length bs - capacity s) bs).
        apply elem_of_app. by right. }
      specialize (Hlt b ltac:(done)). lia. }
    rewrite (getBlockTimestamp_miss _ _ _ Hb).
    destruct (Hfound (length (requests s1) + 0)%nat b) as (ts & Hts & Hv).
    destruct (fetchLoop_found_after b r ts 0 r 1 s1)
      as (s2 & E & _ & _ & Hc & Hs); [lia | lia | intros; lia | done | done |].
    rewrite E. simpl. rewrite Hc, Hcap. split.
    + by apply cachePut_next.
    + assert (capacity s2 = capacity s1) by apply Hs. congruence.
Qed.

(** C1. The block-timestamp cache never holds more entries than its
    capacity: a fresh manager (capacity 100) satisfies the bound and every
    sequence of queries and clears keeps it.  An insertion that pushes the
    size over the capacity evicts exactly one entry, the one with the least
    key.  Hence, after successful queries for block numbers
    [b1 < b2 < ... < bK] with [K] above the capacity [C], starting from an
    empty cache, exactly the [K - C] smallest block numbers are absent and the
    [C] largest are present. *)
Theorem C1_cache_capacity_smallest_key_eviction :
  (maxCacheSize newBlockTimeManager = 100%nat
   /\ (size (blockTimestamps newBlockTimeManager)
       <= maxCacheSize newBlockTimeManager)%nat)
  /\ (forall (ops : list CacheOp) (s : State),
        cacheBounded s -> cacheBounded (runOps ops s))
  /\ (forall (cap : nat) (b t : Z) (m : gmap Z Z),
        (size m <= cap)%nat -> (cap < size (<[b:=t]> m))%nat ->
        exists oldest,
          is_Some (<[b:=t]> m !! oldest)
          /\ (forall j, is_Some (<[b:=t]> m !! j) -> oldest <= j)
          /\ cachePut cap b t m = delete oldest (<[b:=t]> m)
          /\ size (cachePut cap b t m) = cap)
  /\ (forall (bs : list Z) (maxRetries : nat) (s : State),
        increasing bs = true -> (1 <= maxRetries)%nat -> alwaysFound ->
        cache s = ∅ -> (capacity s < length bs)%nat ->
        let s' := queryAll bs maxRetries s in
        size (cache s') = capacity s
        /\ (forall b, b ∈ take (length bs - capacity s) bs ->
              cache s' !! b = None)
        /\ (forall b, b ∈ drop (length bs - capacity s) bs ->
              is_Some (cache s' !! b))
        /\ (forall b, is_Some (cache s' !! b) -> b ∈ bs)).
Proof.
  split; [split; [reflexivity | simpl; rewrite map_size_empty; lia]|].
  split; [intros ops s; apply runOps_bounded|].
  split.
  - intros cap b t m Hm Hover.
    destruct (cachePut_over cap b t m Hover) as (k & _ & Hk & Hmin & E & Hsz).
    exists k. conjs; auto. rewrite Hsz.
    assert (size (<[b:=t]> m) <= S (size m))%nat
      by (rewrite map_size_insert; destruct (m !! b); simpl; lia).
    lia.
  - intros bs r s Hinc Hr Hfound Hempty HK s'.
    destruct (queryAll_increasing r Hr Hfound bs s Hinc Hempty) as [Hdom _].
    fold s' in Hdom.
    assert (Hnd : NoDup bs) by (by apply increasing_NoDup).
    assert (Hin : forall b, is_Some (cache s' !! b)
                           <-> b ∈ drop (length bs - capacity s) bs).
    { intros b. by rewrite <- elem_of_dom, Hdom, elem_of_list_to_set. }
    conjs.
    + rewrite <- size_dom, Hdom, size_list_to_set.
      * rewrite length_drop. lia.
      * apply increasing_NoDup. by apply increasing_drop.
    + intros b Hb. destruct (cache s' !! b) eqn:E; [|done].
      assert (Hd : b ∈ drop (length bs - capacity s) bs) by (apply Hin; eauto).
      rewrite <- (take_drop (length bs - capacity s) bs) in Hnd.
      apply NoDup_app in Hnd as (_ & Hdisj & _).
      destruct (Hdisj b Hb Hd).
    + intros b Hb. by apply Hin.
    + intros b Hb. apply Hin in Hb.
      rewrite <- (take_drop (length bs - capacity s) bs).
      apply elem_of_app. by right.
Qed.

(** For a block that is not in the cache, [getBlockTimestamp] makes at
    most [maxRetries] requests to the node, all for that block, and always
    returns.  If the first [j] attempts fail (an absent block or an
    exception) and the next one finds the block (with a timestamp that is a
    valid time value), it has waited
    [calculateBackoffDelay 1], ..., [calculateBackoffDelay j] between them,
    puts the entry into the cache (evicting the oldest block when over
    capacity) and returns the timestamp in milliseconds.  If all [maxRetries]
    attempts fail it returns [null], having waited after each attempt but the
    last, and the cache is unchanged. *)
Lemma getBlockTimestamp_retries_with_backoff (b : Z) (maxRetries : nat)
    (s : State) :
  cache s !! b = None ->
  let attempt i := getBlock env (length (requests s) + i) b in
  let out := getBlockTimestamp b maxRetries s in
  (exists o n, fst out = Returns o /\ (n <= maxRetries)%nat
      /\ requests (snd out) = requests s ++ replicate n (GetBlock b))
  /\ (forall j ts,
        (j < maxRetries)%nat ->
        (forall i, (i < j)%nat -> failedResponse (attempt i) = true) ->
        attempt j = BlockFound ts -> validTimeValue (ts * 1000) = true ->
        fst out = Returns (Some (ts * 1000))
        /\ requests (snd out) = requests s ++ replicate (S j) (GetBlock b)
        /\ waits (snd out)
           = waits s ++ map (fun i => calculateBackoffDelay1 (Z.of_nat i))
                            (seq 1 j)
        /\ cache (snd out) = cachePut (capacity s) b (ts * 1000) (cache s))
  /\ ((forall i, (i < maxRetries)%nat -> failedResponse (attempt i) = true) ->
        fst out = Returns None
        /\ requests (snd out) = requests s ++ replicate maxRetries (GetBlock b)
        /\ waits (snd out)
           = waits s ++ map (fun i => calculateBackoffDelay1 (Z.of_nat i))
                            (seq 1 (pred maxRetries))
        /\ cache (snd out) = cache s).
Proof.
  intros Hmiss attempt out. subst attempt out. conjs.
  - destruct (getBlockTimestamp_any b maxRetries s)
      as ([o Ho] & (n & Hn & Hreq) & _ & _).
    exists o, n. auto.
  - intros j ts Hj Hfail Hfound Hvalid.
    rewrite (getBlockTimestamp_miss _ _ _ Hmiss).
    destruct (fetchLoop_found_after b maxRetries ts j maxRetries 1 s
                ltac:(lia) Hj Hfail Hfound Hvalid)
      as (s' & E & Hr & Hw & Hc & _).
    rewrite E. simpl. auto.
  - intros Hfail.
    rewrite (getBlockTimestamp_miss _ _ _ Hmiss).
    destruct (fetchLoop_all_failed b maxRetries maxRetries 1 s
                ltac:(lia) Hfail)
      as (s' & E & Hr & Hw & Hc & _).
    rewrite E. simpl. auto.
Qed.

(* ===================================================================== *)
(** ** Reasoning about the monad *)
(* ===================================================================== *)

Lemma preserves_ret P {A} (a : A) : preserves P (ret a).
Proof. intros s Hs. exact Hs. Qed.

Lemma preserves_throw P {A} (msg : string) : preserves P (@throw State A msg).
Proof. intros s Hs. exact Hs. Qed.

Lemma preserves_gets P {A} (f : State -> A) : preserves P (gets f).
Proof. intros s Hs. exact Hs. Qed.

Lemma preserves_update P (f : State -> State) :
  (forall s, P s -> P (f s)) -> preserves P (update f).
Proof. intros Hf s Hs. apply Hf, Hs. Qed.

Lemma preserves_bind P {A B} (m : M State A) (k : A -> M State B) :
  preserves P m -> (forall a, preserves P (k a)) -> preserves P (bind m k).
Proof.
  intros Hm Hk s Hs. unfold bind. specialize (Hm s Hs).
  destruct (m s) as [[a|msg] s1]; simpl in *; [by apply Hk | done].
Qed.

Lemma preserves_tryCatch P {A} (m : M State A) (h : string -> M State A) :
  preserves P m -> (forall msg, preserves P (h msg)) ->
  preserves P (tryCatch m h).
Proof.
  intros Hm Hh s Hs. unfold tryCatch. specialize (Hm s Hs).
  destruct (m s) as [[a|msg] s1]; simpl in *; [done | by apply Hh].
Qed.

(** A computation that returns went through each of its steps. *)
Lemma bind_returns {A B} (m : M State A) (k : A -> M State B) s b s' :
  bind m k s = (Returns b, s') ->
  exists a s1, m s = (Returns a, s1) /\ k a s1 = (Returns b, s').
Proof.
  unfold bind. destruct (m s) as [[a|msg] s1]; [eauto | discriminate].
Qed.

Lemma ret_returns {A} (a b : A) (s s' : State) :
  ret a s = (Returns b, s') -> b = a /\ s' = s.
Proof. unfold ret. intros [= -> ->]. done. Qed.

Ltac step_in H :=
  let a := fresh "a" in
  let s1 := fresh "s" in
  let E := fresh "E" in
  apply bind_returns in H as (a & s1 & E & H).

Tactic Notation "step_from" hyp(H) "as" ident(a) ident(s1) ident(E) :=
  apply bind_returns in H as (a & s1 & E & H).

(* ===================================================================== *)
(** ** A producer that failed to connect *)
(* ===================================================================== *)

Ltac muted_update :=
  match goal with
  | Hs : muted _ _ |- muted _ _ =>
      destruct Hs as (? & ? & ? & ?); unfold muted; simpl; auto
  end.

Ltac keep_step :=
  lazymatch goal with
  | |- preserves _ (ret _) => apply preserves_ret
  | |- preserves _ (throw _) => apply preserves_throw
  | |- preserves _ (gets _) => apply preserves_gets
  | |- preserves _ (update _) =>
      apply preserves_update; intros ? ?; muted_update
  | |- preserves _ (bind _ _) => apply preserves_bind; [|intros ?]
  | |- preserves _ (tryCatch _ _) => apply preserves_tryCatch; [|intros ?]
  | |- preserves _ (match ?x with _ => _ end) => destruct x
  | |- preserves _ _ => solve [auto with preserve nocore]
  end.

Ltac keep := repeat keep_step.

Create HintDb preserve.

Lemma muted_dateNow s0 : preserves (muted s0) dateNow.
Proof. unfold dateNow. keep. Qed.

Lemma muted_consoleLog s0 l : preserves (muted s0) (consoleLog l).
Proof. unfold consoleLog. keep. Qed.

Lemma muted_isoString s0 ms : preserves (muted s0) (isoString ms).
Proof. unfold isoString. keep. Qed.

#[local] Hint Resolve muted_dateNow muted_consoleLog muted_isoString : preserve.

Lemma muted_generateKafkaTimestamp s0 :
  preserves (muted s0) generateKafkaTimestamp.
Proof. unfold generateKafkaTimestamp. keep. Qed.

#[local] Hint Resolve muted_generateKafkaTimestamp : preserve.

Lemma muted_createLogMessage s0 t e :
  preserves (muted s0) (createLogMessage t e).
Proof. unfold createLogMessage. keep. Qed.

Lemma muted_getRPCProvider s0 : preserves (muted s0) getRPCProvider.
Proof. intros s Hs. unfold getRPCProvider. by destruct (rpcProvider s). Qed.

Lemma muted_getProvider s0 p : preserves (muted s0) (getProvider p).
Proof. unfold getProvider. keep. Qed.

Lemma muted_getBlockTimestamp s0 b r :
  preserves (muted s0) (getBlockTimestamp b r).
Proof.
  intros s (Hp & Hb & Hn & Hc).
  destruct (getBlockTimestamp_any b r s) as (_ & _ & _ & Hs).
  destruct Hs as (_ & _ & Hp' & _ & _ & _ & Hc' & Hn' & _ & Hb').
  unfold muted. rewrite Hp', Hb', Hn', Hc'. done.
Qed.

Lemma muted_blockTimeOf s0 t : preserves (muted s0) (blockTimeOf t).
Proof. unfold blockTimeOf. keep. Qed.

#[local] Hint Resolve muted_createLogMessage muted_getRPCProvider
  muted_getProvider muted_getBlockTimestamp muted_blockTimeOf : preserve.

Lemma muted_resolveBlockTime s0 ev : preserves (muted s0) (resolveBlockTime ev).
Proof. unfold resolveBlockTime. keep. Qed.

Lemma muted_formatToken s0 v : preserves (muted s0) (formatToken v).
Proof. unfold formatToken. keep. Qed.

Lemma muted_getTokenTotalSupply s0 a :
  preserves (muted s0) (getTokenTotalSupply a).
Proof. unfold getTokenTotalSupply. keep. Qed.

Lemma muted_readFounderAndPair s0 a :
  preserves (muted s0) (readFounderAndPair a).
Proof. unfold readFounderAndPair. keep. Qed.

(** Without a producer [sendToKafka] prints one line and returns. *)
Lemma sendToKafka_without_producer topic event s :
  kafkaProducer s = None ->
  sendToKafka topic event s
    = (Returns tt, withWorld (printed ProducerUnavailable) s).
Proof.
  intros Hp. unfold sendToKafka, bind, gets, consoleLog, update. simpl.
  by rewrite Hp.
Qed.

Lemma muted_sendToKafka s0 topic event :
  preserves (muted s0) (sendToKafka topic event).
Proof.
  intros s Hs. rewrite sendToKafka_without_producer by apply Hs.
  simpl. muted_update.
Qed.

#[local] Hint Resolve muted_resolveBlockTime muted_formatToken
  muted_getTokenTotalSupply muted_readFounderAndPair muted_sendToKafka
  : preserve.


(** *** What a handler returns does not depend on the producer *)

Lemma blind_ret {A} (a : A) : blind (ret a).
Proof. intros s1 s2 Hs. done. Qed.

Lemma blind_throw {A} (msg : string) : blind (@throw State A msg).
Proof. intros s1 s2 Hs. done. Qed.

Lemma blind_gets {A} (f : State -> A) :
  (forall s1 s2, apart s1 s2 -> f s1 = f s2) -> blind (gets f).
Proof. intros Hf s1 s2 Hs. unfold gets. simpl. split; [f_equal|]; auto. Qed.

Lemma blind_update (f : State -> State) :
  (forall s1 s2, apart s1 s2 -> apart (f s1) (f s2)) -> blind (update f).
Proof. intros Hf s1 s2 Hs. unfold update. simpl. auto. Qed.

Lemma blind_bind {A B} (m : M State A) (k : A -> M State B) :
  blind m -> (forall a, blind (k a)) -> blind (bind m k).
Proof.
  intros Hm Hk s1 s2 Hs. unfold bind. destruct (Hm s1 s2 Hs) as [Ho Hs'].
  destruct (m s1) as [[a1|msg1] t1], (m s2) as [[a2|msg2] t2];
    simpl in *; try discriminate.
  - injection Ho as ->. by apply Hk.
  - injection Ho as ->. done.
Qed.

Lemma blind_tryCatch {A} (m : M State A) (h : string -> M State A) :
  blind m -> (forall msg, blind (h msg)) -> blind (tryCatch m h).
Proof.
  intros Hm Hh s1 s2 Hs. unfold tryCatch. destruct (Hm s1 s2 Hs) as [Ho Hs'].
  destruct (m s1) as [[a1|msg1] t1], (m s2) as [[a2|msg2] t2];
    simpl in *; try discriminate.
  - injection Ho as ->. done.
  - injection Ho as ->. by apply Hh.
Qed.

Lemma blind_blindOutcome {A} (m : M State A) : blind m -> blindOutcome m.
Proof. intros Hm s1 s2 Hs. by apply Hm. Qed.



Ltac apart_update :=
  let Hw := fresh in
  let Hr := fresh in
  let Hb := fresh in
  let Hc := fresh in
  let Hp := fresh in
  intros ? ? (Hw & Hr & Hb & Hc & Hp); unfold apart; simpl;
  rewrite ?Hw, ?Hr, ?Hb, ?Hc, ?Hp; auto.

Create HintDb blind.

Ltac blind_step :=
  lazymatch goal with
  | |- blind (ret _) => apply blind_ret
  | |- blind (throw _) => apply blind_throw
  | |- blind (gets _) => apply blind_gets; apart_update
  | |- blind (update _) => apply blind_update; apart_update
  | |- blind (bind _ _) => apply blind_bind; [|intros ?]
  | |- blind (tryCatch _ _) => apply blind_tryCatch; [|intros ?]
  | |- blind (match ?x with _ => _ end) => destruct x
  | |- blind _ => solve [auto with blind nocore]
  end.

Ltac blindly := repeat blind_step.

Lemma blind_dateNow : blind dateNow.
Proof. unfold dateNow. blindly. Qed.

Lemma blind_consoleLog l : blind (consoleLog l).
Proof. unfold consoleLog. blindly. Qed.

Lemma blind_sleep ms : blind (sleep ms).
Proof. unfold sleep. blindly. Qed.

Lemma blind_isoString ms : blind (isoString ms).
Proof. unfold isoString. blindly. Qed.

Lemma blind_providerGetBlock b : blind (providerGetBlock b).
Proof. unfold providerGetBlock. blindly. Qed.

#[local] Hint Resolve blind_dateNow blind_consoleLog blind_sleep
  blind_isoString blind_providerGetBlock : blind.

Lemma blind_fetchAttempt b r a : blind (fetchAttempt b r a).
Proof. unfold fetchAttempt. blindly. Qed.

#[local] Hint Resolve blind_fetchAttempt : blind.

Lemma blind_fetchLoop b r : forall turns a, blind (fetchLoop turns b r a).
Proof. induction turns as [|turns IH]; intros a; simpl; blindly. Qed.

#[local] Hint Resolve blind_fetchLoop : blind.

Lemma blind_getBlockTimestamp b r : blind (getBlockTimestamp b r).
Proof. unfold getBlockTimestamp. blindly. Qed.

Lemma blind_generateKafkaTimestamp : blind generateKafkaTimestamp.
Proof. unfold generateKafkaTimestamp. blindly. Qed.

#[local] Hint Resolve blind_getBlockTimestamp blind_generateKafkaTimestamp
  : blind.

Lemma blind_createLogMessage t e : blind (createLogMessage t e).
Proof. unfold createLogMessage. blindly. Qed.

Lemma blind_getRPCProvider : blind getRPCProvider.
Proof.
  intros s1 s2 Hs. unfold getRPCProvider.
  assert (Hr : rpcProvider s1 = rpcProvider s2) by apply Hs.
  rewrite <- Hr. destruct (rpcProvider s1) eqn:E; simpl; split; done.
Qed.

Lemma blind_getProvider p : blind (getProvider p).
Proof. unfold getProvider. blindly. Qed.

Lemma blind_blockTimeOf t : blind (blockTimeOf t).
Proof. unfold blockTimeOf. blindly. Qed.

#[local] Hint Resolve blind_createLogMessage blind_getRPCProvider
  blind_getProvider blind_blockTimeOf : blind.

Lemma blind_resolveBlockTime ev : blind (resolveBlockTime ev).
Proof. unfold resolveBlockTime. blindly. Qed.

Lemma blind_formatToken v : blind (formatToken v).
Proof. unfold formatToken. blindly. Qed.

Lemma blind_getTokenTotalSupply a : blind (getTokenTotalSupply a).
Proof. unfold getTokenTotalSupply. blindly. Qed.

Lemma blind_readFounderAndPair a : blind (readFounderAndPair a).
Proof. unfold readFounderAndPair. blindly. Qed.

#[local] Hint Resolve blind_resolveBlockTime blind_formatToken
  blind_getTokenTotalSupply blind_readFounderAndPair : blind.

Lemma blind_purchaseMarketCap v a : blind (purchaseMarketCap v a).
Proof. unfold purchaseMarketCap. blindly. Qed.

Lemma blind_saleMarketCap v a : blind (saleMarketCap v a).
Proof. unfold saleMarketCap. blindly. Qed.

#[local] Hint Resolve blind_purchaseMarketCap blind_saleMarketCap : blind.

(** *** [sendToKafka] *)

(** [sendToKafka] always returns; it prints one line and publishes at most
    one message, which carries the event under the key [keyOf]. *)
Lemma sendToKafka_spec (topic : string) (event : FourMemeEvent) (s : State) :
  exists s' line,
    sendToKafka topic event s = (Returns tt, s')
    /\ console (world s') = console (world s) ++ [line]
    /\ rpcLog (world s') = rpcLog (world s)
    /\ kafkaProducer s' = kafkaProducer s
    /\ createdTokens s' = createdTokens s
    /\ bus (world s')
       = bus (world s)
         ++ (if delivers event s
             then [{| topic := topic; key := keyOf event s;
                      value := OfEvent event |}]
             else []).
Proof.
  unfold sendToKafka, delivers, keyOf, messageKey, producerSendMessage,
    randomString.
  cbv beta iota zeta delta [tryCatch bind consoleLog gets update ret throw].
  destruct (kafkaProducer s) as [p|] eqn:Ep; simpl.
  2: { do 2 eexists. split; [reflexivity|]. simpl. rewrite Ep, app_nil_r.
       conjs; done. }
  destruct (truthy (event_token_mint event)); simpl;
    [|destruct (truthy (event_signature event)); simpl];
    (destruct (stringifiable event); simpl;
     [destruct (producerSend env (sendAttempts (world s))) eqn:Es; simpl|]);
    do 2 eexists; (split; [reflexivity|]); simpl; rewrite ?Ep, ?app_nil_r;
    conjs; done.
Qed.




(* ===================================================================== *)
(** ** Running the handlers *)
(* ===================================================================== *)

Lemma bind_eq {A B} (m : M State A) (k : A -> M State B) s a s1 :
  m s = (Returns a, s1) -> bind m k s = k a s1.
Proof. unfold bind. by intros ->. Qed.

Lemma resolveBlockTime_cached (ev : Event) (s : State) (t : Z) :
  connected s -> cache s !! blockNumber ev = Some t -> t <> 0 ->
  resolveBlockTime ev s = (Returns (t / 1000), s).
Proof.
  intros (p & h & Hp & Hh & Hc) Hhit Ht.
  unfold resolveBlockTime, getRPCProvider, getProvider, bind.
  rewrite Hp, Hh, Hc. unfold ret at 1.
  rewrite (getBlockTimestamp_hit _ _ _ _ Hhit). unfold blockTimeOf.
  destruct (Z.eqb_spec t 0); [done | reflexivity].
Qed.


Lemma formatToken_returns (v : Value) (s s' : State) (x : string) :
  formatToken v s = (Returns x, s') ->
  s' = s /\ exists n, getBigInt v = Some n /\ inRange n = true
                      /\ x = formatUnits n 18.
Proof.
  unfold formatToken. destruct (getBigInt v) as [n|]; [|by inversion 1].
  destruct (inRange n) eqn:E; inversion 1; subst.
  split; [done|]. by exists n.
Qed.

Lemma formatToken_bigint (n : Z) (s : State) :
  inRange n = true ->
  formatToken (VBigInt n) s = (Returns (formatUnits n 18), s).
Proof. unfold formatToken. simpl. by intros ->. Qed.

Lemma formatToken_state (v : Value) (s : State) :
  snd (formatToken v s) = s.
Proof.
  unfold formatToken. destruct (getBigInt v) as [n|]; [|done].
  by destruct (inRange n).
Qed.

Lemma generateKafkaTimestamp_returns (s s' : State) (ts : string) :
  generateKafkaTimestamp s = (Returns ts, s') ->
  s' = withWorld tick s
  /\ toISOString (clock env (clockReads (world s))) = Some ts.
Proof.
  unfold generateKafkaTimestamp, dateNow, isoString.
  cbv beta iota zeta delta [bind gets update ret throw]. simpl.
  destruct (toISOString _); inversion 1; by subst.
Qed.

Lemma generateKafkaTimestamp_valid (s : State) :
  validTimeValue (clock env (clockReads (world s))) = true ->
  exists ts, generateKafkaTimestamp s = (Returns ts, withWorld tick s).
Proof.
  intros Hv. destruct (toISOString_valid _ Hv) as [ts Hts]. exists ts.
  unfold generateKafkaTimestamp, dateNow, isoString.
  cbv beta iota zeta delta [bind gets update ret throw]. simpl.
  by rewrite Hts.
Qed.

Lemma createLogMessage_returns (t : string) (e : FourMemeEvent) s s' line :
  createLogMessage t e s = (Returns line, s') ->
  s' = withWorld tick s /\ stringifiable e = true
  /\ exists ts, line = EventLine ts t e.
Proof.
  unfold createLogMessage. intros Hrun. step_in Hrun.
  apply generateKafkaTimestamp_returns in E as [-> _].
  destruct (stringifiable e); inversion Hrun; subst. eauto.
Qed.

Lemma createLogMessage_valid (t : string) (e : FourMemeEvent) (s : State) :
  validTimeValue (clock env (clockReads (world s))) = true ->
  stringifiable e = true ->
  exists ts, createLogMessage t e s
             = (Returns (EventLine ts t e), withWorld tick s).
Proof.
  intros Hv He. destruct (generateKafkaTimestamp_valid s Hv) as [ts Hts].
  exists ts. unfold createLogMessage.
  rewrite (bind_eq _ _ _ _ _ Hts), He. reflexivity.
Qed.

(** *** Market capitalisation of a trade *)

Lemma saleMarketCap_no_price (args : Result) (s : State) (raw : Z) :
  getBigInt (priceArg args) = Some raw -> inRange raw = true ->
  positive (parseFloat (formatUnits raw 18)) = false ->
  saleMarketCap "V2" args s = (Returns zero, s).
Proof.
  intros Hraw Hin Hpos. unfold saleMarketCap, formatToken. fold (priceArg args).
  simpl. unfold bind. rewrite Hraw, Hin. unfold ret at 1. by rewrite Hpos.
Qed.

Lemma purchaseMarketCap_no_price (args : Result) (s : State) (raw : Z) :
  getBigInt (priceArg args) = Some raw -> inRange raw = true ->
  positive (parseFloat (formatUnits raw 18)) = false ->
  purchaseMarketCap "V2" args s = (Returns zero, s).
Proof.
  intros Hraw Hin Hpos. unfold purchaseMarketCap, formatToken.
  fold (priceArg args).
  simpl. unfold bind. rewrite Hraw, Hin. unfold ret at 1. by rewrite Hpos.
Qed.

(** A purchase never talks to the node and never prints. *)
Lemma purchaseMarketCap_state (v : string) (args : Result) (s : State) :
  snd (purchaseMarketCap v args s) = s.
Proof.
  unfold purchaseMarketCap. destruct (isV2 v); [|done].
  unfold bind. pose proof (formatToken_state (priceArg args) s) as Hs.
  fold (priceArg args).
  destruct (formatToken (priceArg args) s) as [[x|msg] s1]; simpl in *; subst;
    [|done].
  destruct (positive (parseFloat x)); [|done].
  reflexivity.
Qed.

(** A sale with a positive price reads [totalSupply()] once. *)
Lemma saleMarketCap_price (args : Result) (s : State) (raw : Z) :
  getBigInt (priceArg args) = Some raw -> inRange raw = true ->
  positive (parseFloat (formatUnits raw 18)) = true ->
  let price := parseFloat (formatUnits raw 18) in
  let answer := totalSupply env (length (requests s)) (tokenArg args) in
  exists cap s',
    saleMarketCap "V2" args s = (Returns cap, s')
    /\ requests s' = requests s ++ [CallTotalSupply (tokenArg args)]
    /\ match answer with
       | Some supply =>
           if supply =? 0 then
             cap = zero /\ console (world s') = console (world s)
           else if inRange supply then
             cap = calculateMarketCap price (parseFloat (formatUnits supply 18))
             /\ console (world s') = console (world s)
           else
             cap = zero
             /\ console (world s')
                = console (world s) ++ [MarketCapWarning "overflow"]
       | None =>
           cap = zero
           /\ console (world s')
              = console (world s) ++ [TotalSupplyWarning (tokenArg args)]
       end.
Proof.
  intros Hraw Hin Hpos price answer. subst price answer.
  unfold saleMarketCap, formatToken at 1. fold (priceArg args) (tokenArg args).
  simpl. unfold bind at 1. rewrite Hraw, Hin. unfold ret at 1. rewrite Hpos.
  unfold getTokenTotalSupply, requests.
  cbv beta iota zeta delta [tryCatch bind consoleLog gets update ret throw].
  simpl.
  destruct (totalSupply env (length (rpcLog (world s))) (tokenArg args))
    as [supply|]; simpl.
  - destruct (supply =? 0); simpl.
    + do 2 eexists. split; [reflexivity|]. simpl. done.
    + unfold formatToken. simpl.
      destruct (inRange supply); simpl;
        do 2 eexists; (split; [reflexivity|]); simpl; done.
  - do 2 eexists. split; [reflexivity|]. simpl. done.
Qed.

(** What a trade handler returns carries the market capitalisation its
    market-cap step computed, and makes no request after that step. *)
Lemma tradeRecord_returns dir ty v ev bt cap s r s' :
  tradeRecord dir ty v ev bt cap s = (Returns r, s') ->
  market_cap r = cap /\ direction r = dir /\ tt_block_time r = bt
  /\ requests s' = requests s
  /\ exists more, console (world s') = console (world s) ++ more.
Proof.
  unfold tradeRecord. intros Hrun.
  step_in Hrun. step_in Hrun. step_in Hrun. step_in Hrun. step_in Hrun.
  step_in Hrun. apply ret_returns in Hrun as [-> ->].
  assert (s0 = s) as ->.
  { destruct (isV2 v); by apply formatToken_returns in E as [-> _]. }
  assert (s1 = s) as ->.
  { unfold formatBNB in E0.
    destruct (isV2 v); by apply formatToken_returns in E0 as [-> _]. }
  apply generateKafkaTimestamp_returns in E1 as [-> _].
  apply createLogMessage_returns in E2 as (-> & _ & _).
  unfold consoleLog, update in E3. inversion E3; subst. clear E3.
  match type of E4 with
  | sendToKafka ?t ?e ?s0 = _ =>
      destruct (sendToKafka_spec t e s0) as (s2 & l & Es & Hcon & Hreq & _)
  end.
  rewrite Es in E4. inversion E4; subst. clear E4.
  simpl. conjs; try done.
  rewrite Hcon. simpl. rewrite <- app_assoc. eauto.
Qed.

Lemma resolveBlockTime_requests (ev : Event) (s : State) :
  exists n,
    requests (snd (resolveBlockTime ev s))
    = requests s ++ replicate n (GetBlock (blockNumber ev)).
Proof.
  unfold resolveBlockTime, getRPCProvider, getProvider.
  unfold bind at 1. destruct (rpcProvider s) as [p|].
  2: { simpl. exists 0%nat. by rewrite app_nil_r. }
  unfold bind at 1.
  destruct (provider p) as [h|]; [destruct (isConnected p)|]; simpl;
    try (exists 0%nat; by rewrite app_nil_r).
  unfold bind.
  destruct (getBlockTimestamp_any (blockNumber ev) defaultMaxRetries s)
    as ([o Ho] & (n & _ & Hreq) & _ & _).
  destruct (getBlockTimestamp (blockNumber ev) defaultMaxRetries s)
    as [o1 s1]; simpl in *. subst o1.
  assert (Hb : requests (snd (blockTimeOf o s1)) = requests s1).
  { destruct o as [t|]; simpl; [destruct (t =? 0)|]; done. }
  rewrite Hb. eauto.
Qed.

Lemma filter_auxiliary_blocks (l : list RpcRequest) (n : nat) (b : Z) :
  filter auxiliary (l ++ replicate n (GetBlock b)) = filter auxiliary l.
Proof.
  rewrite filter_app. induction n as [|n IH]; simpl.
  - by rewrite app_nil_r.
  - rewrite filter_cons. simpl. exact IH.
Qed.

Lemma marketCap_returns_price (args : Result) (s s' : State) (cap : number) :
  saleMarketCap "V2" args s = (Returns cap, s')
  \/ purchaseMarketCap "V2" args s = (Returns cap, s') ->
  exists raw, getBigInt (priceArg args) = Some raw /\ inRange raw = true.
Proof.
  unfold saleMarketCap, purchaseMarketCap. fold (priceArg args).
  change (isV2 "V2") with true. cbv iota.
  intros [Hrun|Hrun]; step_in Hrun;
    apply formatToken_returns in E as (_ & raw & ? & ? & _); eauto.
Qed.

(** C5 (as the code has it).  A V2 sale whose price is positive reads the
    token's total supply with one auxiliary call and sets
    [market_cap = price * supply]; when the call fails the failure is logged and
    [market_cap] stays 0 (as it does for a zero or unprintable supply), and the
    handler goes on either way.  A purchase never makes the auxiliary call: it
    uses a built-in supply.  For both, a price that is not positive gives
    [market_cap = 0] and no auxiliary call. *)
Theorem C5_market_cap_of_v2_trades :
  (forall ev s r s',
     handleTokenSale "V2" ev s = (Returns r, s') ->
     exists raw s1,
       getBigInt (priceArg (args ev)) = Some raw /\ inRange raw = true
       /\ filter auxiliary (requests s1) = filter auxiliary (requests s)
       /\ let price := parseFloat (formatUnits raw 18) in
          let token := tokenArg (args ev) in
          if positive price then
            requests s' = requests s1 ++ [CallTotalSupply token]
            /\ match totalSupply env (length (requests s1)) token with
               | Some supply =>
                   market_cap r
                   = if (supply =? 0) || negb (inRange supply) then zero
                     else calculateMarketCap price
                            (parseFloat (formatUnits supply 18))
               | None =>
                   market_cap r = zero
                   /\ TotalSupplyWarning token ∈ console (world s')
               end
          else market_cap r = zero /\ requests s' = requests s1)
  /\ (forall v ev s r s',
        handleTokenPurchase v ev s = (Returns r, s') ->
        filter auxiliary (requests s') = filter auxiliary (requests s)
        /\ (v = "V2" ->
            exists raw,
              getBigInt (priceArg (args ev)) = Some raw /\ inRange raw = true
              /\ (positive (parseFloat (formatUnits raw 18)) = false ->
                  market_cap r = zero)))
  /\ (forall args s raw,
        getBigInt (priceArg args) = Some raw -> inRange raw = true ->
        exists cap s', saleMarketCap "V2" args s = (Returns cap, s')).
Proof.
  conjs.
  - intros ev s r s' Hrun. unfold handleTokenSale in Hrun.
    step_from Hrun as bt s1 E. step_from Hrun as cap s2 E0.
    destruct (marketCap_returns_price _ _ _ _ (or_introl E0))
      as (raw & Hraw & Hin).
    apply tradeRecord_returns in Hrun as (Hcap & _ & _ & Hreq & more & Hcon).
    exists raw, s1. conjs; auto.
    { destruct (resolveBlockTime_requests ev s) as [n Hn].
      rewrite E in Hn. simpl in Hn. rewrite Hn.
      apply filter_auxiliary_blocks. }
    simpl. destruct (positive (parseFloat (formatUnits raw 18))) eqn:Hpos.
    + destruct (saleMarketCap_price (args ev) s1 raw Hraw Hin Hpos)
        as (cap' & s2' & E' & Hreq' & Hans).
      rewrite E' in E0. injection E0 as -> ->.
      rewrite Hreq, Hreq', Hcap. split; [done|].
      destruct (totalSupply env (length (requests s1)) (tokenArg (args ev)))
        as [supply|].
      * destruct (supply =? 0); simpl; [apply Hans|].
        destruct (inRange supply); simpl; apply Hans.
      * destruct Hans as [-> Hwarn]. split; [done|].
        rewrite Hcon, Hwarn. apply elem_of_app. left.
        apply elem_of_app. right. apply elem_of_cons; auto.
    + rewrite (saleMarketCap_no_price _ s1 _ Hraw Hin Hpos) in E0.
      injection E0 as <- <-. rewrite Hreq, Hcap. done.
  - intros v ev s r s' Hrun. unfold handleTokenPurchase in Hrun.
    step_from Hrun as bt s1 E. step_from Hrun as cap s2 E0.
    pose proof (purchaseMarketCap_state v (args ev) s1) as Hst.
    rewrite E0 in Hst. simpl in Hst. subst s2.
    apply tradeRecord_returns in Hrun as (Hcap & _ & _ & Hreq & _).
    split.
    + destruct (resolveBlockTime_requests ev s) as [n Hn].
      rewrite E in Hn. simpl in Hn. rewrite Hreq, Hn.
      apply filter_auxiliary_blocks.
    + intros ->.
      destruct (marketCap_returns_price _ _ _ _ (or_intror E0))
        as (raw & Hraw & Hin).
      exists raw. conjs; auto. intros Hpos.
      rewrite (purchaseMarketCap_no_price _ s1 _ Hraw Hin Hpos) in E0.
      injection E0 as <-. by rewrite Hcap.
  - intros args s raw Hraw Hin.
    destruct (positive (parseFloat (formatUnits raw 18))) eqn:Hpos.
    + destruct (saleMarketCap_price args s raw Hraw Hin Hpos)
        as (cap & s' & E & _). eauto.
    + rewrite (saleMarketCap_no_price _ s _ Hraw Hin Hpos). eauto.
Qed.

(** *** The records the handlers return *)

(** The end of every handler: log the record, publish it, return it. *)
Lemma logged_and_sent {A} (ty topic : string) (e : FourMemeEvent) (x r : A) s s' :
  bind (createLogMessage ty e)
    (fun line => bind (consoleLog line)
       (fun _ => bind (sendToKafka topic e) (fun _ => ret x))) s
  = (Returns r, s') ->
  r = x
  /\ stringifiable e = true
  /\ (exists ts, EventLine ts ty e ∈ console (world s'))
  /\ requests s' = requests s
  /\ createdTokens s' = createdTokens s.
Proof.
  intros Hrun. step_from Hrun as line s1 E1. step_from Hrun as u s2 E2.
  step_from Hrun as u' s3 E3. apply ret_returns in Hrun as [-> ->].
  apply createLogMessage_returns in E1 as (-> & Hjson & ts & ->).
  unfold consoleLog, update in E2. inversion E2; subst. clear E2.
  match type of E3 with
  | sendToKafka ?t ?e ?s0 = _ =>
      destruct (sendToKafka_spec t e s0)
        as (s4 & l & Es & Hcon & Hreq & _ & Hct & _)
  end.
  rewrite Es in E3. inversion E3; subst. clear E3.
  conjs; auto.
  exists ts. rewrite Hcon. simpl. apply elem_of_app. left.
  apply elem_of_app. right. apply elem_of_cons; auto.
Qed.

Lemma handleTokenCreate_returns v ev s r s' :
  handleTokenCreate v ev s = (Returns r, s') ->
  exists bt s1 n kts now,
    resolveBlockTime ev s = (Returns bt, s1)
    /\ getBigInt (supplyArg (args ev)) = Some n /\ inRange n = true
    /\ r = {| tc_chain_id := 0;
              tc_token_mint := or (prop (args ev) "token") (index (args ev) 1);
              token_name := or (prop (args ev) "name") (index (args ev) 3);
              token_symbol := or (prop (args ev) "symbol") (index (args ev) 4);
              creator_wallet := or (prop (args ev) "creator") (index (args ev) 0);
              metadata_uri := "N/A";
              initial_supply := formatUnits n 18;
              tc_block_time := bt;
              tc_slot := blockNumber ev;
              tc_signature := transactionHash ev;
              tc_kafka_timestamp := kts |}
    /\ createdTokens s'
       = createdTokens s1
         ++ [{| ct_token_mint := or (prop (args ev) "token") (index (args ev) 1);
                created_at := now |}]
    /\ exists ts, EventLine ts "TokenCreate" (TokenCreate r) ∈ console (world s').
Proof.
  unfold handleTokenCreate. fold (supplyArg (args ev)). intros Hrun.
  step_from Hrun as bt s1 E1. step_from Hrun as supply s2 E2.
  step_from Hrun as kts s3 E3. step_from Hrun as now s4 E4.
  step_from Hrun as u s5 E5.
  apply formatToken_returns in E2 as (-> & n & Hn & Hin & ->).
  apply generateKafkaTimestamp_returns in E3 as [-> _].
  unfold dateNow, bind, gets, update, ret in E4. simpl in E4.
  inversion E4; subst. clear E4.
  unfold update in E5. inversion E5; subst. clear E5.
  apply logged_and_sent in Hrun as (-> & _ & Hlog & _ & Hct).
  exists bt, s1, n, kts. eexists. conjs; eauto.
  rewrite Hct. reflexivity.
Qed.

Lemma tradeRecord_record dir ty v ev bt cap s r s' :
  tradeRecord dir ty v ev bt cap s = (Returns r, s') ->
  exists n m kts,
    getBigInt (if isV2 v then or (prop (args ev) "amount") (index (args ev) 3)
               else or (prop (args ev) "tokenAmount") (index (args ev) 2))
      = Some n
    /\ getBigInt (if isV2 v then or (prop (args ev) "cost") (index (args ev) 4)
                  else or (prop (args ev) "etherAmount") (index (args ev) 3))
       = Some m
    /\ r = {| tt_chain_id := 0; direction := dir;
              buyer_wallet := or (prop (args ev) "account") (index (args ev) 1);
              tt_token_mint := or (prop (args ev) "token") (index (args ev) 0);
              token_amount := formatUnits n 18; token_decimals := 18;
              sol_amount := formatUnits m 18; market_cap := cap;
              tt_block_time := bt; tt_slot := blockNumber ev;
              tt_signature := transactionHash ev;
              tt_kafka_timestamp := kts |}
    /\ exists ts, EventLine ts ty (TokenTrade r) ∈ console (world s').
Proof.
  unfold tradeRecord, formatBNB. intros Hrun.
  step_from Hrun as amount s1 E1. step_from Hrun as cost s2 E2.
  step_from Hrun as kts s3 E3.
  apply logged_and_sent in Hrun as (-> & _ & Hlog & _).
  exists (match getBigInt (if isV2 v
                           then or (prop (args ev) "amount") (index (args ev) 3)
                           else or (prop (args ev) "tokenAmount") (index (args ev) 2))
          with Some n => n | None => 0 end),
         (match getBigInt (if isV2 v
                           then or (prop (args ev) "cost") (index (args ev) 4)
                           else or (prop (args ev) "etherAmount") (index (args ev) 3))
          with Some n => n | None => 0 end), kts.
  destruct (isV2 v);
    apply formatToken_returns in E1 as (-> & n & Hn & _ & ->);
    apply formatToken_returns in E2 as (-> & m & Hm & _ & ->);
    rewrite Hn, Hm; conjs; auto.
Qed.



(* ===================================================================== *)
(** ** Keys of published messages *)
(* ===================================================================== *)

Lemma sendRawTokenEvent_spec topic (eventData : gmap string Value) (s : State) :
  exists s',
    sendRawTokenEvent topic eventData s = (Returns tt, s')
    /\ (bus (world s') = bus (world s)
        \/ bus (world s')
           = bus (world s) ++ [{| topic := topic;
                                  key := rawKeyOf topic eventData s;
                                  value := OfObject eventData |}]).
Proof.
  unfold sendRawTokenEvent, getProducer, rawKeyOf, rawMessageKey,
    producerSendMessage, dateNow.
  cbv beta iota zeta delta [tryCatch bind consoleLog gets update ret throw].
  destruct (producerInstance s) as [p|]; simpl;
    [|destruct (producerConnect env (connectAttempts (world s))); simpl];
    try (eexists; split; [reflexivity|]; simpl; by left);
    (destruct (truthy (default VUndefined (eventData !! "signature"))); simpl;
     (destruct (forallb serializable (map_to_list eventData).*2); simpl;
      [destruct (producerSend env (sendAttempts (world s))); simpl|]));
    eexists; (split; [reflexivity|]); simpl; auto.
Qed.

(** C7 (as the code has it).  A record published by [sendToKafka], the
    publish function of the handlers, is keyed by the event's [token_mint];
    the transaction signature is the key only when [token_mint] is absent,
    and a bare random number only when both are.  A record published by
    [sendRawTokenEvent] is keyed by the signature, and by the topic followed
    by the current time when the signature is absent. *)
Theorem C7_message_keys :
  (forall topic event s,
     exists s',
       sendToKafka topic event s = (Returns tt, s')
       /\ bus (world s')
          = bus (world s)
            ++ (if delivers event s
                then [{| topic := topic; key := keyOf event s;
                         value := OfEvent event |}]
                else []))
  /\ (forall event s,
        (truthy (event_token_mint event) = true ->
         keyOf event s = event_token_mint event)
        /\ (truthy (event_token_mint event) = false ->
            truthy (event_signature event) = true ->
            keyOf event s = event_signature event)
        /\ (truthy (event_token_mint event) = false ->
            truthy (event_signature event) = false ->
            keyOf event s = VString (random env (randomDraws (world s)))))
  /\ (forall topic (eventData : gmap string Value) s,
        (exists s',
           sendRawTokenEvent topic eventData s = (Returns tt, s')
           /\ (bus (world s') = bus (world s)
               \/ bus (world s')
                  = bus (world s) ++ [{| topic := topic;
                                         key := rawKeyOf topic eventData s;
                                         value := OfObject eventData |}]))
        /\ (forall sig, eventData !! "signature" = Some sig ->
              truthy sig = true -> rawKeyOf topic eventData s = sig)
        /\ (truthy (default VUndefined (eventData !! "signature")) = false ->
            rawKeyOf topic eventData s
            = VString (topic ++ "-"
                         ++ integerToString
                              (clock env (clockReads (world s))))%string)).
Proof.
  conjs.
  - intros topic event s.
    destruct (sendToKafka_spec topic event s) as (s' & l & E & _ & _ & _ & _ & Hb).
    eauto.
  - intros event s. unfold keyOf. conjs.
    + by intros ->.
    + by intros -> ->.
    + by intros -> ->.
  - intros topic eventData s. conjs.
    + apply sendRawTokenEvent_spec.
    + intros sig Hsig Ht. unfold rawKeyOf. rewrite Hsig. simpl. by rewrite Ht.
    + intros Hf. unfold rawKeyOf. by rewrite Hf.
Qed.

(* ===================================================================== *)
(** ** A producer that never connected *)
(* ===================================================================== *)




(* ===================================================================== *)
(** ** A TokenCreate log, end to end *)
(* ===================================================================== *)

Lemma formatUnits_million :
  formatUnits 1000000000000000000000000 18 = "1000000.0".
Proof. vm_compute. reflexivity. Qed.

(** C8 (as the code has it).  A TokenCreate log with creator [0xAAA...],
    token [0xBBB...], name "Pepe", symbol "PEPE" and totalSupply
    1000000000000000000000000, handled while the provider is live and the
    cache holds 1700000000000 ms for its block, yields a record with
    [initial_supply = "1000000.0"] and [block_time = 1700000000], appends
    exactly one entry for [0xBBB...] to the created-token index, and, when the
    producer delivers, publishes that record on the created-token topic. *)
Theorem C8_token_create_end_to_end (v : string) (ev : Event) (s : State)
    (creator token : string) :
  connected s ->
  cache s !! blockNumber ev = Some 1700000000000 ->
  or (prop (args ev) "creator") (index (args ev) 0) = VString creator ->
  or (prop (args ev) "token") (index (args ev) 1) = VString token ->
  or (prop (args ev) "name") (index (args ev) 3) = VString "Pepe" ->
  or (prop (args ev) "symbol") (index (args ev) 4) = VString "PEPE" ->
  supplyArg (args ev) = VBigInt 1000000000000000000000000 ->
  serializable (transactionHash ev) = true ->
  (forall n, validTimeValue (clock env n) = true) ->
  exists r s',
    handleTokenCreate v ev s = (Returns r, s')
    /\ initial_supply r = "1000000.0"
    /\ tc_block_time r = 1700000000
    /\ tc_token_mint r = VString token
    /\ creator_wallet r = VString creator
    /\ token_name r = VString "Pepe"
    /\ token_symbol r = VString "PEPE"
    /\ (exists now,
          createdTokens s'
          = createdTokens s
            ++ [{| ct_token_mint := VString token; created_at := now |}])
    /\ (delivers (TokenCreate r) s = true ->
        exists k,
          bus (world s')
          = bus (world s) ++ [{| topic := TOKEN_RAW_CREATED; key := k;
                                 value := OfEvent (TokenCreate r) |}]).
Proof.
  intros Hlive Hhit Hcreator Htoken Hname Hsymbol Hsupply Hsig Hclock.
  unfold handleTokenCreate. fold (supplyArg (args ev)).
  rewrite (bind_eq _ _ _ _ _ (resolveBlockTime_cached ev s _ Hlive Hhit
                                ltac:(discriminate))).
  rewrite Hsupply, Hcreator, Htoken, Hname, Hsymbol.
  assert (Hin : inRange 1000000000000000000000000 = true)
    by (vm_compute; reflexivity).
  rewrite (bind_eq _ _ _ _ _ (formatToken_bigint _ s Hin)).
  rewrite formatUnits_million.
  destruct (generateKafkaTimestamp_valid s (Hclock _)) as [kts Ekts].
  rewrite (bind_eq _ _ _ _ _ Ekts).
  unfold dateNow at 1.
  cbv beta iota zeta delta [bind gets update ret]. simpl.
  match goal with
  | |- context [createLogMessage ?ty ?e ?s0] =>
      destruct (createLogMessage_valid ty e s0 (Hclock _)) as [ts Elog];
        [unfold stringifiable; simpl; by destruct (transactionHash ev)|];
        rewrite Elog
  end.
  unfold consoleLog, update.
  match goal with
  | |- context [sendToKafka ?t ?e ?s0] =>
      destruct (sendToKafka_spec t e s0)
        as (s' & l & Es & _ & _ & _ & Hct & Hbus); rewrite Es
  end.
  do 2 eexists. split; [reflexivity|]. simpl. conjs; try done.
  - rewrite Hct. simpl. eauto.
  - intros Hd. rewrite Hbus.
    unfold delivers in Hd |- *. simpl in Hd |- *. rewrite Hd. eauto.
Qed.

(* ===================================================================== *)
(** ** Decoding the same log twice *)
(* ===================================================================== *)





(* ===================================================================== *)
(** ** Looking a fetched block up again *)
(* ===================================================================== *)

(** Whether an inserted block is still there after the clean-up: it is,
    unless the cache was full and the block is older than all others. *)
Lemma cachePut_lookup (cap : nat) (b t : Z) (m : gmap Z Z) :
  ((size m < cap)%nat \/ exists k, is_Some (m !! k) /\ k < b) ->
  cachePut cap b t m !! b = Some t.
Proof.
  intros Hroom.
  destruct (Nat.le_gt_cases (size (<[b:=t]> m)) cap) as [Hle|Hgt].
  - rewrite cachePut_under by done. apply lookup_insert_eq.
  - destruct (cachePut_over cap b t m Hgt) as (o & _ & _ & Hmin & -> & _).
    assert (Hsize : (size (<[b:=t]> m) <= S (size m))%nat)
      by (rewrite map_size_insert; destruct (m !! b); simpl; lia).
    destruct Hroom as [Hlt|(k & Hk & Hkb)]; [lia|].
    assert (o <= k).
    { apply Hmin. destruct (decide (b = k)) as [->|Hne]; [lia|].
      by rewrite lookup_insert_ne. }
    rewrite lookup_delete_ne by lia. apply lookup_insert_eq.
Qed.

Lemma cachePut_oldest (cap : nat) (b t : Z) (m : gmap Z Z) :
  m !! b = None -> (cap <= size m)%nat ->
  (forall k, is_Some (m !! k) -> b < k) ->
  cachePut cap b t m = m.
Proof.
  intros Hb Hfull Hold.
  assert (Hgt : (cap < size (<[b:=t]> m))%nat)
    by (rewrite map_size_insert, Hb; simpl; lia).
  destruct (cachePut_over cap b t m Hgt) as (o & _ & Ho & Hmin & -> & _).
  assert (o = b) as ->.
  { destruct (decide (o = b)) as [|Hne]; [done|].
    rewrite lookup_insert_ne in Ho by done. specialize (Hold o Ho).
    assert (o <= b) by (apply Hmin; rewrite lookup_insert_eq; eauto). lia. }
  rewrite delete_insert_eq. by apply delete_id.
Qed.

(** X1.  Insert, then look up: a block fetched from the node is served from
    the cache on the next call, with no request and no other effect,
    whenever the cache had room for it or already held an older block. *)
Theorem X1_fetched_block_is_served_from_the_cache (b ts : Z) (r r' : nat)
    (s : State) :
  cache s !! b = None -> (1 <= r)%nat ->
  getBlock env (length (requests s)) b = BlockFound ts ->
  validTimeValue (ts * 1000) = true ->
  ((size (cache s) < capacity s)%nat
   \/ exists k, is_Some (cache s !! k) /\ k < b) ->
  exists s',
    getBlockTimestamp b r s = (Returns (Some (ts * 1000)), s')
    /\ requests s' = requests s ++ [GetBlock b]
    /\ cache s' !! b = Some (ts * 1000)
    /\ getBlockTimestamp b r' s' = (Returns (Some (ts * 1000)), s').
Proof.
  intros Hmiss Hr Hfound Hvalid Hroom.
  rewrite getBlockTimestamp_miss by done.
  destruct (fetchLoop_found_after b r ts 0 r 1 s) as (s' & E & Hq & _ & Hc & _);
    [lia | lia | intros i Hi; lia | by rewrite Nat.add_0_r | done |].
  exists s'. split; [exact E|]. split; [exact Hq|].
  assert (Hin : cache s' !! b = Some (ts * 1000))
    by (rewrite Hc; by apply cachePut_lookup).
  split; [exact Hin|]. by apply getBlockTimestamp_hit.
Qed.

(** X2.  A block older than every cached block is not retained by a full
    cache: its timestamp is fetched and returned, the clean-up removes the
    entry just made, and the cache is what it was; so every call for that
    block asks the node again. *)
Theorem X2_older_block_is_not_retained (b ts : Z) (r : nat) (s : State) :
  cache s !! b = None -> (1 <= r)%nat ->
  getBlock env (length (requests s)) b = BlockFound ts ->
  validTimeValue (ts * 1000) = true ->
  (capacity s <= size (cache s))%nat ->
  (forall k, is_Some (cache s !! k) -> b < k) ->
  exists s',
    getBlockTimestamp b r s = (Returns (Some (ts * 1000)), s')
    /\ requests s' = requests s ++ [GetBlock b]
    /\ cache s' = cache s
    /\ cache s' !! b = None.
Proof.
  intros Hmiss Hr Hfound Hvalid Hfull Hold.
  rewrite getBlockTimestamp_miss by done.
  destruct (fetchLoop_found_after b r ts 0 r 1 s) as (s' & E & Hq & _ & Hc & _);
    [lia | lia | intros i Hi; lia | by rewrite Nat.add_0_r | done |].
  exists s'. split; [exact E|]. split; [exact Hq|].
  assert (Hsame : cache s' = cache s)
    by (rewrite Hc; by apply cachePut_oldest).
  split; [exact Hsame|]. by rewrite Hsame.
Qed.

(* ===================================================================== *)
(** ** A timestamp that cannot be printed *)
(* ===================================================================== *)

(** The block is cached before the log line is composed; when the line
    cannot be composed the turn counts as failed. *)
Lemma fetchAttempt_unprintable (b : Z) (r a : nat) (s : State) (ts : Z) :
  getBlock env (length (requests s)) b = BlockFound ts ->
  validTimeValue (ts * 1000) = false ->
  exists s',
    fetchAttempt b r a s
      = (Returns (if (a <? r)%nat then Continue else Return None), s')
    /\ requests s' = requests s ++ [GetBlock b]
    /\ cache s' = cachePut (capacity s) b (ts * 1000) (cache s)
    /\ sameElsewhere s s'.
Proof.
  unfold requests, cache, capacity, fetchAttempt. intros Hf Hv.
  pose proof (toISOString_invalid _ Hv) as Hiso.
  run_monad. rewrite Hf. simpl. rewrite Hiso. simpl.
  destruct (a <? r)%nat; simpl;
    eexists; (split; [reflexivity|]); simpl; repeat split.
Qed.

Lemma cachePut_again (cap : nat) (b t : Z) (m : gmap Z Z) :
  m !! b = Some t -> (size m <= cap)%nat -> cachePut cap b t m = m.
Proof.
  intros Hb Hsize. rewrite cachePut_under; rewrite insert_id; done.
Qed.

Lemma fetchLoop_unprintable (b : Z) (r : nat) (ts : Z) :
  forall (turns a : nat) (s : State),
    (a + turns = S r)%nat ->
    (forall i, (i < turns)%nat ->
       getBlock env (length (requests s) + i) b = BlockFound ts) ->
    validTimeValue (ts * 1000) = false ->
    cacheBounded s -> cache s !! b = Some (ts * 1000) ->
    exists s',
      fetchLoop turns b r a s = (Returns None, s')
      /\ requests s' = requests s ++ replicate turns (GetBlock b)
      /\ cache s' = cache s.
Proof.
  induction turns as [|turns IH]; intros a s Hturns Hfound Hv Hbound Hin.
  - exists s. simpl. by rewrite app_nil_r.
  - destruct (fetchAttempt_unprintable b r a s ts) as (s1 & E1 & Hr1 & Hc1 & Hs1);
      [by rewrite <- (Nat.add_0_r (length _)); apply Hfound; lia | done |].
    rewrite cachePut_again in Hc1 by done.
    rewrite fetchLoop_step, E1.
    destruct (Nat.ltb_spec a r) as [Hlt|Hge].
    + destruct (IH (S a) s1) as (s2 & E2 & Hr2 & Hc2); [lia| |done| | |].
      { intros i Hi. rewrite Hr1, length_app. simpl.
        replace (length (requests s) + 1 + i)%nat
          with (length (requests s) + S i)%nat by lia.
        apply Hfound. lia. }
      { unfold cacheBounded. rewrite Hc1.
        destruct Hs1 as (_ & _ & _ & _ & -> & _). exact Hbound. }
      { by rewrite Hc1. }
      exists s2. split; [exact E2|].
      rewrite Hr2, Hr1, Hc2, Hc1, <- app_assoc. done.
    + assert (turns = 0)%nat as -> by lia.
      exists s1. split; [reflexivity|]. by rewrite Hr1, Hc1.
Qed.

(** X3.  When the node reports a block timestamp that [Date] cannot print
    (its milliseconds are beyond the largest time value, and at most 2^53,
    so that the product is exact), the first call gives up with [null] after
    [maxRetries] requests, yet it leaves the timestamp in the cache: the
    next call returns it. *)
Theorem X3_unprintable_timestamp_is_cached (b ts : Z) (r r' : nat)
    (s : State) :
  cache s !! b = None -> (1 <= r)%nat ->
  (forall i, (i < r)%nat ->
     getBlock env (length (requests s) + i) b = BlockFound ts) ->
  validTimeValue (ts * 1000) = false ->
  - 2 ^ 53 <= ts * 1000 <= 2 ^ 53 ->
  cacheBounded s ->
  ((size (cache s) < capacity s)%nat
   \/ exists k, is_Some (cache s !! k) /\ k < b) ->
  exists s',
    getBlockTimestamp b r s = (Returns None, s')
    /\ requests s' = requests s ++ replicate r (GetBlock b)
    /\ cache s' !! b = Some (ts * 1000)
    /\ getBlockTimestamp b r' s' = (Returns (Some (ts * 1000)), s').
Proof.
  intros Hmiss Hr Hfound Hv _ Hbound Hroom.
  rewrite getBlockTimestamp_miss by done.
  destruct r as [|turns]; [lia|].
  destruct (fetchAttempt_unprintable b (S turns) 1 s ts)
    as (s1 & E1 & Hr1 & Hc1 & Hs1);
    [by rewrite <- (Nat.add_0_r (length _)); apply Hfound; lia | done |].
  assert (Hin1 : cache s1 !! b = Some (ts * 1000))
    by (rewrite Hc1; by apply cachePut_lookup).
  assert (Hb1 : cacheBounded s1).
  { unfold cacheBounded. rewrite Hc1.
    destruct Hs1 as (_ & _ & _ & _ & -> & _). by apply cachePut_bounded. }
  rewrite fetchLoop_step, E1.
  destruct (Nat.ltb_spec 1 (S turns)) as [Hlt|Hge].
  - destruct (fetchLoop_unprintable b (S turns) ts turns 2 s1)
      as (s2 & E2 & Hr2 & Hc2); [lia| |done|done|done|].
    { intros i Hi. rewrite Hr1, length_app. simpl.
      replace (length (requests s) + 1 + i)%nat
        with (length (requests s) + S i)%nat by lia.
      apply Hfound. lia. }
    exists s2. split; [exact E2|].
    assert (Hin2 : cache s2 !! b = Some (ts * 1000)) by (by rewrite Hc2).
    rewrite Hr2, Hr1, <- app_assoc. simpl.
    conjs; [done | exact Hin2 | by apply getBlockTimestamp_hit].
  - assert (turns = 0)%nat as -> by lia.
    exists s1. split; [reflexivity|]. rewrite Hr1. simpl.
    conjs; [done | exact Hin1 | by apply getBlockTimestamp_hit].
Qed.

(* ===================================================================== *)
(** ** Handlers without a live provider *)
(* ===================================================================== *)

Lemma bind_throws {A B} (m : M State A) (k : A -> M State B) s msg s' :
  m s = (Throws msg, s') -> bind m k s = (Throws msg, s').
Proof. unfold bind. by intros ->. Qed.


Lemma getProvider_healthy (p : RPCProvider) (s : State) :
  isHealthy p = true ->
  exists session,
    provider p = Some session /\ getProvider p s = (Returns session, s).
Proof.
  unfold isHealthy, getProvider. intros [Hc Hp]%andb_true_iff.
  destruct (provider p) as [session|]; [|done].
  exists session. by rewrite Hc.
Qed.

Lemma getProvider_unhealthy (p : RPCProvider) (s : State) :
  isHealthy p = false ->
  getProvider p s = (Throws "Provider not connected", s).
Proof.
  unfold isHealthy, getProvider. intros H.
  destruct (provider p) as [session|]; [|done].
  destruct (isConnected p); [discriminate|done].
Qed.

Lemma getProvider_returns (p : RPCProvider) (s s' : State) (session : nat) :
  getProvider p s = (Returns session, s') -> isHealthy p = true /\ s' = s.
Proof.
  destruct (isHealthy p) eqn:Hh.
  - destruct (getProvider_healthy p s Hh) as (n & _ & ->). by intros [= _ ->].
  - by rewrite getProvider_unhealthy.
Qed.

Lemma resolveBlockTime_uninitialised (ev : Event) (s : State) :
  rpcProvider s = None ->
  resolveBlockTime ev s
  = (Throws "RPC provider not initialized. Call initializeRPC() first.", s).
Proof.
  intros Hp. unfold resolveBlockTime. apply bind_throws.
  unfold getRPCProvider. by rewrite Hp.
Qed.

Lemma resolveBlockTime_unhealthy (ev : Event) (s : State) (p : RPCProvider) :
  rpcProvider s = Some p -> isHealthy p = false ->
  resolveBlockTime ev s = (Throws "Provider not connected", s).
Proof.
  intros Hp Hh. unfold resolveBlockTime.
  erewrite bind_eq by (unfold getRPCProvider; by rewrite Hp).
  apply bind_throws. by apply getProvider_unhealthy.
Qed.

(** Every handler starts by resolving the block time of its log. *)
Lemma handle_throws_early kind v ev (s : State) msg :
  resolveBlockTime ev s = (Throws msg, s) ->
  handle kind v ev s = (Throws msg, s).
Proof.
  intros E.
  destruct kind; unfold handle; apply bind_throws;
    [unfold handleTokenCreate | unfold handleTokenPurchase
    | unfold handleTokenSale | unfold handleLiquidityAdded];
    cbv zeta; by apply bind_throws.
Qed.

(** X4.  [isHealthy()] is the condition under which [getProvider()] hands
    out the session: it returns the session when the manager is healthy and
    throws "Provider not connected" when it is not, changing nothing. *)
Theorem X4_getProvider_succeeds_when_healthy (p : RPCProvider) (s : State) :
  (isHealthy p = true ->
   exists session,
     provider p = Some session /\ getProvider p s = (Returns session, s))
  /\ (isHealthy p = false ->
      getProvider p s = (Throws "Provider not connected", s))
  /\ (forall session s',
        getProvider p s = (Returns session, s') -> isHealthy p = true).
Proof.
  conjs.
  - apply getProvider_healthy.
  - apply getProvider_unhealthy.
  - intros session s' E. by destruct (getProvider_returns p s s' session E).
Qed.

(** X5.  A log that arrives before [initializeRPC()] or while the manager
    is not healthy is rejected by every handler: the handler throws, and
    nothing has happened: no request, no line printed, nothing cached,
    nothing published. *)
Theorem X5_handlers_reject_logs_without_a_live_provider kind v ev
    (s : State) :
  (rpcProvider s = None ->
   handle kind v ev s
   = (Throws "RPC provider not initialized. Call initializeRPC() first.", s))
  /\ (forall p,
        rpcProvider s = Some p -> isHealthy p = false ->
        handle kind v ev s = (Throws "Provider not connected", s)).
Proof.
  split.
  - intros Hp. by apply handle_throws_early, resolveBlockTime_uninitialised.
  - intros p Hp Hh.
    by eapply handle_throws_early, resolveBlockTime_unhealthy.
Qed.

(* ===================================================================== *)
(** ** The block time of a record *)
(* ===================================================================== *)





(* ===================================================================== *)
(** ** What the steps before the publication leave alone *)
(* ===================================================================== *)

Section Aside.
Context {T : Type} (f : State -> T) (Hf : aside f) (s0 : State).

Ltac aside_update :=
  match goal with
  | Hs : kept f _ _ |- kept f _ _ =>
      pose proof Hf as (Ht & Hq & Hsl & Hp & Hc); unfold kept in *;
      rewrite ?Ht, ?Hq, ?Hsl, ?Hp, ?Hc; exact Hs
  end.

Ltac aside_step :=
  lazymatch goal with
  | |- preserves _ (ret _) => apply preserves_ret
  | |- preserves _ (throw _) => apply preserves_throw
  | |- preserves _ (gets _) => apply preserves_gets
  | |- preserves _ (update _) =>
      apply preserves_update; intros ? ?; aside_update
  | |- preserves _ (bind _ _) => apply preserves_bind; [|intros ?]
  | |- preserves _ (tryCatch _ _) => apply preserves_tryCatch; [|intros ?]
  | |- preserves _ (match ?x with _ => _ end) => destruct x
  | |- preserves _ _ => solve [auto with aside nocore]
  end.

Ltac asides := repeat aside_step.

Create HintDb aside.

Lemma kept_dateNow : preserves (kept f s0) dateNow.
Proof. unfold dateNow. asides. Qed.

Lemma kept_consoleLog l : preserves (kept f s0) (consoleLog l).
Proof. unfold consoleLog. asides. Qed.

Lemma kept_sleep ms : preserves (kept f s0) (sleep ms).
Proof. unfold sleep. asides. Qed.

Lemma kept_isoString ms : preserves (kept f s0) (isoString ms).
Proof. unfold isoString. asides. Qed.

Lemma kept_providerGetBlock b : preserves (kept f s0) (providerGetBlock b).
Proof. unfold providerGetBlock. asides. Qed.

#[local] Hint Resolve kept_dateNow kept_consoleLog kept_sleep kept_isoString
  kept_providerGetBlock : aside.

Lemma kept_fetchAttempt b r a : preserves (kept f s0) (fetchAttempt b r a).
Proof. unfold fetchAttempt. asides. Qed.

#[local] Hint Resolve kept_fetchAttempt : aside.

Lemma kept_fetchLoop b r :
  forall turns a, preserves (kept f s0) (fetchLoop turns b r a).
Proof.
  induction turns as [|turns IH]; intros a; simpl; asides.
Qed.

#[local] Hint Resolve kept_fetchLoop : aside.

Lemma kept_getBlockTimestamp b r :
  preserves (kept f s0) (getBlockTimestamp b r).
Proof. unfold getBlockTimestamp. asides. Qed.

Lemma kept_getRPCProvider : preserves (kept f s0) getRPCProvider.
Proof. intros s Hs. unfold getRPCProvider. by destruct (rpcProvider s). Qed.

Lemma kept_getProvider p : preserves (kept f s0) (getProvider p).
Proof. unfold getProvider. asides. Qed.

Lemma kept_blockTimeOf o : preserves (kept f s0) (blockTimeOf o).
Proof. unfold blockTimeOf. asides. Qed.

#[local] Hint Resolve kept_getBlockTimestamp kept_getRPCProvider
  kept_getProvider kept_blockTimeOf : aside.

Lemma kept_resolveBlockTime ev : preserves (kept f s0) (resolveBlockTime ev).
Proof. unfold resolveBlockTime. asides. Qed.

Lemma kept_formatToken v : preserves (kept f s0) (formatToken v).
Proof. unfold formatToken. asides. Qed.

Lemma kept_generateKafkaTimestamp :
  preserves (kept f s0) generateKafkaTimestamp.
Proof. unfold generateKafkaTimestamp. asides. Qed.

#[local] Hint Resolve kept_resolveBlockTime kept_formatToken
  kept_generateKafkaTimestamp : aside.

Lemma kept_createLogMessage ty e : preserves (kept f s0) (createLogMessage ty e).
Proof. unfold createLogMessage. asides. Qed.

Lemma kept_getTokenTotalSupply a :
  preserves (kept f s0) (getTokenTotalSupply a).
Proof. unfold getTokenTotalSupply. asides. Qed.

Lemma kept_readFounderAndPair a :
  preserves (kept f s0) (readFounderAndPair a).
Proof. unfold readFounderAndPair. asides. Qed.

#[local] Hint Resolve kept_createLogMessage kept_getTokenTotalSupply
  kept_readFounderAndPair : aside.

Lemma kept_purchaseMarketCap v args :
  preserves (kept f s0) (purchaseMarketCap v args).
Proof. unfold purchaseMarketCap, formatBNB. asides. Qed.

Lemma kept_saleMarketCap v args :
  preserves (kept f s0) (saleMarketCap v args).
Proof. unfold saleMarketCap, formatBNB. asides. Qed.

End Aside.

(* ===================================================================== *)
(** ** What a handler publishes *)
(* ===================================================================== *)

Lemma aside_traffic : aside traffic.
Proof. unfold aside, traffic. conjs; reflexivity. Qed.

Lemma aside_createdTokens : aside createdTokens.
Proof. unfold aside. conjs; reflexivity. Qed.

Lemma ensures_bind {A B} (P : State -> Prop) (Q : Outcome B -> State -> Prop)
    (m : M State A) (k : A -> M State B) :
  preserves P m -> (forall msg s, P s -> Q (Throws msg) s) ->
  (forall a, ensures P (k a) Q) -> ensures P (bind m k) Q.
Proof.
  intros Hm Ht Hk s Hs. unfold bind. specialize (Hm s Hs).
  destruct (m s) as [[a|msg] s1]; simpl in *; [by apply Hk | by apply Ht].
Qed.

Lemma publishedAs_throws {A} (wrap : A -> FourMemeEvent) topic s0 msg s :
  kept traffic s0 s -> publishedAs wrap topic s0 (Throws msg) s.
Proof. unfold kept, traffic, publishedAs. simpl. by intros [= -> ->]. Qed.

(** Every handler ends the same way: the record is printed, then sent. *)
Lemma published_tail {A} (wrap : A -> FourMemeEvent) ty topic (x : A) s0 :
  ensures (kept traffic s0)
    (let! line := createLogMessage ty (wrap x) in
     do! consoleLog line in
     do! sendToKafka topic (wrap x) in
     ret x)
    (publishedAs wrap topic s0).
Proof.
  intros s Hs. unfold bind.
  pose proof (kept_createLogMessage traffic aside_traffic s0 ty (wrap x) s Hs)
    as H1.
  destruct (createLogMessage ty (wrap x) s) as [[line|msg] s1]; simpl in *;
    [|by apply publishedAs_throws].
  match goal with
  | |- context [sendToKafka ?t ?e ?s2] =>
      destruct (sendToKafka_spec t e s2) as (s3 & l & -> & _ & _ & _ & _ & Hb)
  end.
  simpl in *. unfold publishedAs, publishedOnce. rewrite Hb.
  injection H1 as -> _.
  match goal with
  | |- context [if ?c then _ else _] => destruct c
  end; [right; eauto | left; by rewrite app_nil_r].
Qed.

Ltac kept_leaf :=
  first [ apply kept_resolveBlockTime | apply kept_formatToken
        | apply kept_generateKafkaTimestamp | apply kept_createLogMessage
        | apply kept_consoleLog | apply kept_purchaseMarketCap
        | apply kept_saleMarketCap | apply kept_readFounderAndPair
        | apply kept_dateNow ];
  solve [apply aside_traffic | apply aside_createdTokens].

Ltac published_step :=
  lazymatch goal with
  | |- ensures _ (bind (createLogMessage _ _) _) _ => apply published_tail
  | |- ensures _ (bind (update _) _) _ =>
      apply ensures_bind;
      [apply preserves_update; by intros ? ?
      | intros ? ?; apply publishedAs_throws | intros ?]
  | |- ensures _ (bind (if ?c then _ else _) _) _ => destruct c
  | |- ensures _ (bind _ _) _ =>
      apply ensures_bind;
      [kept_leaf | intros ? ?; apply publishedAs_throws | intros ?]
  end.

Lemma published_handleTokenCreate v ev s0 :
  ensures (kept traffic s0) (handleTokenCreate v ev)
    (publishedAs TokenCreate TOKEN_RAW_CREATED s0).
Proof.
  unfold handleTokenCreate. cbv zeta. do 5 published_step.
  match goal with
  | |- context [sendToKafka _ (TokenCreate ?x)] =>
      exact (published_tail TokenCreate "TokenCreate" TOKEN_RAW_CREATED x s0)
  end.
Qed.

Lemma published_tradeRecord dir ty v ev bt cap s0 :
  ensures (kept traffic s0) (tradeRecord dir ty v ev bt cap)
    (publishedAs TokenTrade TOKEN_RAW_TRADE s0).
Proof.
  unfold tradeRecord, formatBNB. cbv zeta.
  published_step; published_step; published_step; published_step;
    match goal with
    | |- context [sendToKafka _ (TokenTrade ?x)] =>
        exact (published_tail TokenTrade ty TOKEN_RAW_TRADE x s0)
    end.
Qed.

Lemma published_handleTokenPurchase v ev s0 :
  ensures (kept traffic s0) (handleTokenPurchase v ev)
    (publishedAs TokenTrade TOKEN_RAW_TRADE s0).
Proof.
  unfold handleTokenPurchase. do 2 published_step.
  apply published_tradeRecord.
Qed.

Lemma published_handleTokenSale v ev s0 :
  ensures (kept traffic s0) (handleTokenSale v ev)
    (publishedAs TokenTrade TOKEN_RAW_TRADE s0).
Proof.
  unfold handleTokenSale. do 2 published_step. apply published_tradeRecord.
Qed.

Lemma published_handleLiquidityAdded v ev s0 :
  ensures (kept traffic s0) (handleLiquidityAdded v ev)
    (publishedAs TokenMigration TOKEN_RAW_MIGRATED s0).
Proof.
  unfold handleLiquidityAdded, formatBNB. cbv zeta. do 4 published_step.
  match goal with
  | |- context [sendToKafka _ (TokenMigration ?x)] =>
      exact (published_tail TokenMigration "CompleteFourMemeMigration"
               TOKEN_RAW_MIGRATED x s0)
  end.
Qed.

Lemma published_wrap {A} (wrap : A -> FourMemeEvent) topic (m : M State A) s :
  publishedAs wrap topic s (fst (m s)) (snd (m s)) ->
  publishedOnce topic s
    (fst (bind m (fun e => ret (wrap e)) s))
    (snd (bind m (fun e => ret (wrap e)) s)).
Proof.
  unfold publishedAs, bind. by destruct (m s) as [[a|msg] s1].
Qed.

Lemma published_handle kind v ev (s : State) :
  publishedOnce (topicOf kind) s
    (fst (handle kind v ev s)) (snd (handle kind v ev s)).
Proof.
  destruct kind; unfold handle, topicOf; apply published_wrap;
    [apply published_handleTokenCreate | apply published_handleTokenPurchase
    | apply published_handleTokenSale | apply published_handleLiquidityAdded];
    reflexivity.
Qed.

(** X7.  A handler publishes what it returns, once at most, on the topic of
    its kind of log: [token.raw.created] for TokenCreate,
    [token.raw.trade] for purchases and sales, [token.raw.migrated] for
    LiquidityAdded.  A handler that throws has published nothing and has
    not tried to. *)
Theorem X7_a_handler_publishes_the_record_it_returns kind v ev (s : State) :
  (forall r s',
     handle kind v ev s = (Returns r, s') ->
     bus (world s') = bus (world s)
     \/ exists k,
          bus (world s')
          = bus (world s)
            ++ [{| topic := topicOf kind; key := k; value := OfEvent r |}])
  /\ (forall msg s',
        handle kind v ev s = (Throws msg, s') ->
        bus (world s') = bus (world s)
        /\ sendAttempts (world s') = sendAttempts (world s))
  /\ topicOf KTokenCreate = "token.raw.created"
  /\ topicOf KTokenPurchase = "token.raw.trade"
  /\ topicOf KTokenSale = "token.raw.trade"
  /\ topicOf KLiquidityAdded = "token.raw.migrated".
Proof.
  pose proof (published_handle kind v ev s) as H.
  conjs; try reflexivity.
  - intros r s' E. by rewrite E in H.
  - intros msg s' E. by rewrite E in H.
Qed.

(* ===================================================================== *)
(** ** The index of created tokens *)
(* ===================================================================== *)

Lemma index_sendToKafka topic e s0 :
  preserves (kept createdTokens s0) (sendToKafka topic e).
Proof.
  intros s Hs.
  destruct (sendToKafka_spec topic e s) as (s' & l & -> & _ & _ & _ & Hc & _).
  unfold kept in *. simpl. by rewrite Hc.
Qed.

Ltac index_step :=
  lazymatch goal with
  | |- preserves _ (ret _) => apply preserves_ret
  | |- preserves _ (bind _ _) => apply preserves_bind; [|intros ?]
  | |- preserves _ (if ?c then _ else _) => destruct c
  | |- preserves _ (sendToKafka _ _) => apply index_sendToKafka
  | |- preserves _ _ => kept_leaf
  end.

Lemma index_tradeRecord dir ty v ev bt cap s0 :
  preserves (kept createdTokens s0) (tradeRecord dir ty v ev bt cap).
Proof. unfold tradeRecord, formatBNB. cbv zeta. repeat index_step. Qed.

Lemma index_handle kind v ev s0 :
  kind <> KTokenCreate ->
  preserves (kept createdTokens s0) (handle kind v ev).
Proof.
  intros Hk. destruct kind; [done| | |]; unfold handle.
  - unfold handleTokenPurchase.
    repeat first [apply index_tradeRecord | index_step].
  - unfold handleTokenSale.
    repeat first [apply index_tradeRecord | index_step].
  - unfold handleLiquidityAdded, formatBNB. cbv zeta. repeat index_step.
Qed.

(** X8.  The index of created tokens grows by one entry, for the token of
    the record, with every TokenCreate log that is handled, also when the
    token is in the index already; the handlers of the other logs never
    touch it, whether they return or throw.  [getCreatedTokensCount()] is
    the number of entries and is 0 after [clearCreatedTokens()]. *)
Theorem X8_created_token_index kind v ev (s : State) :
  (kind <> KTokenCreate ->
   createdTokens (snd (handle kind v ev s)) = createdTokens s)
  /\ (forall r s',
        handleTokenCreate v ev s = (Returns r, s') ->
        (exists now,
           createdTokens s'
           = createdTokens s
             ++ [{| ct_token_mint := tc_token_mint r; created_at := now |}])
        /\ fst (getCreatedTokensCount s')
           = Returns (S (length (createdTokens s))))
  /\ fst (getCreatedTokensCount s) = Returns (length (createdTokens s))
  /\ fst (getCreatedTokensCount (snd (clearCreatedTokens s))) = Returns 0%nat.
Proof.
  conjs; try reflexivity.
  - intros Hk. by apply (index_handle kind v ev s Hk s).
  - intros r s' E.
    destruct (handleTokenCreate_returns _ _ _ _ _ E)
      as (bt & s1 & n & kts & now & Er & _ & _ & -> & Hc & _).
    pose proof (kept_resolveBlockTime createdTokens aside_createdTokens s ev s
                  eq_refl) as Hk.
    rewrite Er in Hk. unfold kept in Hk. simpl in Hk. rewrite Hk in Hc.
    split; [by exists now|].
    unfold getCreatedTokensCount, gets. simpl.
    rewrite Hc, length_app. simpl. f_equal. lia.
Qed.

(* ===================================================================== *)
(** ** The producer of [sendRawTokenEvent] *)
(* ===================================================================== *)

Ltac run_raw :=
  unfold sendRawTokenEvent, getProducer, rawMessageKey, producerSendMessage,
    dateNow;
  cbv beta iota zeta delta [tryCatch bind consoleLog gets update ret throw].

Lemma sendRawTokenEvent_with_instance topic (eventData : gmap string Value)
    (s : State) (p : nat) :
  producerInstance s = Some p ->
  let s' := snd (sendRawTokenEvent topic eventData s) in
  producerInstance s' = Some p
  /\ connectAttempts (world s') = connectAttempts (world s).
Proof.
  intros Hp. run_raw. rewrite Hp. simpl.
  destruct (truthy (default VUndefined (eventData !! "signature"))); simpl;
    (destruct (forallb serializable (map_to_list eventData).*2); simpl;
     [destruct (producerSend env (sendAttempts (world s))); simpl|]);
    by rewrite ?Hp.
Qed.

Lemma sendRawTokenEvent_first topic (eventData : gmap string Value)
    (s : State) :
  producerInstance s = None ->
  let s' := snd (sendRawTokenEvent topic eventData s) in
  producerInstance s' = Some (connectAttempts (world s))
  /\ connectAttempts (world s') = S (connectAttempts (world s))
  /\ (producerConnect env (connectAttempts (world s)) = false ->
      bus (world s') = bus (world s)
      /\ sendAttempts (world s') = sendAttempts (world s)).
Proof.
  intros Hp. run_raw. rewrite Hp. simpl.
  destruct (producerConnect env (connectAttempts (world s))); simpl;
    [|done].
  destruct (truthy (default VUndefined (eventData !! "signature"))); simpl;
    (destruct (forallb serializable (map_to_list eventData).*2); simpl;
     [destruct (producerSend env (sendAttempts (world s))); simpl|]);
    done.
Qed.

Lemma sendAllRaw_with_instance events :
  forall (s : State) (p : nat),
    producerInstance s = Some p ->
    producerInstance (sendAllRaw events s) = Some p
    /\ connectAttempts (world (sendAllRaw events s))
       = connectAttempts (world s).
Proof.
  induction events as [|[topic eventData] events IH]; intros s p Hp; [done|].
  destruct (sendRawTokenEvent_with_instance topic eventData s p Hp)
    as [Hp1 Hc1].
  destruct (IH _ p Hp1) as [Hp2 Hc2].
  unfold sendAllRaw in *. simpl. by rewrite Hp2, Hc2, Hc1.
Qed.

(** X9.  [getProducer()] connects at most once.  The first
    [sendRawTokenEvent] creates the producer, stores it and tries to
    connect it; the instance is stored before the connection is
    established, so that it stays when the connection fails: no later
    call connects again, and the call whose connection failed publishes
    nothing.  Over any sequence of calls at most one connection is
    attempted. *)
Theorem X9_raw_producer_connects_at_most_once :
  (forall topic (eventData : gmap string Value) (s : State),
     producerInstance s = None ->
     let s' := snd (sendRawTokenEvent topic eventData s) in
     producerInstance s' = Some (connectAttempts (world s))
     /\ connectAttempts (world s') = S (connectAttempts (world s))
     /\ (producerConnect env (connectAttempts (world s)) = false ->
         bus (world s') = bus (world s)
         /\ sendAttempts (world s') = sendAttempts (world s)))
  /\ (forall topic (eventData : gmap string Value) (s : State) p,
        producerInstance s = Some p ->
        let s' := snd (sendRawTokenEvent topic eventData s) in
        producerInstance s' = Some p
        /\ connectAttempts (world s') = connectAttempts (world s))
  /\ (forall events (s : State),
        (connectAttempts (world (sendAllRaw events s))
         <= S (connectAttempts (world s)))%nat).
Proof.
  conjs.
  - apply sendRawTokenEvent_first.
  - apply sendRawTokenEvent_with_instance.
  - intros events s. destruct (producerInstance s) as [p|] eqn:Hp.
    + destruct (sendAllRaw_with_instance events s p Hp) as [_ ->]. lia.
    + destruct events as [|[topic eventData] events]; [simpl; lia|].
      destruct (sendRawTokenEvent_first topic eventData s Hp)
        as (Hp1 & Hc1 & _).
      destruct (sendAllRaw_with_instance events _ _ Hp1) as [_ Hc2].
      unfold sendAllRaw in *. simpl. rewrite Hc2, Hc1. lia.
Qed.

(* ===================================================================== *)
(** ** Shutting down *)
(* ===================================================================== *)

Lemma shutdownRPC_returns (s : State) :
  shutdownRPC s
  = (Returns tt,
     withBlockTimestamps (fun _ => ∅)
       (match rpcProvider s with
        | Some p => setRpcProvider (Some (disconnected p)) s
        | None => s
        end)).
Proof.
  unfold shutdownRPC, clearCache.
  cbv beta iota zeta delta [bind gets update ret].
  by destruct (rpcProvider s).
Qed.

Lemma disconnected_unhealthy (p : RPCProvider) :
  isHealthy (disconnected p) = false.
Proof. unfold isHealthy, disconnected. simpl. done. Qed.

(** X10.  [shutdownRPC()] never fails and talks to nobody.  Afterwards the
    cache is empty and the manager, if there was one, is not healthy, so
    that every handler rejects every log without effect; the configuration
    of the manager and its reconnect counter are as before.  Shutting down
    twice is the same as shutting down once. *)
Theorem X10_after_shutdown (s : State) :
  exists s',
    shutdownRPC s = (Returns tt, s')
    /\ world s' = world s
    /\ cache s' = ∅
    /\ fst (getCacheSize s') = Returns 0%nat
    /\ (forall p,
          rpcProvider s = Some p ->
          exists p',
            rpcProvider s' = Some p' /\ isHealthy p' = false
            /\ reconnectAttempts p' = reconnectAttempts p
            /\ maxReconnectAttempts p' = maxReconnectAttempts p)
    /\ (forall kind v ev,
          exists msg, handle kind v ev s' = (Throws msg, s'))
    /\ shutdownRPC s' = (Returns tt, s').
Proof.
  rewrite shutdownRPC_returns. eexists. split; [reflexivity|].
  destruct (rpcProvider s) as [p|] eqn:Hp; simpl.
  - conjs; try done.
    + intros p0 [= <-]. exists (disconnected p).
      conjs; try done.
    + intros kind v ev. eexists.
      eapply handle_throws_early, resolveBlockTime_unhealthy;
        [reflexivity | apply disconnected_unhealthy].
  - conjs; try done.
    + intros kind v ev. eexists.
      by apply handle_throws_early, resolveBlockTime_uninitialised.
    + rewrite shutdownRPC_returns. simpl. by rewrite Hp.
Qed.

(* ===================================================================== *)
(** ** Trades by contract version, and migrations *)
(* ===================================================================== *)

Lemma marketCap_v1 (v : string) (args : Result) (s : State) :
  isV2 v = false ->
  purchaseMarketCap v args s = (Returns zero, s)
  /\ saleMarketCap v args s = (Returns zero, s).
Proof. unfold purchaseMarketCap, saleMarketCap. by intros ->. Qed.

Lemma resolveBlockTime_auxiliary (ev : Event) (s s' : State) (bt : Z) :
  resolveBlockTime ev s = (Returns bt, s') ->
  filter auxiliary (requests s') = filter auxiliary (requests s).
Proof.
  intros E. destruct (resolveBlockTime_requests ev s) as [n Hn].
  rewrite E in Hn. simpl in Hn. rewrite Hn. apply filter_auxiliary_blocks.
Qed.

(** What the two trade handlers have in common. *)
Lemma trade_fields dir ty v ev bt cap (s s' : State) r :
  tradeRecord dir ty v ev bt cap s = (Returns r, s') ->
  direction r = dir /\ market_cap r = cap
  /\ tt_token_mint r = or (prop (args ev) "token") (index (args ev) 0)
  /\ buyer_wallet r = or (prop (args ev) "account") (index (args ev) 1)
  /\ token_decimals r = 18
  /\ (exists n m,
        getBigInt (if isV2 v
                   then or (prop (args ev) "amount") (index (args ev) 3)
                   else or (prop (args ev) "tokenAmount") (index (args ev) 2))
        = Some n
        /\ getBigInt (if isV2 v
                      then or (prop (args ev) "cost") (index (args ev) 4)
                      else or (prop (args ev) "etherAmount")
                             (index (args ev) 3))
           = Some m
        /\ token_amount r = formatUnits n 18
        /\ sol_amount r = formatUnits m 18)
  /\ requests s' = requests s.
Proof.
  intros E.
  destruct (tradeRecord_returns _ _ _ _ _ _ _ _ _ E) as (_ & _ & _ & Hq & _).
  destruct (tradeRecord_record _ _ _ _ _ _ _ _ _ E)
    as (n & m & kts & Hn & Hm & -> & _).
  simpl. conjs; try done. by exists n, m.
Qed.

(** X23.  A purchase is recorded with direction "buy" and a sale with
    direction "sell"; both put the account of the log into [buyer_wallet].
    The manager version decides where the amounts are read: for "V2" the
    token amount is [amount] (position 3) and the BNB amount is [cost]
    (position 4); for every other version string they are [tokenAmount]
    (position 2) and [etherAmount] (position 3), the market
    capitalisation is 0 and no contract is read. *)
Theorem X23_trades_by_contract_version (sale : bool) v ev (s s' : State) r :
  (if sale then handleTokenSale v ev s else handleTokenPurchase v ev s)
  = (Returns r, s') ->
  direction r = (if sale then "sell" else "buy")
  /\ tt_token_mint r = or (prop (args ev) "token") (index (args ev) 0)
  /\ buyer_wallet r = or (prop (args ev) "account") (index (args ev) 1)
  /\ token_decimals r = 18
  /\ (v = "V2" ->
      exists n m,
        getBigInt (or (prop (args ev) "amount") (index (args ev) 3)) = Some n
        /\ getBigInt (or (prop (args ev) "cost") (index (args ev) 4)) = Some m
        /\ token_amount r = formatUnits n 18
        /\ sol_amount r = formatUnits m 18)
  /\ (v <> "V2" ->
      market_cap r = zero
      /\ filter auxiliary (requests s') = filter auxiliary (requests s)
      /\ exists n m,
           getBigInt (or (prop (args ev) "tokenAmount") (index (args ev) 2))
           = Some n
           /\ getBigInt (or (prop (args ev) "etherAmount") (index (args ev) 3))
              = Some m
           /\ token_amount r = formatUnits n 18
           /\ sol_amount r = formatUnits m 18).
Proof.
  assert (Hv : v = "V2" -> isV2 v = true)
    by (intros ->; reflexivity).
  assert (Hv1 : v <> "V2" -> isV2 v = false)
    by (intros Hne; unfold isV2; by apply String.eqb_neq).
  intros E. destruct sale;
    [unfold handleTokenSale in E | unfold handleTokenPurchase in E];
    step_from E as bt s1 E1; step_from E as cap s2 E2;
    apply resolveBlockTime_auxiliary in E1;
    destruct (trade_fields _ _ _ _ _ _ _ _ _ E)
      as (Hdir & Hcap & Hmint & Hwallet & Hdec
          & (n & m & Hn & Hm & Ha & Hb) & Hq).
  all: conjs; try done.
  all: try (intros H; rewrite (Hv H) in Hn, Hm; by exists n, m).
  all: intros H; specialize (Hv1 H); rewrite Hv1 in Hn, Hm.
  all: destruct (marketCap_v1 v (args ev) s1 Hv1) as [Hp Hs];
    rewrite ?Hp, ?Hs in E2; injection E2 as <- <-.
  all: conjs; [done | by rewrite Hq | by exists n, m].
Qed.

Lemma readFounderAndPair_spec (token : Value) (s : State) :
  let n := length (requests s) in
  exists data s',
    readFounderAndPair token s = (Returns data, s')
    /\ requests s' = requests s ++ [CallFounder token; CallPair token]
    /\ match founder env n token, pair env (S n) token with
       | Some f, Some p =>
           data = (f, p) /\ console (world s') = console (world s)
       | _, _ =>
           data = (VString "N/A", VString "N/A")
           /\ console (world s')
              = console (world s) ++ [ContractDataWarning token]
       end.
Proof.
  unfold readFounderAndPair, requests.
  cbv beta iota zeta delta [bind gets update ret consoleLog]. simpl.
  destruct (founder env (length (rpcLog (world s))) token) as [f|];
    [destruct (pair env (S (length (rpcLog (world s)))) token) as [p|]|];
    do 2 eexists; (split; [reflexivity|]); simpl;
    by rewrite <- app_assoc.
Qed.

(** X24.  The record of a migration names the founder and the pair of the
    token when the token contract answers both reads.  When either read
    fails both fields are "N/A", a warning is printed, and the handler goes
    on: the record is still returned.  The two reads are the only contract
    reads of the handler, the fee is the [funds] of the log with 18
    decimals, and the token is the [base] of the log. *)
Theorem X24_migration_record v ev (s s' : State) r :
  handleLiquidityAdded v ev s = (Returns r, s') ->
  let token := or (prop (args ev) "base") (index (args ev) 0) in
  mg_token_mint r = token
  /\ (exists fee,
        getBigInt (or (prop (args ev) "funds") (index (args ev) 3)) = Some fee
        /\ migration_fee r = formatUnits fee 18)
  /\ filter auxiliary (requests s')
     = filter auxiliary (requests s) ++ [CallFounder token; CallPair token]
  /\ let n := (length (requests s') - 2)%nat in
     match founder env n token, pair env (S n) token with
     | Some f, Some p => migrator_wallet r = f /\ liquidity_pool r = p
     | _, _ =>
         migrator_wallet r = VString "N/A"
         /\ liquidity_pool r = VString "N/A"
         /\ ContractDataWarning token ∈ console (world s')
     end.
Proof.
  unfold handleLiquidityAdded, formatBNB. cbv zeta. intros E.
  step_from E as bt s1 E1. step_from E as data s2 E2.
  step_from E as fee s3 E3. step_from E as kts s4 E4.
  apply formatToken_returns in E3 as (-> & n & Hn & _ & ->).
  apply generateKafkaTimestamp_returns in E4 as [-> _].
  pose proof E as Hlog.
  apply logged_and_sent in Hlog as (-> & _ & _ & Hq & _).
  assert (Hcon : exists more,
            console (world s') = console (world s2) ++ more).
  { step_from E as line s5 E5. step_from E as u s6 E6.
    step_from E as u' s7 E7. apply ret_returns in E as [_ ->].
    apply createLogMessage_returns in E5 as (-> & _ & _).
    unfold consoleLog, update in E6. injection E6 as _ <-.
    match type of E7 with
    | sendToKafka ?t ?e ?s0 = _ =>
        destruct (sendToKafka_spec t e s0) as (s8 & l & Es & Hc & _)
    end.
    rewrite Es in E7. injection E7 as _ <-. rewrite Hc. simpl.
    rewrite <- app_assoc. eauto. }
  destruct Hcon as [more Hcon].
  destruct (readFounderAndPair_spec
              (or (prop (args ev) "base") (index (args ev) 0)) s1)
    as (data' & s2' & E2' & Hreq & Hcase).
  rewrite E2 in E2'. injection E2' as <- <-.
  apply resolveBlockTime_auxiliary in E1.
  simpl. conjs.
  - done.
  - by exists n.
  - rewrite Hq. simpl. unfold requests in *. simpl. rewrite Hreq.
    rewrite filter_app, E1. done.
  - assert (Hlen : (length (requests (withWorld tick s2)) - 2)%nat
                   = length (requests s1)).
    { unfold requests in *. simpl. rewrite Hreq, length_app. simpl. lia. }
    rewrite Hq. simpl. rewrite Hlen.
    destruct (founder env (length (requests s1)) _) as [f|];
      [destruct (pair env (S (length (requests s1))) _) as [p|]|].
    + by destruct Hcase as [-> _].
    + destruct Hcase as [-> Hw]. conjs; try done.
      rewrite Hcon, Hw, !elem_of_app. left. right.
      by apply list_elem_of_singleton.
    + destruct Hcase as [-> Hw]. conjs; try done.
      rewrite Hcon, Hw, !elem_of_app. left. right.
      by apply list_elem_of_singleton.
Qed.

End ProcessProperties.

(* ===================================================================== *)
(** ** Properties of the connection lifecycle *)
(* ===================================================================== *)

Module ConnectionProperties.

Import Connection.

(** *** What each operation leaves alone *)

Lemma clearCurrentInterval_frame (r : Runtime) :
  manager (clearCurrentInterval r) = manager r
  /\ tasks (clearCurrentInterval r) = tasks r
  /\ exited (clearCurrentInterval r) = exited r
  /\ sessions (clearCurrentInterval r) = sessions r
  /\ naps (clearCurrentInterval r) = naps r.
Proof. unfold clearCurrentInterval. by destruct (healthCheckInterval _). Qed.

Lemma reconnect_at_ceiling (r : Runtime) :
  maxReconnectAttempts (manager r) <= reconnectAttempts (manager r) ->
  reconnect r = exit 1 r.
Proof.
  intros Hle. unfold reconnect.
  by destruct (Z.leb_spec (maxReconnectAttempts (manager r))
                 (reconnectAttempts (manager r))); [|lia].
Qed.

Lemma reconnect_below (r : Runtime) :
  reconnectAttempts (manager r) < maxReconnectAttempts (manager r) ->
  reconnectAttempts (manager (reconnect r)) = reconnectAttempts (manager r) + 1
  /\ isConnected (manager (reconnect r)) = false
  /\ healthCheckInterval (manager (reconnect r)) = None
  /\ maxReconnectAttempts (manager (reconnect r))
     = maxReconnectAttempts (manager r)
  /\ exited (reconnect r) = exited r
  /\ sessions (reconnect r) = sessions r
  /\ exists t, tasks (reconnect r) = tasks r ++ [t]
               /\ (t = AwaitingDestroy \/ t = Sleeping).
Proof.
  intros Hlt. unfold reconnect.
  destruct (Z.leb_spec (maxReconnectAttempts (manager r))
              (reconnectAttempts (manager r))); [lia|].
  set (r1 := withManager _ r).
  destruct (clearCurrentInterval_frame r1) as (Hm & Hk & He & Hs & Hn).
  destruct (provider (manager (withManager (setInterval None)
                                 (clearCurrentInterval r1)))) as [session|];
    unfold destroy, nap; simpl; rewrite Hm, Hk, He, Hs; simpl;
    repeat split; eauto.
Qed.

(** *** Exit is final and happens at most once *)

Lemma step_after_exit (r : Runtime) (e : Event) :
  exited r <> [] -> step r e = r.
Proof. unfold step. by destruct (exited r). Qed.

Lemma reconnect_exited (r : Runtime) :
  exited (reconnect r) = exited r \/ exited (reconnect r) = exited r ++ [1].
Proof.
  destruct (Z.le_gt_cases (maxReconnectAttempts (manager r))
              (reconnectAttempts (manager r))) as [Hle|Hgt].
  - right. by rewrite reconnect_at_ceiling.
  - left. apply reconnect_below. lia.
Qed.

Lemma disconnect_frame (r : Runtime) :
  exited (disconnect r) = exited r
  /\ reconnectAttempts (manager (disconnect r)) = reconnectAttempts (manager r).
Proof.
  unfold disconnect. set (r1 := withManager (setConnected false) r).
  destruct (clearCurrentInterval_frame r1) as (Hm & Hk & He & Hs & Hn).
  destruct (provider (manager (withManager (setInterval None)
                                 (clearCurrentInterval r1)))) as [session|];
    simpl; rewrite ?Hm, ?He; done.
Qed.

Lemma exited_step (r : Runtime) (e : Event) :
  exited r = [] -> exited (step r e) = [] \/ exited (step r e) = [1].
Proof.
  intros Hr. unfold step. rewrite Hr.
  assert (Hrec : forall x, exited x = [] ->
                   exited (reconnect x) = [] \/ exited (reconnect x) = [1]).
  { intros x Hx. destruct (reconnect_exited x) as [->| ->]; rewrite Hx; auto. }
  destruct e; unfold resuming, connect; repeat case_match; auto;
    try (apply Hrec; simpl;
         rewrite ?(proj1 (proj2 (proj2 (clearCurrentInterval_frame _))));
         done).
  - left. by rewrite (proj1 (disconnect_frame r)).
Qed.

Lemma exited_run (es : list Event) :
  forall r, exited r = [] -> exited (run es r) = [] \/ exited (run es r) = [1].
Proof.
  induction es as [|e es IH]; intros r Hr; [by left|]. simpl.
  destruct (exited_step r e Hr) as [Hs|Hs]; [by apply IH|].
  right. clear IH Hr. revert r Hs. induction es as [|e' es IH']; intros r Hs.
  - done.
  - simpl. rewrite step_after_exit by (by rewrite Hs). by apply IH'.
Qed.

Lemma resume_some (t : Task) (ts : list Task) :
  t ∈ ts -> exists ts', resume t ts = Some ts' /\ length ts = S (length ts').
Proof.
  induction ts as [|t' ts IH]; intros Hin; [inversion Hin|]. simpl.
  destruct (decide (t' = t)) as [->|Hne]; [eauto|].
  apply elem_of_cons in Hin as [->|Hin]; [done|].
  destruct (IH Hin) as (ts' & -> & Hlen). simpl. eexists. split; [done|].
  simpl. lia.
Qed.

Lemma resume_elem (t : Task) (ts ts' : list Task) :
  resume t ts = Some ts' -> t ∈ ts.
Proof.
  revert ts'. induction ts as [|t' ts IH]; intros ts'; simpl; [done|].
  destruct (decide (t' = t)) as [->|Hne].
  - intros _. apply elem_of_cons; auto.
  - destruct (resume t ts) as [ts0|] eqn:E; [|done].
    intros _. apply elem_of_cons. right. eauto.
Qed.

(** *** The counter goes back to zero only when a connection is confirmed *)

Lemma reconnect_attempts (r : Runtime) :
  reconnectAttempts (manager (reconnect r)) = reconnectAttempts (manager r)
  \/ reconnectAttempts (manager (reconnect r))
     = reconnectAttempts (manager r) + 1.
Proof.
  destruct (Z.le_gt_cases (maxReconnectAttempts (manager r))
              (reconnectAttempts (manager r))) as [Hle|Hgt].
  - left. by rewrite reconnect_at_ceiling.
  - right. apply reconnect_below. lia.
Qed.

Lemma attempts_reset (r : Runtime) (e : Event) :
  0 <= reconnectAttempts (manager r) ->
  reconnectAttempts (manager r) <> 0 ->
  reconnectAttempts (manager (step r e)) = 0 ->
  exists session,
    e = Block session /\ AwaitingBlock session ∈ tasks r
    /\ isConnected (manager (step r e)) = true.
Proof.
  intros Hge Hne. unfold step.
  assert (Hrec : forall x,
            reconnectAttempts (manager x) = reconnectAttempts (manager r) ->
            reconnectAttempts (manager (reconnect x)) <> 0).
  { intros x Hx. destruct (reconnect_attempts x) as [->| ->]; lia. }
  destruct (exited r); [|done].
  destruct e; unfold resuming, connect; repeat case_match; simpl; intros Hz;
    try done;
    try (exfalso; revert Hz; apply Hrec; simpl;
         rewrite ?(proj1 (clearCurrentInterval_frame _)); done).
  - eexists. split; [reflexivity|]. split; [|done]. eapply resume_elem; eauto.
  - rewrite (proj2 (disconnect_frame r)) in Hz. done.
Qed.

(** *** A node that never confirms a connection *)

Lemma filter_out_only (k : nat) : filter (fun n => n <> k) [k] = [].
Proof. rewrite filter_cons. by destruct (decide (k <> k)). Qed.

Lemma failedRound_retrying (max delay : Z) (k : nat) :
  Z.of_nat k < max ->
  run (failedRound k) (retrying max delay k) = retrying max delay (S k).
Proof.
  intros Hlt. unfold run, failedRound, retrying. simpl.
  unfold step at 3. simpl. unfold resuming. simpl.
  destruct (decide (AwaitingBlock k = AwaitingBlock k)); [|done].
  unfold reconnect. simpl.
  destruct (Z.leb_spec max (Z.of_nat k)); [lia|].
  unfold clearCurrentInterval, destroy, withManager. simpl.
  rewrite !filter_out_only.
  unfold step. simpl. unfold resuming, nap, connect, openSession. simpl.
  rewrite replicate_cons_app, Nat2Z.inj_succ. reflexivity.
Qed.

Lemma run_app (es es' : list Event) (r : Runtime) :
  run (es ++ es') r = run es' (run es r).
Proof. unfold run. apply foldl_app. Qed.

Lemma failedRounds_retrying (max delay : Z) :
  forall (count first : nat),
    Z.of_nat (first + count) <= max ->
    run (failedRounds first count) (retrying max delay first)
    = retrying max delay (first + count).
Proof.
  induction count as [|count IH]; intros first Hle.
  - simpl. by rewrite Nat.add_0_r.
  - change (failedRounds first (S count))
      with (failedRound first ++ failedRounds (S first) count).
    rewrite run_app, failedRound_retrying by lia.
    rewrite IH by lia. f_equal. lia.
Qed.

(** C3.  [reconnect()] below the ceiling adds one to the attempt counter and
    goes on; the reconnect that would take the counter above the ceiling
    (default 10) exits the process with code 1 instead, and starts nothing.
    Over any sequence of events the process exits at most once, with code 1,
    and nothing runs after the exit.  The counter goes back to zero only when
    a connection is confirmed.  Against a node that never confirms, a manager
    with ceiling [max] opens [max + 1] sessions, sleeps [max] times and
    exits. *)
Theorem C3_reconnect_ceiling :
  maxReconnectAttempts defaultRPCProvider = 10
  /\ (forall r,
        reconnectAttempts (manager r) < maxReconnectAttempts (manager r) ->
        reconnectAttempts (manager (reconnect r))
        = reconnectAttempts (manager r) + 1
        /\ exited (reconnect r) = exited r)
  /\ (forall r,
        maxReconnectAttempts (manager r) < reconnectAttempts (manager r) + 1 ->
        exited (reconnect r) = exited r ++ [1]
        /\ tasks (reconnect r) = tasks r
        /\ sessions (reconnect r) = sessions r
        /\ naps (reconnect r) = naps r)
  /\ (forall es r,
        exited r = [] -> exited (run es r) = [] \/ exited (run es r) = [1])
  /\ (forall e r, exited r <> [] -> step r e = r)
  /\ (forall e r,
        0 <= reconnectAttempts (manager r) ->
        reconnectAttempts (manager r) <> 0 ->
        reconnectAttempts (manager (step r e)) = 0 ->
        exists session,
          e = Block session /\ AwaitingBlock session ∈ tasks r
          /\ isConnected (manager (step r e)) = true)
  /\ (forall (max : nat) (delay : Z),
        let r := run (failedRounds 0 max ++ [Timeout max])
                   (boot (newRPCProvider (Z.of_nat max) delay) true) in
        exited r = [1] /\ sessions r = S max /\ naps r = replicate max delay
        /\ reconnectAttempts (manager r) = Z.of_nat max).
Proof.
  conjs.
  - reflexivity.
  - intros r Hlt.
    destruct (reconnect_below r Hlt) as (? & _ & _ & _ & ? & _). done.
  - intros r Hgt. rewrite reconnect_at_ceiling by lia. done.
  - intros es r. apply exited_run.
  - intros e r. apply step_after_exit.
  - intros e r. apply attempts_reset.
  - intros max delay r. subst r.
    change (boot (newRPCProvider (Z.of_nat max) delay) true)
      with (retrying (Z.of_nat max) delay 0).
    rewrite run_app, failedRounds_retrying by (simpl; lia). simpl.
    unfold step. simpl. unfold resuming. simpl.
    destruct (decide (AwaitingBlock max = AwaitingBlock max)); [|done].
    rewrite reconnect_at_ceiling by (simpl; lia). done.
Qed.

(** C4 (as the code has it).  [reconnect()] has no guard against being
    entered while another reconnect is in flight: below the ceiling every
    invocation, in whatever state, adds one to the counter and starts a
    reconnect sequence of its own.  Only its prefix up to the first [await]
    (ceiling test, increment, [isConnected = false], cancelling the probe
    timer) is one uninterrupted step; so two triggers that race, a failed
    health probe and a transport error, count twice and leave two reconnect
    sequences running. *)
Theorem C4_reconnect_is_not_guarded (r : Runtime) :
  reconnectAttempts (manager r) + 1 < maxReconnectAttempts (manager r) ->
  (reconnectAttempts (manager (reconnect r)) = reconnectAttempts (manager r) + 1
   /\ isConnected (manager (reconnect r)) = false
   /\ healthCheckInterval (manager (reconnect r)) = None
   /\ length (tasks (reconnect r)) = S (length (tasks r)))
  /\ (reconnectAttempts (manager (reconnect (reconnect r)))
      = reconnectAttempts (manager r) + 2
      /\ length (tasks (reconnect (reconnect r))) = S (S (length (tasks r))))
  /\ (forall session,
        exited r = [] -> session ∈ listening r -> Probing ∈ tasks r ->
        let r1 := step r (ProviderError session) in
        let r2 := step r1 ProbeFailed in
        reconnecting r1
        /\ reconnectAttempts (manager r2) = reconnectAttempts (manager r) + 2
        /\ length (tasks r2) = S (length (tasks r))).
Proof.
  intros Hlt.
  destruct (reconnect_below r ltac:(lia))
    as (Ha & Hc & Hi & Hmax & _ & _ & t & Ht & _).
  assert (Hlt' : reconnectAttempts (manager (reconnect r))
                 < maxReconnectAttempts (manager (reconnect r)))
    by (rewrite Ha, Hmax; lia).
  destruct (reconnect_below (reconnect r) Hlt')
    as (Ha' & _ & _ & _ & _ & _ & t' & Ht' & _).
  conjs; auto.
  - rewrite Ht, length_app. simpl. lia.
  - lia.
  - rewrite Ht', Ht, !length_app. simpl. lia.
  - intros session Hrun Hlisten Hprobe r1 r2.
    assert (E1 : r1 = reconnect (clearCurrentInterval r)).
    { subst r1. unfold step. rewrite Hrun.
      by destruct (decide (session ∈ listening r)). }
    assert (Hm : manager (clearCurrentInterval r) = manager r)
      by (unfold clearCurrentInterval; by case_match).
    assert (Hk : tasks (clearCurrentInterval r) = tasks r)
      by (unfold clearCurrentInterval; by case_match).
    assert (He : exited (clearCurrentInterval r) = exited r)
      by (unfold clearCurrentInterval; by case_match).
    destruct (reconnect_below (clearCurrentInterval r))
      as (Ha1 & Hc1 & _ & Hmax1 & He1 & _ & t1 & Ht1 & Hkind);
      [rewrite Hm; lia|].
    rewrite <- E1 in *. rewrite Hm in Ha1. rewrite Hk in Ht1.
    assert (Hp1 : Probing ∈ tasks r1)
      by (rewrite Ht1; apply elem_of_app; by left).
    destruct (resume_some _ _ Hp1) as (ts & Hres & Hlen).
    split.
    { split; [exact Hc1|]. rewrite Ht1.
      destruct Hkind as [-> | ->]; [left|right];
        apply elem_of_app; right; apply elem_of_cons; auto. }
    subst r2. unfold step. rewrite He1, He, Hrun. unfold resuming.
    rewrite Hres.
    set (r1' := withTasks (fun _ => ts) r1).
    destruct (clearCurrentInterval_frame r1') as (Hm' & Hk' & _).
    match goal with
    | |- context [reconnect ?x] =>
        destruct (reconnect_below x)
          as (Ha2 & _ & _ & _ & _ & _ & t2 & Ht2 & _)
    end.
    { simpl. rewrite Hm'. simpl. rewrite Ha1, Hmax1, Hm. lia. }
    rewrite Ha2, Ht2, length_app. simpl. rewrite Hm', Hk'. simpl.
    rewrite Ha1. split; [lia|].
    rewrite Ht1, length_app in Hlen. simpl in Hlen. lia.
Qed.

(** *** The reconnect counter stays within the ceiling *)

Lemma withinCeiling_manager max (r r' : Runtime) :
  maxReconnectAttempts (manager r') = maxReconnectAttempts (manager r) ->
  reconnectAttempts (manager r') = reconnectAttempts (manager r) ->
  withinCeiling max r -> withinCeiling max r'.
Proof. unfold withinCeiling. by intros -> ->. Qed.

Lemma withinCeiling_reconnect max (r : Runtime) :
  withinCeiling max r -> withinCeiling max (reconnect r).
Proof.
  intros [Hmax Ha].
  destruct (Z.le_gt_cases (maxReconnectAttempts (manager r))
              (reconnectAttempts (manager r))) as [Hle|Hlt].
  - rewrite reconnect_at_ceiling by done. done.
  - destruct (reconnect_below r) as (Hr & _ & _ & Hm & _); [lia|].
    unfold withinCeiling. rewrite Hr, Hm. lia.
Qed.

Lemma withinCeiling_resuming max t (r : Runtime) (k : Runtime -> Runtime) :
  (forall r, withinCeiling max r -> withinCeiling max (k r)) ->
  withinCeiling max r -> withinCeiling max (resuming t r k).
Proof.
  intros Hk Hr. unfold resuming. destruct (resume t (tasks r)); [|done].
  by apply Hk.
Qed.

Lemma withinCeiling_clearCurrentInterval max (r : Runtime) :
  withinCeiling max r -> withinCeiling max (clearCurrentInterval r).
Proof.
  destruct (clearCurrentInterval_frame r) as (Hm & _).
  unfold withinCeiling. by rewrite Hm.
Qed.

Lemma withinCeiling_disconnect max (r : Runtime) :
  withinCeiling max r -> withinCeiling max (disconnect r).
Proof.
  intros Hr. unfold disconnect.
  set (r1 := withManager (setConnected false) r).
  assert (H1 : withinCeiling max r1) by done.
  apply withinCeiling_clearCurrentInterval in H1.
  set (r2 := withManager (setInterval None) (clearCurrentInterval r1)).
  assert (H2 : withinCeiling max r2) by done.
  by destruct (provider (manager r2)).
Qed.

Lemma withinCeiling_step max (r : Runtime) (e : Event) :
  withinCeiling max r -> withinCeiling max (step r e).
Proof.
  intros Hr. unfold step. destruct (exited r); [|done].
  destruct e as [session|session|session|timer| | | |opened| |].
  - destruct (decide _); [|done]. apply withinCeiling_resuming; [|done].
    intros r0 [Hm Ha]. split; simpl; [done|lia].
  - apply withinCeiling_resuming; [|done]. apply withinCeiling_reconnect.
  - destruct (decide _); [|done].
    by apply withinCeiling_reconnect, withinCeiling_clearCurrentInterval.
  - by destruct (decide _).
  - by apply withinCeiling_resuming.
  - apply withinCeiling_resuming; [|done]. intros r0 H0.
    apply withinCeiling_reconnect.
    by apply withinCeiling_clearCurrentInterval in H0.
  - apply withinCeiling_resuming; [|done]. by intros r0 H0.
  - apply withinCeiling_resuming; [|done]. intros r0 H0.
    destruct opened; [done|]. by apply withinCeiling_reconnect.
  - by apply withinCeiling_disconnect.
  - apply withinCeiling_resuming; [|done]. by intros r0 H0.
Qed.

(** X11.  Whatever happens (blocks, timeouts, transport errors, health
    checks, disconnects, in any order and however the reconnects overlap)
    the reconnect counter of a manager stays between 0 and its ceiling, and
    the ceiling never changes. *)
Theorem X11_reconnect_counter_stays_within_the_ceiling (max delay : Z)
    (opened : bool) (es : list Event) :
  0 <= max ->
  let r := run es (boot (newRPCProvider max delay) opened) in
  maxReconnectAttempts (manager r) = max
  /\ 0 <= reconnectAttempts (manager r) <= max.
Proof.
  intros Hmax.
  assert (Hboot : withinCeiling max (boot (newRPCProvider max delay) opened)).
  { unfold boot, connect. destruct opened.
    - split; simpl; [done|lia].
    - apply withinCeiling_reconnect. split; simpl; [done|lia]. }
  revert Hboot. generalize (boot (newRPCProvider max delay) opened).
  induction es as [|e es IH]; intros r Hr; [exact Hr|].
  simpl. apply IH. by apply withinCeiling_step.
Qed.

(** *** Disconnecting *)

Lemma disconnect_spec (r : Runtime) :
  isConnected (manager (disconnect r)) = false
  /\ healthCheckInterval (manager (disconnect r)) = None
  /\ provider (manager (disconnect r)) = provider (manager r)
  /\ sessions (disconnect r) = sessions r
  /\ timers (disconnect r) = timers r
  /\ (forall t, healthCheckInterval (manager r) = Some t ->
        t ∉ ticking (disconnect r))
  /\ match provider (manager r) with
     | Some session =>
         tasks (disconnect r) = tasks r ++ [Disconnecting]
         /\ session ∉ listening (disconnect r)
     | None => tasks (disconnect r) = tasks r
     end.
Proof.
  unfold disconnect, clearCurrentInterval. simpl.
  destruct (healthCheckInterval (manager r)) as [t|] eqn:Ht;
    destruct (provider (manager r)) as [session|] eqn:Hs; simpl;
    rewrite ?Hs; conjs; try done;
    try (intros t' [= <-]); try (intros t' [=]); simpl;
    by intros [? _]%list_elem_of_filter.
Qed.

(** X12.  [disconnect()], once its [destroy()] has settled, leaves the
    manager unhealthy, without a session and without a health check: the
    interval it held no longer fires and the session it held has lost its
    listeners.  It does not exit, it does not touch the reconnect counter,
    and it leaves every suspended call of the manager suspended. *)
Theorem X12_disconnect (r : Runtime) :
  exited r = [] ->
  let r' := run [Disconnect; Disconnected] r in
  isHealthy (manager r') = false
  /\ provider (manager r') = None
  /\ healthCheckInterval (manager r') = None
  /\ (forall t, healthCheckInterval (manager r) = Some t -> t ∉ ticking r')
  /\ (forall session,
        provider (manager r) = Some session -> session ∉ listening r')
  /\ exited r' = []
  /\ reconnectAttempts (manager r') = reconnectAttempts (manager r)
  /\ (forall t, t <> Disconnecting -> t ∈ tasks r -> t ∈ tasks r').
Proof.
  intros Hex r'.
  destruct (disconnect_spec r) as (Hc & Hi & Hp & _ & _ & Ht & Hcase).
  destruct (disconnect_frame r) as [He Ha].
  assert (E : r' = resuming Disconnecting (disconnect r)
                     (withManager (setProvider None))).
  { subst r'. unfold run. simpl. unfold step at 2. rewrite Hex.
    unfold step. by rewrite He, Hex. }
  rewrite E. clear E r'. unfold resuming.
  destruct (resume Disconnecting (tasks (disconnect r))) as [ts|] eqn:Er.
  - simpl. unfold isHealthy. simpl. rewrite Hc.
    conjs; try done.
    + intros session Hs. rewrite Hs in Hcase. by destruct Hcase.
    + by rewrite He.
    + intros t Hne Hin.
      assert (Hin' : t ∈ tasks (disconnect r)).
      { destruct (provider (manager r)); [|by rewrite Hcase].
        destruct Hcase as [-> _]. apply elem_of_app. by left. }
      clear -Er Hne Hin'. revert ts Er.
      induction (tasks (disconnect r)) as [|t' l IH]; intros ts Er;
        [by apply elem_of_nil in Hin'|].
      simpl in Er. destruct (decide (t' = Disconnecting)) as [->|Hd].
      * injection Er as <-. apply elem_of_cons in Hin' as [->|]; done.
      * destruct (resume Disconnecting l) as [ts'|]; [|done].
        injection Er as <-. apply elem_of_cons in Hin' as [->|Hin'].
        -- apply elem_of_cons. by left.
        -- apply elem_of_cons. right. by apply IH.
  - assert (Hnone : provider (manager r) = None).
    { destruct (provider (manager r)) as [session|]; [|done].
      destruct Hcase as [Hk _].
      destruct (resume_some Disconnecting (tasks (disconnect r)))
        as (ts & Ets & _); [rewrite Hk; apply elem_of_app; right;
                              by apply list_elem_of_singleton|].
      congruence. }
    rewrite Hnone in Hcase. unfold isHealthy. rewrite Hc, Hp, Hnone.
    conjs; try done; [by rewrite He|]. intros t _ Hin. by rewrite Hcase.
Qed.

(** X13.  [disconnect()] does not cancel a reconnect that is asleep.  When
    the sleep ends, [connect()] opens a new session with a new health
    check, and with its first block the manager is healthy again, although
    it was disconnected and nobody connected it. *)
Theorem X13_disconnect_does_not_stop_a_pending_reconnect (r : Runtime) :
  exited r = [] -> Sleeping ∈ tasks r ->
  let r' := run [Disconnect; Woke true; Block (sessions r)] r in
  isHealthy (manager r') = true
  /\ provider (manager r') = Some (sessions r)
  /\ healthCheckInterval (manager r') = Some (timers r)
  /\ timers r ∈ ticking r'
  /\ reconnectAttempts (manager r') = 0.
Proof.
  intros Hex Hsleep r'.
  destruct (disconnect_spec r) as (_ & _ & _ & Hs & Ht & _ & Hcase).
  destruct (disconnect_frame r) as [He _].
  assert (Hin : Sleeping ∈ tasks (disconnect r)).
  { destruct (provider (manager r)); [|by rewrite Hcase].
    destruct Hcase as [-> _]. apply elem_of_app. by left. }
  destruct (resume_some _ _ Hin) as (ts & Ets & _).
  set (r2 := openSession (withTasks (fun _ => ts) (disconnect r))).
  assert (E2 : step (step r Disconnect) (Woke true) = r2).
  { unfold step at 2. rewrite Hex. unfold step. rewrite He, Hex.
    unfold resuming. by rewrite Ets. }
  destruct (resume_some (AwaitingBlock (sessions r)) (tasks r2))
    as (ts' & Ets' & _).
  { subst r2. simpl. rewrite Hs. apply elem_of_app. right.
    by apply list_elem_of_singleton. }
  assert (E : r' = withManager (fun m => setConnected true (setAttempts 0 m))
                     (withTasks (fun _ => ts') r2)).
  { subst r'. unfold run. simpl. rewrite E2. unfold step.
    replace (exited r2) with (@nil Z) by (subst r2; simpl; by rewrite He, Hex).
    rewrite decide_True
      by (subst r2; simpl; rewrite Hs; apply elem_of_cons; by left).
    unfold resuming. by rewrite Ets'. }
  rewrite E. subst r2. unfold isHealthy. simpl. rewrite Hs, Ht.
  conjs; try done. apply elem_of_cons. by left.
Qed.

End ConnectionProperties.

(* ===================================================================== *)
(** ** Properties of arrays of strings *)
(* ===================================================================== *)

Module ArraysProperties.

Import Arrays.

Lemma includes_elem (x : string) (l : list string) :
  includes x l = true <-> x ∈ l.
Proof.
  unfold includes. rewrite existsb_exists. split.
  - intros (y & Hy%list_elem_of_In & ->%String.eqb_eq). exact Hy.
  - intros Hx. exists x. split; [by apply list_elem_of_In|].
    apply String.eqb_refl.
Qed.

Lemma includes_absent (x : string) (l : list string) :
  includes x l = false <-> x ∉ l.
Proof.
  rewrite <- includes_elem. by destruct (includes x l).
Qed.

(** [indexOf] finds the first occurrence, and only fails when there is
    none. *)
Lemma indexOf_first (x : string) (l1 l2 : list string) :
  x ∉ l1 -> indexOf x (l1 ++ x :: l2) = Some (length l1).
Proof.
  induction l1 as [|y l1 IH]; intros Hx; simpl.
  - by rewrite String.eqb_refl.
  - destruct (String.eqb_spec y x) as [->|Hne].
    + exfalso. apply Hx. apply elem_of_cons. by left.
    + rewrite IH; [done|]. intros Hin. apply Hx. apply elem_of_cons. by right.
Qed.

Lemma indexOf_split (x : string) (l : list string) :
  forall i, indexOf x l = Some i ->
  exists l1 l2, l = l1 ++ x :: l2 /\ (x ∉ l1) /\ length l1 = i.
Proof.
  induction l as [|y l IH]; intros i; simpl; [done|].
  destruct (String.eqb_spec y x) as [->|Hne].
  - intros [= <-]. exists [], l. repeat split. apply not_elem_of_nil.
  - destruct (indexOf x l) as [j|]; simpl; [|done]. intros [= <-].
    destruct (IH j eq_refl) as (l1 & l2 & -> & Hx & <-).
    exists (y :: l1), l2. repeat split.
    intros [->|H]%elem_of_cons; done.
Qed.

Lemma delete_middle (x : string) (l1 l2 : list string) :
  delete (length l1) (l1 ++ x :: l2) = l1 ++ l2.
Proof. induction l1 as [|y l1 IH]; simpl; [done|by f_equal]. Qed.

Lemma indexOf_None (x : string) (l : list string) :
  indexOf x l = None <-> x ∉ l.
Proof.
  induction l as [|y l IH]; simpl.
  - split; [intros _; apply not_elem_of_nil|done].
  - destruct (String.eqb_spec y x) as [->|Hne].
    + split; [done|]. intros H. exfalso. apply H. apply elem_of_cons. by left.
    + destruct (indexOf x l); simpl.
      * split; [done|]. intros H. exfalso.
        assert (H0 : x ∉ l)
          by (intros ?; apply H; apply elem_of_cons; by right).
        by apply IH in H0.
      * split; [|done]. intros _ [->|H]%elem_of_cons; [done|].
        by apply (proj1 IH).
Qed.

End ArraysProperties.

(* ===================================================================== *)
(** ** Properties of the list of monitored pairs *)
(* ===================================================================== *)

Module PairsProperties.

Import Arrays ArraysProperties Pairs.

Lemma addMonitoredPair_spec (x : string) (s : Monitored) :
  addMonitoredPair x s
  = (Returns tt,
     if includes x (pairs s) then s
     else {| pairs := pairs s ++ [x]; lines := lines s ++ [PairAdded x] |}).
Proof.
  unfold addMonitoredPair, consoleLog.
  cbv beta iota zeta delta [bind gets update ret].
  by destruct (includes x (pairs s)).
Qed.

Lemma removeMonitoredPair_spec (x : string) (s : Monitored) :
  removeMonitoredPair x s
  = (Returns tt,
     match indexOf x (pairs s) with
     | Some i =>
         {| pairs := delete i (pairs s); lines := lines s ++ [PairRemoved x] |}
     | None => s
     end).
Proof.
  unfold removeMonitoredPair, consoleLog.
  cbv beta iota zeta delta [bind gets update ret].
  by destruct (indexOf x (pairs s)).
Qed.

(** X14.  [addMonitoredPair] appends a pair that is not monitored yet and
    says so; a pair that is monitored already changes nothing and prints
    nothing.  Afterwards the pair is monitored, the pairs monitored before
    are still there in the same order, a list without duplicates stays
    without duplicates, and adding the same pair again has no effect. *)
Theorem X14_addMonitoredPair (x : string) (s : Monitored) :
  let s' := after (addMonitoredPair x) s in
  fst (addMonitoredPair x s) = Returns tt
  /\ includes x (pairs s') = true
  /\ (includes x (pairs s) = true -> s' = s)
  /\ (includes x (pairs s) = false ->
      pairs s' = pairs s ++ [x] /\ lines s' = lines s ++ [PairAdded x])
  /\ (NoDup (pairs s) -> NoDup (pairs s'))
  /\ after (addMonitoredPair x) s' = s'.
Proof.
  unfold after. rewrite !addMonitoredPair_spec. simpl.
  destruct (includes x (pairs s)) eqn:Hin; simpl.
  - rewrite Hin. by conjs.
  - assert (Hnow : includes x (pairs s ++ [x]) = true).
    { apply includes_elem, elem_of_app. right.
      by apply list_elem_of_singleton. }
    rewrite Hnow. conjs; try done.
    intros Hnd. apply NoDup_app. conjs; [done| |apply NoDup_singleton].
    intros y Hy ->%list_elem_of_singleton.
    by apply includes_absent in Hin.
Qed.

(** X15.  [removeMonitoredPair] takes out the first occurrence of the pair,
    and only that one, and says so; a pair that is not monitored changes
    nothing and prints nothing.  In a list without duplicates the pair is
    no longer monitored afterwards. *)
Theorem X15_removeMonitoredPair (x : string) (s : Monitored) :
  let s' := after (removeMonitoredPair x) s in
  fst (removeMonitoredPair x s) = Returns tt
  /\ (includes x (pairs s) = false -> s' = s)
  /\ (forall l1 l2,
        pairs s = l1 ++ x :: l2 -> x ∉ l1 ->
        pairs s' = l1 ++ l2 /\ lines s' = lines s ++ [PairRemoved x])
  /\ (NoDup (pairs s) ->
      includes x (pairs s') = false /\ NoDup (pairs s'))
  /\ (forall y, y <> x -> includes y (pairs s') = includes y (pairs s)).
Proof.
  unfold after. rewrite !removeMonitoredPair_spec. simpl.
  conjs; [done| | | |].
  - intros Hout%includes_absent%indexOf_None. by rewrite Hout.
  - intros l1 l2 Hl Hx.
    rewrite Hl, indexOf_first by done. simpl. split; [|done].
    apply delete_middle.
  - intros Hnd. destruct (indexOf x (pairs s)) as [i|] eqn:Hi.
    + destruct (indexOf_split _ _ _ Hi) as (l1 & l2 & Hl & Hx & <-).
      simpl. rewrite Hl in Hnd |- *. rewrite delete_middle.
      apply NoDup_app in Hnd as (Hn1 & Hdis & Hn2).
      apply NoDup_cons in Hn2 as [Hx2 Hn2]. split.
      * apply includes_absent. intros [H|H]%elem_of_app; done.
      * apply NoDup_app. conjs; [done| |done].
        intros y Hy Hy2. apply (Hdis y Hy). apply elem_of_cons. by right.
    + split; [|done]. by apply includes_absent, indexOf_None.
  - intros y Hne. destruct (indexOf x (pairs s)) as [i|] eqn:Hi; [|done].
    destruct (indexOf_split _ _ _ Hi) as (l1 & l2 & Hl & Hx & <-).
    simpl. rewrite Hl, delete_middle.
    unfold includes. rewrite !existsb_app. simpl.
    by destruct (String.eqb_spec y x).
Qed.

(** X16.  Adding a pair that was not monitored and removing it again gives
    the list back.  Removing a monitored pair of a list without duplicates
    and adding it again monitors the same pairs, the pair now being the
    last one.  The three pairs the monitor starts with are distinct. *)
Theorem X16_add_and_remove_round_trip (x : string) (s : Monitored) :
  (includes x (pairs s) = false ->
   pairs (after (removeMonitoredPair x) (after (addMonitoredPair x) s))
   = pairs s)
  /\ (includes x (pairs s) = true -> NoDup (pairs s) ->
      let s' := after (addMonitoredPair x) (after (removeMonitoredPair x) s) in
      pairs s' ≡ₚ pairs s /\ last (pairs s') = Some x)
  /\ NoDup (pairs initially) /\ length (pairs initially) = 3%nat.
Proof.
  unfold after. conjs.
  - intros Hout. rewrite addMonitoredPair_spec, Hout. simpl.
    rewrite removeMonitoredPair_spec. simpl.
    rewrite indexOf_first by (by apply includes_absent). simpl.
    by rewrite delete_middle, app_nil_r.
  - intros Hin%includes_elem Hnd. simpl.
    rewrite removeMonitoredPair_spec. simpl.
    destruct (indexOf x (pairs s)) as [i|] eqn:Hi;
      [|by apply indexOf_None in Hi].
    destruct (indexOf_split _ _ _ Hi) as (l1 & l2 & Hl & Hx & <-).
    rewrite addMonitoredPair_spec. simpl. rewrite Hl in Hnd |- *.
    rewrite delete_middle.
    apply NoDup_app in Hnd as (_ & _ & Hn2).
    apply NoDup_cons in Hn2 as [Hx2 _].
    assert (Hout : includes x (l1 ++ l2) = false).
    { apply includes_absent. intros [H|H]%elem_of_app; done. }
    rewrite Hout. simpl. split.
    + rewrite <- app_assoc. apply Permutation_app_head.
      symmetry. apply Permutation_cons_append.
    + by rewrite last_snoc.
  - unfold initially, PANCAKE_SWAP_PAIRS. simpl.
    apply NoDup_ListNoDup.
    repeat constructor; simpl; intuition discriminate.
  - reflexivity.
Qed.

End PairsProperties.

(* ===================================================================== *)
(** ** Properties of [connectToKafka] *)
(* ===================================================================== *)

Module KafkaAdminProperties.

Import Arrays ArraysProperties KafkaAdmin.

Lemma missing_elem (existing : list string) (t : string) :
  t ∈ missing existing <-> t ∈ REQUIRED_TOPICS /\ t ∉ existing.
Proof.
  unfold missing. rewrite list_elem_of_In, filter_In, <- list_elem_of_In.
  rewrite negb_true_iff, includes_absent. tauto.
Qed.

(** Every required topic is listed by the broker or about to be created. *)
Lemma required_ready (existing : list string) (t : string) :
  t ∈ REQUIRED_TOPICS ->
  includes t existing || includes t (missing existing) = true.
Proof.
  intros Ht. destruct (includes t existing) eqn:Hin; [done|]. simpl.
  apply includes_elem, missing_elem. split; [done|].
  by apply includes_absent.
Qed.

Lemma forEach_ready (cond : string -> bool) (l : list string) :
  (forall t, t ∈ l -> cond t = true) ->
  forall s,
    forEach l (fun t => if cond t then consoleLog (TopicReady t) else ret tt) s
    = (Returns tt,
       {| calls := calls s; lines := lines s ++ map TopicReady l |}).
Proof.
  induction l as [|t l IH]; intros Hall s; simpl.
  - rewrite app_nil_r. by destruct s.
  - unfold bind. rewrite Hall by (apply elem_of_cons; by left).
    unfold consoleLog at 1, update at 1. rewrite IH.
    + simpl. by rewrite <- app_assoc.
    + intros t' Ht'. apply Hall. apply elem_of_cons. by right.
Qed.

Lemma createMissingTopics_run (broker : Broker) (l : list string) (s : Admin) :
  exists more,
    createMissingTopics broker l s
    = (match l with [] => Returns tt | _ :: _ => createTopics broker end,
       {| calls := calls s ++ creation l; lines := lines s ++ more |}).
Proof.
  unfold createMissingTopics, creation. destruct l as [|t l].
  - exists []. simpl. unfold ret. rewrite !app_nil_r. by destruct s.
  - cbn [length Nat.ltb Nat.leb].
    cbv beta iota zeta delta [bind consoleLog update adminCreateTopics called].
    destruct (createTopics broker) as [[]|e]; eexists; cbn [calls lines];
      rewrite <- ?app_assoc; reflexivity.
Qed.

Lemma logRequiredTopics_run (existing : list string) (s : Admin) :
  logRequiredTopics existing (missing existing) s
  = (Returns tt,
     {| calls := calls s; lines := lines s ++ map TopicReady REQUIRED_TOPICS |}).
Proof.
  unfold logRequiredTopics.
  apply (forEach_ready _ _ (required_ready existing)).
Qed.

Lemma disconnects_app (l : list Call) (s : Admin) (ls : list Line) :
  forallb (fun c => negb (isDisconnect c)) l = true ->
  disconnects {| calls := calls s ++ l; lines := ls |} = disconnects s.
Proof.
  unfold disconnects. cbn [calls]. rewrite List.filter_app, length_app.
  intros Hl. replace (List.filter isDisconnect l) with (@nil Call).
  - simpl. lia.
  - induction l as [|c l IH]; [done|]. simpl in *.
    apply andb_true_iff in Hl as [Hc Hl]. destruct (isDisconnect c); [done|].
    by apply IH.
Qed.

Lemma creation_quiet (l : list string) :
  forallb (fun c => negb (isDisconnect c)) (creation l) = true.
Proof. by destruct l. Qed.

Lemma adminDisconnect_run (broker : Broker) (s : Admin) :
  adminDisconnect broker s
  = (disconnect broker (disconnects s), called AdminDisconnect s).
Proof. reflexivity. Qed.

(** What [connectToKafka] does, case by case of the answers of the
    broker. *)
Lemma connectToKafka_run (broker : Broker) (s : Admin) :
  let R := connectToKafka broker s in
  match connect broker with
  | Throws e =>
      fst R = Throws e
      /\ calls (snd R) = calls s ++ [AdminConnect; AdminDisconnect]
  | Returns _ =>
      match listTopics broker with
      | Throws e =>
          fst R = Throws e
          /\ calls (snd R)
             = calls s ++ [AdminConnect; ListTopics; AdminDisconnect]
      | Returns existing =>
          let made :=
            calls s ++ [AdminConnect; ListTopics]
              ++ creation (missing existing) in
          match match missing existing with
                | [] => Returns tt
                | _ :: _ => createTopics broker
                end with
          | Throws e =>
              fst R = Throws e /\ calls (snd R) = made ++ [AdminDisconnect]
          | Returns _ =>
              match disconnect broker (disconnects s) with
              | Returns _ =>
                  fst R = Returns tt
                  /\ calls (snd R) = made ++ [AdminDisconnect]
                  /\ exists more,
                       lines (snd R)
                       = lines s ++ [ConnectedToAdmin] ++ more
                           ++ map TopicReady REQUIRED_TOPICS
              | Throws e =>
                  fst R = Throws e
                  /\ calls (snd R)
                     = made ++ [AdminDisconnect; AdminDisconnect]
              end
          end
      end
  end.
Proof.
  intros R. assert (ER : R = connectToKafka broker s) by reflexivity.
  clearbody R. unfold connectToKafka in ER.
  cbv beta iota zeta delta [tryCatch bind adminConnect adminListTopics] in ER.
  assert (Hfail : forall e s0 made,
            calls s0 = made ->
            let R' := bind (consoleLog (ConnectError e))
                        (fun _ => bind (tryCatch (adminDisconnect broker)
                                          (fun _ => ret tt))
                                    (fun _ => throw e : M Admin unit)) s0 in
            fst R' = Throws e /\ calls (snd R') = made ++ [AdminDisconnect]).
  { intros e s0 made <-.
    cbv beta iota zeta delta [bind tryCatch consoleLog update throw ret].
    rewrite adminDisconnect_run. by destruct (disconnect broker _). }
  destruct (connect broker) as [[]|e]; cbv beta iota in ER.
  2: { destruct (Hfail e (called AdminConnect s) (calls s ++ [AdminConnect])
                   eq_refl) as [H1 H2].
       cbv beta iota zeta delta [bind tryCatch] in H1, H2. rewrite <- ER in H1, H2.
       by rewrite H1, H2, <- app_assoc. }
  unfold consoleLog at 1, update at 1 in ER. cbv beta iota in ER.
  destruct (listTopics broker) as [existing|e]; cbv beta iota in ER.
  2: { match type of ER with
       | _ = let (_, _) := consoleLog _ ?s0 in _ =>
           destruct (Hfail e s0 (calls s ++ [AdminConnect; ListTopics]))
             as [H1 H2]; [cbn [calls called]; by rewrite <- app_assoc|]
       end.
       cbv beta iota zeta delta [bind tryCatch] in H1, H2. rewrite <- ER in H1, H2.
       by rewrite H1, H2, <- !app_assoc. }
  fold (missing existing) in ER.
  match type of ER with
  | context [createMissingTopics broker _ ?s0] =>
      destruct (createMissingTopics_run broker (missing existing) s0)
        as [more E]; rewrite E in ER; clear E; cbn [calls lines called] in ER
  end.
  assert (Hmade : ((calls s ++ [AdminConnect]) ++ [ListTopics])
                    ++ creation (missing existing)
                  = calls s ++ [AdminConnect; ListTopics]
                      ++ creation (missing existing))
    by (by rewrite <- !app_assoc).
  rewrite Hmade in ER.
  destruct (match missing existing with
            | [] => Returns tt
            | _ :: _ => createTopics broker
            end) as [[]|e]; cbv beta iota in ER.
  2: { match type of ER with
       | _ = let (_, _) := consoleLog _ ?s0 in _ =>
           destruct (Hfail e s0 _ eq_refl) as [H1 H2]
       end.
       cbv beta iota zeta delta [bind tryCatch] in H1, H2. rewrite <- ER in H1, H2.
       rewrite H1, H2. cbn [calls]. by rewrite <- !app_assoc. }
  rewrite logRequiredTopics_run in ER. cbv beta iota in ER.
  cbn [calls lines] in ER. rewrite adminDisconnect_run in ER.
  rewrite (disconnects_app ([AdminConnect; ListTopics]
                              ++ creation (missing existing))) in ER
    by (rewrite forallb_app, creation_quiet; done).
  destruct (disconnect broker (disconnects s)) as [[]|e]; cbv beta iota in ER.
  - rewrite ER. cbn [fst snd calls lines called]. rewrite <- !app_assoc.
    conjs; try done. by exists more.
  - match type of ER with
    | _ = let (_, _) := consoleLog _ ?s0 in _ =>
        destruct (Hfail e s0 _ eq_refl) as [H1 H2]
    end.
    cbv beta iota zeta delta [bind tryCatch] in H1, H2. rewrite <- ER in H1, H2.
    rewrite H1, H2. cbn [calls called]. by rewrite <- !app_assoc.
Qed.

Lemma disconnects_calls (s s' : Admin) (l : list Call) :
  calls s' = calls s ++ l ->
  disconnects s' = (disconnects s + length (List.filter isDisconnect l))%nat.
Proof.
  unfold disconnects. intros ->. by rewrite List.filter_app, length_app.
Qed.

Lemma creation_filter (l : list string) :
  List.filter isDisconnect (creation l) = [].
Proof. by destruct l. Qed.

Lemma missing_nil (existing : list string) :
  missing existing = [] <-> forall t, t ∈ REQUIRED_TOPICS -> t ∈ existing.
Proof.
  split.
  - intros Hnil t Ht. destruct (includes t existing) eqn:Hin;
      [by apply includes_elem|].
    assert (t ∈ missing existing)
      by (apply missing_elem; split; [done|by apply includes_absent]).
    rewrite Hnil in *. by apply elem_of_nil in H.
  - intros Hall. destruct (missing existing) as [|t l] eqn:Hm; [done|].
    assert (Ht : t ∈ missing existing)
      by (rewrite Hm; apply elem_of_cons; by left).
    apply missing_elem in Ht as [Hreq Hout]. by specialize (Hall t Hreq).
Qed.

(** X17.  When the broker lists its topics, [connectToKafka] asks for the
    creation of exactly the required topics the broker did not list, in
    the order created, trade, migrated, each with one partition and
    replication factor one, in a single call, and makes no such call when
    it lists them all.  When the function returns, a line has announced
    each of the three required topics as ready. *)
Theorem X17_connectToKafka_creates_the_missing_topics (broker : Broker)
    (s : Admin) (existing : list string) :
  connect broker = Returns tt -> listTopics broker = Returns existing ->
  let R := connectToKafka broker s in
  (exists ds,
     calls (snd R)
     = calls s ++ [AdminConnect; ListTopics] ++ creation (missing existing)
         ++ ds
     /\ (ds = [AdminDisconnect] \/ ds = [AdminDisconnect; AdminDisconnect]))
  /\ (forall t, t ∈ missing existing <-> t ∈ REQUIRED_TOPICS /\ t ∉ existing)
  /\ (creation (missing existing) = [] <->
      forall t, t ∈ REQUIRED_TOPICS -> t ∈ existing)
  /\ (forall topics,
        CreateTopics topics ∈ creation (missing existing) ->
        topics <> [] /\ map topic topics = missing existing
        /\ Forall (fun c => numPartitions c = 1%nat
                            /\ replicationFactor c = 1%nat) topics)
  /\ (fst R = Returns tt ->
      forall t, t ∈ REQUIRED_TOPICS -> TopicReady t ∈ lines (snd R)).
Proof.
  intros Hc Hl R. pose proof (connectToKafka_run broker s) as Hrun.
  fold R in Hrun. cbv zeta in Hrun. rewrite Hc, Hl in Hrun.
  conjs.
  - destruct (match missing existing with
              | [] => Returns tt
              | _ :: _ => createTopics broker
              end) as [[]|e].
    + destruct (disconnect broker (disconnects s)) as [[]|e].
      * destruct Hrun as (_ & -> & _). exists [AdminDisconnect].
        rewrite <- !app_assoc. auto.
      * destruct Hrun as (_ & ->). exists [AdminDisconnect; AdminDisconnect].
        rewrite <- !app_assoc. auto.
    + destruct Hrun as (_ & ->). exists [AdminDisconnect].
      rewrite <- !app_assoc. auto.
  - apply missing_elem.
  - rewrite <- missing_nil. unfold creation.
    by destruct (missing existing).
  - intros topics. unfold creation.
    destruct (missing existing) as [|t l]; [by intros ?%elem_of_nil|].
    intros [= ->]%list_elem_of_singleton. conjs; [done| |].
    + simpl. f_equal. clear.
      induction l as [|x l IH]; simpl; [done|by f_equal].
    + apply Forall_forall. intros c Hin%list_elem_of_In.
      change (In c (map (fun topic =>
                           {| topic := topic; numPartitions := 1;
                              replicationFactor := 1 |}) (t :: l))) in Hin.
      apply in_map_iff in Hin as (t' & <- & _). done.
  - intros Hret t Ht.
    destruct (match missing existing with
              | [] => Returns tt
              | _ :: _ => createTopics broker
              end) as [[]|e]; [|destruct Hrun; congruence].
    destruct (disconnect broker (disconnects s)) as [[]|e];
      [|destruct Hrun; congruence].
    destruct Hrun as (_ & _ & more & ->).
    rewrite !elem_of_app. right. right. right.
    apply list_elem_of_In, in_map, list_elem_of_In, Ht.
Qed.

(** X18.  [connectToKafka] closes the admin client on every path: its last
    call is always [disconnect], made once, or twice when the first one
    failed.  It returns exactly when connecting, listing, creating (when
    something had to be created) and disconnecting all succeeded; the
    error of the first call that failed is thrown again once the client
    has been closed, and an error of that closing is swallowed. *)
Theorem X18_connectToKafka_closes_the_admin_client (broker : Broker)
    (s : Admin) :
  let R := connectToKafka broker s in
  last (calls (snd R)) = Some AdminDisconnect
  /\ (disconnects (snd R) = S (disconnects s)
      \/ (disconnects (snd R) = S (S (disconnects s))
          /\ exists e, disconnect broker (disconnects s) = Throws e
                       /\ fst R = Throws e))
  /\ (forall e,
        connect broker = Throws e ->
        fst R = Throws e
        /\ calls (snd R) = calls s ++ [AdminConnect; AdminDisconnect])
  /\ (forall e,
        connect broker = Returns tt -> listTopics broker = Throws e ->
        fst R = Throws e
        /\ calls (snd R)
           = calls s ++ [AdminConnect; ListTopics; AdminDisconnect])
  /\ (forall e existing,
        connect broker = Returns tt -> listTopics broker = Returns existing ->
        missing existing <> [] -> createTopics broker = Throws e ->
        fst R = Throws e)
  /\ (fst R = Returns tt <->
      connect broker = Returns tt
      /\ exists existing,
           listTopics broker = Returns existing
           /\ (missing existing = [] \/ createTopics broker = Returns tt)
           /\ disconnect broker (disconnects s) = Returns tt).
Proof.
  intros R. pose proof (connectToKafka_run broker s) as Hrun.
  fold R in Hrun. cbv zeta in Hrun.
  assert (Hd : forall l ds,
            length (List.filter isDisconnect
                      (([AdminConnect; ListTopics] ++ creation l) ++ ds))
            = length (List.filter isDisconnect ds)).
  { intros l ds. by rewrite !List.filter_app, creation_filter. }
  destruct (connect broker) as [[]|e0].
  2: { destruct Hrun as [Ho Hcalls]. rewrite Ho.
       rewrite (disconnects_calls _ _ _ Hcalls), Hcalls.
       conjs;
         try solve [ done | by rewrite last_app | left; simpl; lia
                   | by intros e [= ->]
                   | split; [done | by intros [? _]] ]. }
  destruct (listTopics broker) as [existing|e0].
  2: { destruct Hrun as [Ho Hcalls]. rewrite Ho.
       rewrite (disconnects_calls _ _ _ Hcalls), Hcalls.
       conjs;
         try solve [ done | by rewrite last_app | left; simpl; lia
                   | by intros e _ [= ->]
                   | split; [done | by intros (_ & ? & ? & _)] ]. }
  destruct (missing existing) as [|t l] eqn:Hm.
  - destruct (disconnect broker (disconnects s)) as [[]|e0].
    + destruct Hrun as (Ho & Hcalls & _). rewrite Ho.
      rewrite <- (app_assoc (calls s)) in Hcalls.
      rewrite (disconnects_calls _ _ _ Hcalls), Hd, Hcalls.
      conjs;
        try solve [ done | by rewrite !last_app
                  | intros e ex _ [= <-] Hne; congruence | left; simpl; lia
                  | split; [|done]; intros _; split; [done|];
                    exists existing; auto ].
    + destruct Hrun as (Ho & Hcalls). rewrite Ho.
      rewrite <- (app_assoc (calls s)) in Hcalls.
      rewrite (disconnects_calls _ _ _ Hcalls), Hd, Hcalls.
      conjs;
        try solve [ done | by rewrite !last_app
                  | intros e ex _ [= <-] Hne; congruence
                  | right; simpl; split; [lia | by exists e0]
                  | split; [done | by intros (_ & ? & [= <-] & _ & ?)] ].
  - destruct (createTopics broker) as [[]|e1].
    + destruct (disconnect broker (disconnects s)) as [[]|e0].
      * destruct Hrun as (Ho & Hcalls & _). rewrite Ho.
        rewrite <- (app_assoc (calls s)) in Hcalls.
        rewrite (disconnects_calls _ _ _ Hcalls), Hd, Hcalls.
        conjs;
          try solve [ done | by rewrite !last_app
                  | intros e ex _ [= <-] Hne; congruence | left; simpl; lia
                    | split; [|done]; intros _; split; [done|];
                      exists existing; rewrite Hm; auto ].
      * destruct Hrun as (Ho & Hcalls). rewrite Ho.
        rewrite <- (app_assoc (calls s)) in Hcalls.
        rewrite (disconnects_calls _ _ _ Hcalls), Hd, Hcalls.
        conjs;
          try solve [ done | by rewrite !last_app
                  | intros e ex _ [= <-] Hne; congruence
                    | right; simpl; split; [lia | by exists e0]
                    | split; [done | by intros (_ & ? & [= <-] & _ & ?)] ].
    + destruct Hrun as (Ho & Hcalls). rewrite Ho.
      rewrite <- (app_assoc (calls s)) in Hcalls.
      rewrite (disconnects_calls _ _ _ Hcalls), Hd, Hcalls.
      conjs;
        try solve [ done | by rewrite !last_app
                  | intros e ex _ [= <-] Hne; congruence | left; simpl; lia
                  | by intros e ex _ [= <-] _ [= ->]
                  | split; [done|];
                    intros (_ & ex & [= <-] & [H|H] & _); [|done];
                    by rewrite Hm in H ].
Qed.

End KafkaAdminProperties.

(* ===================================================================== *)
(** ** Properties of [getTransactionDetails] *)
(* ===================================================================== *)

Module TransactionsProperties.

Import Transactions.

Ltac run_details :=
  unfold getTransactionDetails, providerGetTransactionReceipt,
    transactionAndBlock, reply, formatBNB, isoString, consoleError;
  cbv beta iota zeta delta [tryCatch bind gets update ret throw].

(** The function returns, whatever the node answers; it prints at most one
    error line, and then the result is [null]. *)
Lemma getTransactionDetails_returns (node : Node) (h : string) (s : Trace) :
  exists o s',
    getTransactionDetails node h s = (Returns o, s')
    /\ (errors s' = errors s
        \/ exists e, errors s' = errors s ++ [(h, e)] /\ o = None).
Proof.
  run_details. unfold truthyBigInt.
  destruct (getTransactionReceipt node h) as [receipt| |e]; simpl; eauto 8.
  destruct (getTransaction node h) as [tx| |e]; simpl; eauto 8;
    destruct (getBlock node (r_blockNumber receipt)) as [block| |e]; simpl;
    eauto 8.
  destruct (inRange (tx_value tx)); simpl; eauto 8.
  destruct (toISOString (b_timestamp block * 1000)); simpl.
  all: destruct (tx_gasPrice tx) as [price|]; [destruct (price =? 0)|];
    simpl; eauto 8.
  all: destruct (inRange price); simpl; eauto 8.
  all: destruct (r_gasUsed receipt =? 0); simpl; eauto 8.
  all: destruct (inRange (price * r_gasUsed receipt)); simpl; eauto 8.
Qed.

(** X19.  [getTransactionDetails] never throws.  It asks for the receipt
    first and asks nothing else when there is none; when there is one it
    asks for the transaction and for the block of the receipt, both.  The
    result is [null] whenever the receipt, the transaction or the block is
    missing or a request is rejected, and an error line naming the
    transaction is printed only with a [null] result. *)
Theorem X19_getTransactionDetails_never_throws (node : Node) (h : string)
    (s : Trace) :
  let R := getTransactionDetails node h s in
  (exists o, fst R = Returns o)
  /\ (errors (snd R) = errors s
      \/ exists e, errors (snd R) = errors s ++ [(h, e)]
                   /\ fst R = Returns None)
  /\ (getTransactionReceipt node h = Absent ->
      R = (Returns None, requested (ReceiptOf h) s))
  /\ ((forall receipt, getTransactionReceipt node h <> Found receipt) ->
      fst R = Returns None /\ requests (snd R) = requests s ++ [ReceiptOf h])
  /\ (forall receipt,
        getTransactionReceipt node h = Found receipt ->
        requests (snd R)
        = requests s ++ [ReceiptOf h; TransactionOf h;
                         BlockAt (r_blockNumber receipt)]
        /\ ((forall tx, getTransaction node h <> Found tx)
            \/ (forall block,
                  getBlock node (r_blockNumber receipt) <> Found block) ->
            fst R = Returns None)).
Proof.
  intros R.
  destruct (getTransactionDetails_returns node h s) as (o & s' & E & Herr).
  fold R in E. conjs.
  - rewrite E. by exists o.
  - rewrite E. simpl. destruct Herr as [?|(e & ? & ->)]; eauto.
  - intros Hr. subst R. run_details. by rewrite Hr.
  - intros Hr. subst R. run_details.
    destruct (getTransactionReceipt node h) as [receipt| |e]; simpl;
      [by specialize (Hr receipt) | done | done].
  - intros receipt Hr. subst R. clear E Herr. run_details.
    unfold truthyBigInt. rewrite Hr. simpl. split.
    + destruct (getTransaction node h) as [tx| |e]; simpl;
        destruct (getBlock node (r_blockNumber receipt)) as [block| |e'];
        simpl; try (by rewrite <- !app_assoc).
      destruct (inRange (tx_value tx)); simpl;
        try (by rewrite <- !app_assoc).
      destruct (toISOString (b_timestamp block * 1000)); simpl.
      all: destruct (tx_gasPrice tx) as [price|]; [destruct (price =? 0)|];
        simpl; try (by rewrite <- !app_assoc).
      all: destruct (inRange price); simpl; try (by rewrite <- !app_assoc).
      all: destruct (r_gasUsed receipt =? 0); simpl;
        try (by rewrite <- !app_assoc).
      all: destruct (inRange (price * r_gasUsed receipt)); simpl;
        by rewrite <- !app_assoc.
    + intros [Hno|Hno].
      * destruct (getTransaction node h) as [tx| |e]; simpl;
          [by specialize (Hno tx)| |];
          by destruct (getBlock node (r_blockNumber receipt)).
      * destruct (getTransaction node h) as [tx| |e]; simpl;
          destruct (getBlock node (r_blockNumber receipt)) as [block| |e'];
          simpl; try done; by specialize (Hno block).
Qed.

(** X20.  The details that are returned are those of the transaction, of
    its receipt and of the block of the receipt: amounts in BNB with 18
    decimals, the status Success exactly for receipt status 1, the fee 0
    when the gas price or the gas used is missing or zero and their product
    otherwise, the block time as an ISO date.  No error line has been
    printed. *)
Theorem X20_transaction_details (node : Node) (h : string) (s s' : Trace)
    (d : TransactionDetails) :
  getTransactionDetails node h s = (Returns (Some d), s') ->
  exists receipt tx block,
    getTransactionReceipt node h = Found receipt
    /\ getTransaction node h = Found tx
    /\ getBlock node (r_blockNumber receipt) = Found block
    /\ errors s' = errors s
    /\ hash d = tx_hash tx /\ from d = tx_from tx
    /\ blockNumber d = default 0 (tx_blockNumber tx)
    /\ blockHash d = default "" (tx_blockHash tx)
    /\ to d = default "" (tx_to tx)
    /\ value d = formatUnits (tx_value tx) 18
    /\ gasUsed d = integerToString (r_gasUsed receipt)
    /\ gasPrice d
       = match truthyBigInt (tx_gasPrice tx) with
         | Some price => formatUnits price 18
         | None => "0"
         end
    /\ transactionFee d
       = match truthyBigInt (tx_gasPrice tx),
               truthyBigInt (Some (r_gasUsed receipt)) with
         | Some price, Some used => formatUnits (price * used) 18
         | _, _ => "0"
         end
    /\ (status d = "Success" <-> r_status receipt = Some 1)
    /\ (status d = "Success" \/ status d = "Failed")
    /\ toISOString (b_timestamp block * 1000) = Some (timestamp d)
    /\ logs d = r_logs receipt.
Proof.
  run_details. unfold truthyBigInt.
  destruct (getTransactionReceipt node h) as [receipt| |e]; simpl;
    [|discriminate|discriminate].
  destruct (getTransaction node h) as [tx| |e]; simpl;
    destruct (getBlock node (r_blockNumber receipt)) as [block| |e'] eqn:Eb;
    simpl; try discriminate.
  destruct (inRange (tx_value tx)); simpl; [|discriminate].
  destruct (toISOString (b_timestamp block * 1000)) as [iso|] eqn:Ei; simpl.
  all: destruct (tx_gasPrice tx) as [price|] eqn:Ep;
    [destruct (price =? 0) eqn:Ez|]; simpl; try discriminate.
  all: try (destruct (inRange price); simpl; [|discriminate]).
  all: try (destruct (r_gasUsed receipt =? 0) eqn:Eu; simpl).
  all: try (destruct (inRange (price * r_gasUsed receipt)); simpl;
            [|discriminate]).
  all: intros [= <- <-]; exists receipt, tx, block; simpl;
    rewrite ?Ep, ?Ez, ?Eu.
  all: destruct (bool_decide_reflect (r_status receipt = Some 1));
    conjs; solve [done | auto | by split].
Qed.

End TransactionsProperties.

(* ===================================================================== *)
(** ** Properties of [handlePancakeSwapTrade] *)
(* ===================================================================== *)

Module PancakeSwapProperties.

Import PancakeSwap.

Section Trades.
Context {arithmetic : JsNumber} {env : Env}.
Variable getReserves : nat -> Value -> option (Z * Z).

Local Abbreviation State := (State (F := number)).
Local Abbreviation Swaps := (Swaps (arithmetic := arithmetic)).
Local Abbreviation handlePancakeSwapTrade :=
  (handlePancakeSwapTrade getReserves).

Lemma keeps_ret (P : Swaps -> Prop) {A} (a : A) : keeps P (ret a).
Proof. by intros s Hs. Qed.

Lemma keeps_throw (P : Swaps -> Prop) {A} msg : keeps P (@throw Swaps A msg).
Proof. by intros s Hs. Qed.

Lemma keeps_gets (P : Swaps -> Prop) {A} (f : Swaps -> A) : keeps P (gets f).
Proof. by intros s Hs. Qed.

Lemma keeps_bind (P : Swaps -> Prop) {A B} (m : M Swaps A)
    (k : A -> M Swaps B) :
  keeps P m -> (forall a, keeps P (k a)) -> keeps P (bind m k).
Proof.
  intros Hm Hk s Hs. unfold bind. specialize (Hm s Hs).
  destruct (m s) as [[a|msg] s1]; simpl in *; [by apply Hk | done].
Qed.

Lemma keeps_tryCatch (P : Swaps -> Prop) {A} (m : M Swaps A)
    (h : string -> M Swaps A) :
  keeps P m -> (forall msg, keeps P (h msg)) -> keeps P (tryCatch m h).
Proof.
  intros Hm Hh s Hs. unfold tryCatch. specialize (Hm s Hs).
  destruct (m s) as [[a|msg] s1]; simpl in *; [done | by apply Hh].
Qed.

Lemma aside_kafkaProducer : aside (kafkaProducer (F := number)).
Proof. unfold aside. conjs; reflexivity. Qed.

Lemma aside_connectAttempts :
  aside (fun s : State => connectAttempts (world s)).
Proof. unfold aside. conjs; reflexivity. Qed.

(** A computation of the process that leaves every [aside] observation
    alone keeps the monitor silent. *)
Lemma silent_lift (s0 : Swaps) {A} (m : M State A) :
  (forall T (f : State -> T), aside f -> forall p0, preserves (kept f p0) m) ->
  keeps (silent s0) (lift m).
Proof.
  intros Hm s (H1 & H2 & H3). unfold lift.
  pose proof (Hm _ _ aside_traffic (process s0) (process s) H1) as K1.
  pose proof (Hm _ _ aside_kafkaProducer (process s0) (process s) H2) as K2.
  pose proof (Hm _ _ aside_connectAttempts (process s0) (process s) H3) as K3.
  destruct (m (process s)) as [o p]. by split.
Qed.

Lemma silent_consoleLog (s0 : Swaps) l : keeps (silent s0) (consoleLog l).
Proof. by intros s Hs. Qed.

Ltac silence :=
  repeat lazymatch goal with
  | |- keeps _ (ret _) => apply keeps_ret
  | |- keeps _ (throw _) => apply keeps_throw
  | |- keeps _ (gets _) => apply keeps_gets
  | |- keeps _ (update _) => by intros ? ?
  | |- keeps _ (consoleLog _) => apply silent_consoleLog
  | |- keeps _ (bind _ _) => apply keeps_bind; [|intros ?]
  | |- keeps _ (tryCatch _ _) => apply keeps_tryCatch; [|intros ?]
  | |- keeps _ (lift _) =>
      apply silent_lift; intros ? ? ? ?;
      first [ by apply kept_getRPCProvider | by apply kept_getProvider
            | by apply kept_getBlockTimestamp | by apply kept_blockTimeOf
            | by apply kept_formatToken | by apply kept_generateKafkaTimestamp ]
  | |- keeps _ (match ?x with _ => _ end) => destruct x
  end.

Lemma silent_handlePancakeSwapTrade (s0 : Swaps) (log : SwapLog) :
  keeps (silent s0) (handlePancakeSwapTrade log).
Proof.
  unfold PancakeSwap.handlePancakeSwapTrade, readLiquidity, getPairReserves,
    classify, createLogMessage, formatBNB.
  cbv zeta. silence.
Qed.

Lemma silent_refl (s : Swaps) : silent s s.
Proof. by repeat split. Qed.

(** X21.  A swap on PancakeSwap is printed and nothing else: whether
    [handlePancakeSwapTrade] returns or throws, nothing has been published
    and no broker has been contacted.  A log that is not an event of the
    pair ABI is rejected before anything is asked of the node, and so is
    every log while the provider is not healthy. *)
Theorem X21_pancake_trades_are_never_published (log : SwapLog) (s : Swaps) :
  (let s' := snd (handlePancakeSwapTrade log s) in
   bus (world (process s')) = bus (world (process s))
   /\ sendAttempts (world (process s')) = sendAttempts (world (process s))
   /\ connectAttempts (world (process s'))
      = connectAttempts (world (process s))
   /\ kafkaProducer (process s') = kafkaProducer (process s))
  /\ (connected (process s) -> parsed log = None ->
      handlePancakeSwapTrade log s
      = (Throws "Failed to parse PancakeSwap swap log", s))
  /\ (forall p,
        rpcProvider (process s) = Some p -> isHealthy p = false ->
        handlePancakeSwapTrade log s = (Throws "Provider not connected", s)).
Proof.
  conjs.
  - destruct (silent_handlePancakeSwapTrade s log s (silent_refl s))
      as (Ht & Hk & Hc).
    unfold traffic in Ht. injection Ht as Hb Hs. done.
  - intros (p & session & Hp & Hs & Hc) Hparse.
    unfold PancakeSwap.handlePancakeSwapTrade, lift, bind, getRPCProvider,
      getProvider.
    rewrite Hp, Hs, Hc, Hparse. by destruct s.
  - intros p Hp Hh.
    unfold PancakeSwap.handlePancakeSwapTrade, lift, bind, getRPCProvider.
    rewrite Hp. simpl. rewrite (getProvider_unhealthy p _ Hh). by destruct s.
Qed.

Lemma swaps_bind_returns {A B} (m : M Swaps A) (k : A -> M Swaps B) s b s' :
  bind m k s = (Returns b, s') ->
  exists a s1, m s = (Returns a, s1) /\ k a s1 = (Returns b, s').
Proof.
  unfold bind. destruct (m s) as [[a|msg] s1]; [eauto | discriminate].
Qed.

Lemma lift_returns {A} (m : M State A) (s s' : Swaps) (a : A) :
  lift m s = (Returns a, s') ->
  exists p, m (process s) = (Returns a, p) /\ s' = setProcess p s.
Proof.
  unfold lift. destruct (m (process s)) as [[a'|msg] p]; [|discriminate].
  intros [= -> <-]. by exists p.
Qed.

Lemma positiveBigInt_true (x : Value) :
  positiveBigInt x = true -> exists n, getBigInt x = Some n /\ 0 < n.
Proof.
  unfold positiveBigInt. destruct (getBigInt x) as [n|]; [|done].
  intros H%Z.ltb_lt. by exists n.
Qed.

Lemma classify_returns (args : Result) (s s' : Swaps) (c : string * string) :
  classify args s = (Returns c, s') ->
  if sells args then
    fst c = "sell"
    /\ exists n, getBigInt (amount0In args) = Some n /\ 0 < n
                 /\ snd c = formatUnits n 18
  else if buys args then
    fst c = "buy"
    /\ exists n, getBigInt (amount0Out args) = Some n /\ 0 < n
                 /\ snd c = formatUnits n 18
  else c = ("unknown", "0").
Proof.
  unfold classify, sells, buys. cbv zeta.
  fold (amount0In args) (amount1In args) (amount0Out args) (amount1Out args).
  destruct (positiveBigInt (amount0In args) && positiveBigInt (amount1Out args))
    eqn:Hsell.
  - intros E. apply swaps_bind_returns in E as (x & s1 & E1 & E).
    injection E as <- _. apply lift_returns in E1 as (p & E1 & _).
    apply formatToken_returns in E1 as (_ & n & Hn & _ & ->).
    split; [done|]. exists n. conjs; try done.
    apply andb_true_iff in Hsell as [(m & Hm & Hpos)%positiveBigInt_true _].
    congruence.
  - destruct (positiveBigInt (amount1In args)
              && positiveBigInt (amount0Out args)) eqn:Hbuy.
    + intros E. apply swaps_bind_returns in E as (x & s1 & E1 & E).
      injection E as <- _. apply lift_returns in E1 as (p & E1 & _).
      apply formatToken_returns in E1 as (_ & n & Hn & _ & ->).
      split; [done|]. exists n. conjs; try done.
      apply andb_true_iff in Hbuy as [_ (m & Hm & Hpos)%positiveBigInt_true].
      congruence.
    + by intros [= <- _].
Qed.

(** X22.  The record of a swap says which way the swap went.  It is a sale
    when token 0 came in and token 1 went out, also when the log has both
    patterns; otherwise a purchase when token 1 came in and token 0 went
    out; otherwise the direction is unknown and the amount is "0".  The
    sender is the seller of a sale and the buyer of a purchase; the amount
    is that of token 0 with 18 decimals.  The token of the record is the
    address of the pair, the market capitalisation is 0 and the amount
    paid is "N/A".  The record has been printed. *)
Theorem X22_direction_of_a_pancake_trade (log : SwapLog) (s s' : Swaps)
    (r : PancakeSwapTradeData) :
  handlePancakeSwapTrade log s = (Returns r, s') ->
  exists args,
    parsed log = Some args
    /\ token_mint r = address log /\ slot r = logBlockNumber log
    /\ signature r = logTransactionHash log
    /\ chain_id r = 0 /\ token_decimals r = 18
    /\ sol_amount r = "N/A" /\ market_cap r = zero
    /\ (if sells args then
          direction r = "sell"
          /\ seller_wallet r = Some (sender args) /\ buyer_wallet r = None
          /\ exists n, getBigInt (amount0In args) = Some n /\ 0 < n
                       /\ token_amount r = formatUnits n 18
        else if buys args then
          direction r = "buy"
          /\ buyer_wallet r = Some (sender args) /\ seller_wallet r = None
          /\ exists n, getBigInt (amount0Out args) = Some n /\ 0 < n
                       /\ token_amount r = formatUnits n 18
        else
          direction r = "unknown"
          /\ buyer_wallet r = None /\ seller_wallet r = None
          /\ token_amount r = "0")
    /\ exists ts ty, TradeLine ts ty r ∈ swapLines s'.
Proof.
  unfold PancakeSwap.handlePancakeSwapTrade. cbv zeta. intros E.
  apply swaps_bind_returns in E as (rpc & s1 & _ & E).
  apply swaps_bind_returns in E as (session & s2 & _ & E).
  apply swaps_bind_returns in E as (args & s3 & Eparse & E).
  destruct (parsed log) as [args'|]; [|discriminate].
  injection Eparse as -> _.
  apply swaps_bind_returns in E as (bts & s4 & _ & E).
  apply swaps_bind_returns in E as (bt & s5 & _ & E).
  apply swaps_bind_returns in E as ([] & s6 & _ & E).
  apply swaps_bind_returns in E as (c & s7 & Ec & E).
  apply swaps_bind_returns in E as (kts & s8 & _ & E).
  apply swaps_bind_returns in E as (line & s9 & El & E).
  apply swaps_bind_returns in E as ([] & s10 & Ep & E).
  injection E as <- <-.
  exists args. conjs; try done.
  - apply classify_returns in Ec. fold (sender args).
    destruct (sells args).
    + destruct Ec as (Hd & n & Hn & Hpos & Ha). rewrite Hd, Ha. simpl.
      conjs; try done. by exists n.
    + destruct (buys args).
      * destruct Ec as (Hd & n & Hn & Hpos & Ha). rewrite Hd, Ha. simpl.
        conjs; try done. by exists n.
      * by rewrite Ec.
  - unfold createLogMessage in El.
    apply swaps_bind_returns in El as (ts & s11 & _ & El).
    match type of El with
    | (if ?c then _ else _) _ = _ => destruct c; [|discriminate]
    end.
    injection El as <- <-. injection Ep as <-.
    do 2 eexists. simpl. apply elem_of_app. right.
    by apply list_elem_of_singleton.
Qed.

End Trades.

End PancakeSwapProperties.

(* ===================================================================== *)
(** ** Concrete runs *)
(* ===================================================================== *)

Module Runs.

Import Fixtures.

#[local] Existing Instance DecimalNumber.

Lemma steadyEnv_clock (n : nat) : validTimeValue (clock steadyEnv n) = true.
Proof.
  unfold validTimeValue, steadyEnv, maxTimeValue. simpl.
  apply andb_true_intro. split; [apply Z.leb_le | apply Z.leb_le]; lia.
Qed.


Lemma C1_cache_capacity_witness :
  size (cache (queryAll (env := steadyEnv) blocks101 3 started)) = 100%nat
  /\ cache (queryAll (env := steadyEnv) blocks101 3 started) !! 1 = None
  /\ is_Some (cache (queryAll (env := steadyEnv) blocks101 3 started) !! 101).
Proof.
  destruct (C1_cache_capacity_smallest_key_eviction
              (arithmetic := DecimalNumber) (env := steadyEnv))
    as (_ & _ & _ & Hseq).
  destruct (Hseq blocks101 3%nat started) as (Hsize & Habsent & Hpresent & _).
  - vm_compute. reflexivity.
  - lia.
  - intros n b. exists 1700000000. split; reflexivity.
  - reflexivity.
  - vm_compute. lia.
  - split; [exact Hsize|]. split.
    + apply Habsent. apply list_elem_of_In. vm_compute. auto.
    + apply Hpresent. apply list_elem_of_In. vm_compute.
      do 99 right. left. reflexivity.
Defined.

Lemma getBlockTimestamp_retries_run :
  fst (getBlockTimestamp (env := slowEnv) 42 3 started)
    = Returns (Some 1700000000000)
  /\ waits (snd (getBlockTimestamp (env := slowEnv) 42 3 started)) = [1000].
Proof.
  destruct (getBlockTimestamp_retries_with_backoff
              (env := slowEnv) 42 3%nat started eq_refl)
    as (_ & Hfound & _).
  destruct (Hfound 1%nat 1700000000) as (Hr & _ & Hw & _).
  - lia.
  - intros i Hi. assert (i = 0%nat) as -> by lia. reflexivity.
  - reflexivity.
  - reflexivity.
  - split; [exact Hr | exact Hw].
Defined.

Lemma C3_reconnect_ceiling_witness :
  Connection.exited
    (Connection.run (Connection.failedRounds 0 10 ++ [Connection.Timeout 10])
       (Connection.boot defaultRPCProvider true)) = [1]
  /\ reconnectAttempts
       (Connection.manager
          (Connection.reconnect (Connection.boot defaultRPCProvider true))) = 1.
Proof.
  destruct ConnectionProperties.C3_reconnect_ceiling
    as (_ & Hbelow & _ & _ & _ & _ & Hnever).
  split.
  - exact (proj1 (Hnever 10%nat 5000)).
  - destruct (Hbelow (Connection.boot defaultRPCProvider true)) as [Ha _].
    + simpl. lia.
    + exact Ha.
Defined.

Lemma C4_reconnect_witness :
  reconnectAttempts
    (Connection.manager
       (Connection.run [Connection.ProviderError 0; Connection.ProbeFailed]
          probing)) = 2.
Proof.
  destruct (ConnectionProperties.C4_reconnect_is_not_guarded probing)
    as (_ & _ & Hrace).
  - vm_compute. reflexivity.
  - destruct (Hrace 0%nat) as (_ & Ha & _).
    + reflexivity.
    + apply list_elem_of_In. vm_compute. auto.
    + apply list_elem_of_In. vm_compute. auto.
    + exact Ha.
Defined.

Lemma C4_reentrant_reconnect_counterexample :
  let r1 := Connection.step probing (Connection.ProviderError 0) in
  Connection.reconnecting r1
  /\ Connection.reconnect r1 <> r1
  /\ reconnectAttempts (Connection.manager r1) = 1
  /\ reconnectAttempts
       (Connection.manager (Connection.step r1 Connection.ProbeFailed)) = 2
  /\ Connection.tasks (Connection.step r1 Connection.ProbeFailed)
     = [Connection.AwaitingDestroy; Connection.AwaitingDestroy].
Proof.
  intros r1. split; [|split; [|split; [|split]]].
  - split; [reflexivity|]. left. apply list_elem_of_In. vm_compute. auto.
  - intros Heq.
    apply (f_equal (fun r => reconnectAttempts (Connection.manager r))) in Heq.
    vm_compute in Heq. discriminate.
  - reflexivity.
  - reflexivity.
  - reflexivity.
Qed.

Lemma C5_sale_witness :
  exists r s',
    handleTokenSale (env := steadyEnv) "V2" pepeTraded warmed = (Returns r, s')
    /\ CallTotalSupply (VString "0xBBB") ∈ requests s'.
Proof.
  destruct (handleTokenSale (env := steadyEnv) "V2" pepeTraded warmed)
    as [[r|msg] s'] eqn:E; [|vm_compute in E; discriminate].
  exists r, s'. split; [reflexivity|].
  destruct (C5_market_cap_of_v2_trades
              (arithmetic := DecimalNumber) (env := steadyEnv)) as (Hsale & _).
  destruct (Hsale pepeTraded warmed r s' E) as (raw & s1 & Hraw & _ & _ & Hcase).
  vm_compute in Hraw. injection Hraw as <-. cbv zeta in Hcase.
  assert (Hpos : positive (parseFloat (formatUnits 5000 18)) = true)
    by (vm_compute; reflexivity).
  rewrite Hpos in Hcase. destruct Hcase as [-> _].
  apply elem_of_app. right. apply elem_of_cons. by left.
Defined.

Lemma C5_purchase_counterexample :
  exists r s',
    handleTokenPurchase (env := steadyEnv) "V2" pepeTraded warmed = (Returns r, s')
    /\ positive (parseFloat (formatUnits 5000 18)) = true
    /\ requests s' = [].
Proof.
  destruct (handleTokenPurchase (env := steadyEnv) "V2" pepeTraded warmed)
    as [[r|msg] s'] eqn:E; vm_compute in E; [|discriminate].
  injection E as <- <-. do 2 eexists. split; [reflexivity|].
  split; reflexivity.
Qed.

Lemma C7_message_keys_witness :
  keyOf (env := steadyEnv) pepeRecord started = VString "0xBBB".
Proof.
  destruct (C7_message_keys (arithmetic := DecimalNumber) (env := steadyEnv))
    as (_ & Hkey & _).
  destruct (Hkey pepeRecord started) as (Hmint & _).
  apply Hmint. reflexivity.
Defined.

Lemma C7_keyed_by_token_counterexample :
  bus (world (snd (sendToKafka (env := steadyEnv) TOKEN_RAW_CREATED pepeRecord
                     started)))
  = [{| topic := TOKEN_RAW_CREATED; key := VString "0xBBB";
        value := OfEvent pepeRecord |}]
  /\ truthy (event_signature pepeRecord) = true
  /\ VString "0xBBB" <> event_signature pepeRecord.
Proof. split; [reflexivity|]. split; [reflexivity | discriminate]. Qed.

Lemma C8_token_create_witness :
  exists r s',
    handleTokenCreate (env := steadyEnv) "V2" pepeCreated warmed = (Returns r, s')
    /\ initial_supply r = "1000000.0"
    /\ tc_block_time r = 1700000000
    /\ length (createdTokens s') = 1%nat.
Proof.
  destruct (C8_token_create_end_to_end (env := steadyEnv) "V2" pepeCreated warmed
              "0xAAA" "0xBBB")
    as (r & s' & E & Hsupply & Htime & _ & _ & _ & _ & (now & Hct) & _).
  - exists liveProvider, 0%nat. repeat split.
  - reflexivity.
  - reflexivity.
  - reflexivity.
  - reflexivity.
  - reflexivity.
  - reflexivity.
  - reflexivity.
  - apply steadyEnv_clock.
  - exists r, s'. rewrite Hct. repeat split; assumption.
Defined.

Lemma C8_initial_supply_counterexample :
  exists r s',
    handleTokenCreate (env := steadyEnv) "V2" pepeCreated warmed = (Returns r, s')
    /\ initial_supply r = "1000000.0"
    /\ initial_supply r <> "1000000".
Proof.
  destruct (handleTokenCreate (env := steadyEnv) "V2" pepeCreated warmed)
    as [[r|msg] s'] eqn:E; vm_compute in E; [|discriminate].
  injection E as <- <-. do 2 eexists. split; [reflexivity|].
  split; [reflexivity | discriminate].
Qed.




(** C2.  The retry loop takes a block that the node has delivered for a
    failed attempt when its timestamp is not a date that can be printed:
    the entry is written to the cache, the log line of the success then
    throws inside the [try] block, and the [catch] block retries.  With the
    block delivered at every attempt, the call makes all three requests,
    waits 1000 ms and 2000 ms, and returns [null], not the timestamp; the
    cache holds the block afterwards, so that the next call returns it. *)
Theorem C2_delivered_block_is_reported_missing :
  let out := getBlockTimestamp (env := farEnv) 42 3 started in
  cache started !! 42 = None
  /\ (forall n, getBlock farEnv n 42 = BlockFound 8640000000001)
  /\ fst out = Returns None
  /\ requests (snd out) = [GetBlock 42; GetBlock 42; GetBlock 42]
  /\ waits (snd out) = [1000; 2000]
  /\ cache (snd out) = {[ 42 := 8640000000001000 ]}
  /\ cache (snd out) <> cache started
  /\ fst (getBlockTimestamp (env := farEnv) 42 3 (snd out))
     = Returns (Some 8640000000001000).
Proof.
  intros out. assert (Hcache : cache (snd out) = {[ 42 := 8640000000001000 ]})
    by (vm_compute; reflexivity).
  split; [reflexivity|]. split; [intros n; reflexivity|].
  split; [vm_compute; reflexivity|]. split; [vm_compute; reflexivity|].
  split; [vm_compute; reflexivity|]. split; [exact Hcache|].
  split; [|vm_compute; reflexivity].
  rewrite Hcache. intros Heq.
  apply (f_equal (fun m : gmap Z Z => m !! 42)) in Heq.
  vm_compute in Heq. discriminate.
Qed.

Lemma X1_fetched_block_witness :
  exists s',
    getBlockTimestamp (env := steadyEnv) 42 3 started
    = (Returns (Some 1700000000000), s')
    /\ cache s' !! 42 = Some 1700000000000
    /\ requests s' = [GetBlock 42]
    /\ getBlockTimestamp (env := steadyEnv) 42 3 s'
       = (Returns (Some 1700000000000), s').
Proof.
  destruct (X1_fetched_block_is_served_from_the_cache
              (env := steadyEnv) 42 1700000000 3 3 started)
    as (s' & Hfirst & Hreq & Hcached & Hsecond).
  - reflexivity.
  - lia.
  - reflexivity.
  - reflexivity.
  - left. vm_compute. lia.
  - exists s'. split; [exact Hfirst|]. split; [exact Hcached|].
    split; [exact Hreq | exact Hsecond].
Defined.

Lemma filled_above (k : Z) : is_Some (cache filled !! k) -> 1 < k.
Proof.
  intros Hk.
  assert (Hall : map_Forall (fun k _ => 1 < k) (cache filled)).
  { apply map_Forall_to_list.
    assert (Hlist : forallb (fun kv => 1 <? fst kv) (map_to_list (cache filled))
                    = true) by (vm_compute; reflexivity).
    apply Forall_forall. intros [k' t] Hin.
    rewrite forallb_forall in Hlist.
    apply list_elem_of_In, Hlist, Z.ltb_lt in Hin. exact Hin. }
  destruct Hk as [t Hk]. exact (Hall k t Hk).
Qed.

Lemma X2_older_block_witness :
  exists s',
    getBlockTimestamp (env := steadyEnv) 1 3 filled
    = (Returns (Some 1700000000000), s')
    /\ cache s' !! 1 = None
    /\ getBlockTimestamp (env := steadyEnv) 1 3 started
       = (Returns (Some 1700000000000),
          snd (getBlockTimestamp (env := steadyEnv) 1 3 started)).
Proof.
  destruct (X2_older_block_is_not_retained
              (env := steadyEnv) 1 1700000000 3 filled)
    as (s' & Hrun & _ & _ & Hgone).
  - vm_compute. reflexivity.
  - lia.
  - reflexivity.
  - reflexivity.
  - vm_compute. lia.
  - exact filled_above.
  - exists s'. split; [exact Hrun|]. split; [exact Hgone|].
    vm_compute. reflexivity.
Defined.

Lemma X3_unprintable_timestamp_witness :
  exists s',
    getBlockTimestamp (env := farEnv) 42 3 started = (Returns None, s')
    /\ requests s' = [GetBlock 42; GetBlock 42; GetBlock 42]
    /\ getBlockTimestamp (env := farEnv) 42 3 s'
       = (Returns (Some 8640000000001000), s').
Proof.
  destruct (X3_unprintable_timestamp_is_cached
              (env := farEnv) 42 8640000000001 3 3 started)
    as (s' & Hfirst & Hreq & _ & Hsecond).
  - reflexivity.
  - lia.
  - intros i _. reflexivity.
  - vm_compute. reflexivity.
  - lia.
  - unfold cacheBounded. vm_compute. lia.
  - left. vm_compute. lia.
  - exists s'. split; [exact Hfirst|]. split; [exact Hreq | exact Hsecond].
Defined.


Lemma X23_v1_sale_witness :
  exists r s',
    handleTokenSale (env := steadyEnv) "V1" pepeTraded warmed = (Returns r, s')
    /\ direction r = "sell" /\ market_cap r = zero
    /\ buyer_wallet r = VString "0xACC"
    /\ requests s' = [].
Proof.
  destruct (handleTokenSale (env := steadyEnv) "V1" pepeTraded warmed)
    as [[r|msg] s'] eqn:E; [|vm_compute in E; discriminate].
  exists r, s'. split; [reflexivity|].
  destruct (X23_trades_by_contract_version
              (arithmetic := DecimalNumber) (env := steadyEnv)
              true "V1" pepeTraded warmed s' r E)
    as (Hdir & _ & Hwallet & _ & _ & Hv1).
  destruct Hv1 as (Hcap & _ & _); [discriminate|].
  split; [exact Hdir|]. split; [exact Hcap|]. split; [exact Hwallet|].
  vm_compute in E. injection E as _ <-. reflexivity.
Defined.

Lemma X24_migration_witness :
  exists r s',
    handleLiquidityAdded (env := pairlessEnv) "V2" pepeMigrated warmed
    = (Returns r, s')
    /\ mg_token_mint r = VString "0xBBB"
    /\ migrator_wallet r = VString "N/A"
    /\ liquidity_pool r = VString "N/A"
    /\ ContractDataWarning (VString "0xBBB") ∈ console (world s').
Proof.
  destruct (handleLiquidityAdded (env := pairlessEnv) "V2" pepeMigrated warmed)
    as [[r|msg] s'] eqn:E; [|vm_compute in E; discriminate].
  exists r, s'. split; [reflexivity|].
  destruct (X24_migration_record
              (arithmetic := DecimalNumber) (env := pairlessEnv)
              "V2" pepeMigrated warmed s' r E)
    as (Hmint & _ & _ & Hcase).
  split; [exact Hmint|]. cbv zeta in Hcase.
  assert (Hpair : pair pairlessEnv
                    (S (length (requests s') - 2))
                    (or (prop (args pepeMigrated) "base")
                       (index (args pepeMigrated) 0)) = None)
    by reflexivity.
  rewrite Hpair in Hcase.
  destruct (founder pairlessEnv _ _); exact Hcase.
Defined.

Lemma X11_reconnect_counter_witness :
  0 <= reconnectAttempts
         (Connection.manager
            (Connection.run
               (Connection.failedRounds 0 4 ++ [Connection.Block 4])
               (Connection.boot (newRPCProvider 10 5000) true))) <= 10.
Proof.
  assert (Hmax : 0 <= 10) by lia.
  pose proof (ConnectionProperties.X11_reconnect_counter_stays_within_the_ceiling
                10 5000 true
                (Connection.failedRounds 0 4 ++ [Connection.Block 4]) Hmax)
    as Hin.
  cbv zeta in Hin. exact (proj2 Hin).
Defined.

Lemma X12_disconnect_witness :
  let r' :=
    Connection.run [Connection.Disconnect; Connection.Disconnected] probing in
  isHealthy (Connection.manager r') = false
  /\ provider (Connection.manager r') = None
  /\ Connection.ticking r' = [] /\ Connection.listening r' = [].
Proof.
  assert (Hlive : Connection.exited probing = []) by reflexivity.
  pose proof (ConnectionProperties.X12_disconnect probing Hlive) as Hd.
  cbv zeta in Hd. destruct Hd as (Hhealth & Hprovider & _).
  cbv zeta. split; [exact Hhealth|]. split; [exact Hprovider|].
  split; reflexivity.
Defined.

Lemma X13_disconnect_witness :
  let r' :=
    Connection.run
      [Connection.Disconnect; Connection.Woke true;
       Connection.Block (Connection.sessions napping)] napping in
  isHealthy (Connection.manager napping) = false
  /\ isHealthy (Connection.manager r') = true
  /\ reconnectAttempts (Connection.manager r') = 0.
Proof.
  assert (Hlive : Connection.exited napping = []) by reflexivity.
  assert (Hnap : Connection.Sleeping ∈ Connection.tasks napping)
    by (apply list_elem_of_In; vm_compute; auto).
  pose proof (ConnectionProperties.X13_disconnect_does_not_stop_a_pending_reconnect
                napping Hlive Hnap) as Hd.
  cbv zeta in Hd. destruct Hd as (Hhealth & _ & _ & _ & Hcount).
  cbv zeta. split; [reflexivity|]. split; [exact Hhealth | exact Hcount].
Defined.

Lemma X17_connectToKafka_witness :
  KafkaAdmin.missing ["token.raw.trade"]
  = ["token.raw.created"; "token.raw.migrated"]
  /\ fst (KafkaAdmin.connectToKafka partialBroker KafkaAdmin.idle)
     = Returns tt
  /\ KafkaAdmin.TopicReady "token.raw.created"
     ∈ KafkaAdmin.lines
         (snd (KafkaAdmin.connectToKafka partialBroker KafkaAdmin.idle)).
Proof.
  assert (Hconnect : KafkaAdmin.connect partialBroker = Returns tt)
    by reflexivity.
  assert (Hlist : KafkaAdmin.listTopics partialBroker
                  = Returns ["token.raw.trade"]) by reflexivity.
  pose proof (KafkaAdminProperties.X17_connectToKafka_creates_the_missing_topics
                partialBroker KafkaAdmin.idle ["token.raw.trade"]
                Hconnect Hlist) as Hrun.
  cbv zeta in Hrun. destruct Hrun as (_ & _ & _ & _ & Hready).
  split; [reflexivity|].
  assert (Hok : fst (KafkaAdmin.connectToKafka partialBroker KafkaAdmin.idle)
                = Returns tt) by (vm_compute; reflexivity).
  split; [exact Hok|].
  apply (Hready Hok). apply list_elem_of_In. vm_compute. auto.
Defined.

Lemma X20_transaction_details_witness :
  exists d s',
    Transactions.getTransactionDetails minedNode "0x5167" Transactions.quiet
    = (Returns (Some d), s')
    /\ Transactions.status d = "Success"
    /\ Transactions.value d = "1.5"
    /\ Transactions.to d = ""
    /\ Transactions.errors s' = [].
Proof.
  destruct (Transactions.getTransactionDetails minedNode "0x5167"
              Transactions.quiet) as [[[d|]|msg] s'] eqn:E;
    [|vm_compute in E; discriminate..].
  exists d, s'. split; [reflexivity|].
  destruct (TransactionsProperties.X20_transaction_details
              minedNode "0x5167" Transactions.quiet s' d E)
    as (receipt & tx & block & Hr & Ht & _ & Herr & _ & _ & _ & _ & Hto
        & Hvalue & _ & _ & _ & Hstatus & _).
  vm_compute in Hr. injection Hr as <-.
  vm_compute in Ht. injection Ht as <-.
  split; [apply Hstatus; reflexivity|].
  split; [rewrite Hvalue; vm_compute; reflexivity|].
  split; [exact Hto | exact Herr].
Defined.

Lemma X22_direction_witness :
  exists r s',
    PancakeSwap.handlePancakeSwapTrade (env := steadyEnv) deepReserves
      pepeSwapped watching = (Returns r, s')
    /\ PancakeSwap.direction r = "sell"
    /\ PancakeSwap.seller_wallet r = Some (VString "0x10ED")
    /\ PancakeSwap.buyer_wallet r = None
    /\ PancakeSwap.token_amount r = "1.0".
Proof.
  assert (Hrun : exists r s',
            PancakeSwap.handlePancakeSwapTrade (env := steadyEnv) deepReserves
              pepeSwapped watching = (Returns r, s'))
    by (let v := eval vm_compute in
                (PancakeSwap.handlePancakeSwapTrade (env := steadyEnv)
                   deepReserves pepeSwapped watching) in
        lazymatch v with
        | (Returns ?r, ?s') => exists r, s'; vm_cast_no_check (eq_refl v)
        end).
  destruct Hrun as (r & s' & E).
  exists r, s'. split; [exact E|].
  destruct (PancakeSwapProperties.X22_direction_of_a_pancake_trade
              (arithmetic := DecimalNumber) (env := steadyEnv)
              deepReserves pepeSwapped watching s' r E)
    as (args & Hparsed & _ & _ & _ & _ & _ & _ & _ & Hcase & _).
  injection Hparsed as <-.
  assert (Hsells : PancakeSwap.sells
                     {| named := ∅;
                        positional :=
                          [VString "0x10ED"; VBigInt (10 ^ 18); VBigInt 0;
                           VBigInt 0; VBigInt (10 ^ 15)] |} = true)
    by (vm_compute; reflexivity).
  rewrite Hsells in Hcase.
  destruct Hcase as (Hdir & Hseller & Hbuyer & n & Hn & _ & Hamount).
  split; [exact Hdir|]. split; [exact Hseller|]. split; [exact Hbuyer|].
  vm_compute in Hn. injection Hn as <-. rewrite Hamount.
  vm_compute. reflexivity.
Defined.

End Runs.
